(** * Timetable system: the assignment engine, the conflict resolver, the
      soft-score calculator, the feasibility validator and the manual move

    A shallow embedding of the JavaScript classes [TimetableGenerator]
    (the multi-attempt variant and the basic variant of js/timetable.js)
    and [ConstraintManager], with the properties of the specification
    stated and settled on them. *)

From Stdlib Require Import ZArith QArith Qabs Qround String Ascii List Bool Lia.
From stdpp Require Import base option list gmap strings numbers pretty.
From Stdlib Require Import Sorted.

Open Scope string_scope.

(** Conventions of the embedding.
    - A call is a [completion]: it returns a value or throws. A function
      that writes to the grid returns the grid after the call.
    - The grid and the counters are finite maps. The order in which a
      [for-in] loop enumerates the classes of a period row plays no part
      in what is computed here (tests of existence, counts, increments
      per key); where the order of keys matters, the object is an
      association list in order of insertion.
    - Identifiers are assumed not to be names that every object inherits
      ([constructor], [toString], ...).
    - Output to the console, updates of the page, [delay] and the
      analytics counters are left out: nothing computed depends on them. *)

(** ** JavaScript values used by the code *)

(** An exception value: the code throws [new Error(msg)] itself, and the
    runtime throws a [TypeError] on a property read of [undefined] or on a
    call of something that is not a function. *)
Inductive exn : Type :=
| TypeError (msg : string)
| Error (msg : string).

(** The completion of a call: a normal return or a throw. *)
Inductive completion (A : Type) : Type :=
| Normal (a : A)
| Throw (e : exn).
Arguments Normal {A} a.
Arguments Throw {A} e.

Definition cbind {A B} (c : completion A) (k : A -> completion B) : completion B :=
  match c with
  | Normal a => k a
  | Throw e => Throw e
  end.

Notation "'do' x <- c ; k" := (cbind c (fun x => k))
  (at level 10, x name, c at level 100, k at level 200,
   format "'[v' 'do'  x  <-  c ; '/' k ']'").

(** Identifiers are strings; a nullable field is [None] for [null]. *)
Abbreviation nullable := (option string).

(** [if (v)] on a nullable string: [null] and the empty string are falsy. *)
Definition truthy (v : nullable) : bool :=
  match v with
  | Some s => negb (String.eqb s "")
  | None => false
  end.

(** [a === b] on nullable strings. *)
Definition strict_eq (a b : nullable) : bool := bool_decide (a = b).

(** ** Data model *)

(** A slot object of the grid. *)
Record Slot : Type := mkSlot {
  day : string;
  period_id : string;
  class_id : string;
  subject_id : nullable;
  teacher_id : nullable;
  room_id : nullable;
  is_break : bool
}.

Definition set_subject_id (v : nullable) (s : Slot) : Slot :=
  mkSlot (day s) (period_id s) (class_id s) v (teacher_id s) (room_id s) (is_break s).
Definition set_teacher_id (v : nullable) (s : Slot) : Slot :=
  mkSlot (day s) (period_id s) (class_id s) (subject_id s) v (room_id s) (is_break s).
Definition set_room_id (v : nullable) (s : Slot) : Slot :=
  mkSlot (day s) (period_id s) (class_id s) (subject_id s) (teacher_id s) v (is_break s).
Definition set_is_break (v : bool) (s : Slot) : Slot :=
  mkSlot (day s) (period_id s) (class_id s) (subject_id s) (teacher_id s) (room_id s) v.

#[global] Instance Slot_eq_dec : EqDecision Slot.
Proof. solve_decision. Defined.

(** The grid: [timetable[day][period_id][class_id]] is a slot object. *)
Abbreviation Timetable := (gmap string (gmap string (gmap string Slot))).

(** The [from] and [to] arguments of a move: [{day, period_id, class_id}]. *)
Record SlotRef : Type := mkRef {
  ref_day : string;
  ref_period : string;
  ref_class : string
}.

#[global] Instance SlotRef_eq_dec : EqDecision SlotRef.
Proof. solve_decision. Defined.

Definition undefined_read : exn :=
  TypeError "Cannot read properties of undefined".

(** [timetable[d][p]]: reading [p] of an absent [timetable[d]] throws; the
    result is [None] when the period object itself is [undefined]. *)
Definition period_row (tt : Timetable) (d p : string)
  : completion (option (gmap string Slot)) :=
  match tt !! d with
  | None => Throw undefined_read
  | Some dm => Normal (dm !! p)
  end.

(** [timetable[d][p][c]]: [None] when the class has no slot there. *)
Definition get_slot (tt : Timetable) (d p c : string) : completion (option Slot) :=
  match tt !! d with
  | None => Throw undefined_read
  | Some dm =>
      match dm !! p with
      | None => Throw undefined_read
      | Some cm => Normal (cm !! c)
      end
  end.

(** [o.f] where [o] may be [undefined]. *)
Definition field {A} (o : option Slot) (f : Slot -> A) : completion A :=
  match o with
  | Some s => Normal (f s)
  | None => Throw undefined_read
  end.

(** The slot object a reference addresses, when all three keys exist. *)
Definition slot_at (tt : Timetable) (a : SlotRef) : option Slot :=
  dm ← tt !! ref_day a; cm ← dm !! ref_period a; cm !! ref_class a.

(** A field assignment through an object reference held for address [a]. *)
Definition write (a : SlotRef) (f : Slot -> Slot) (tt : Timetable) : Timetable :=
  alter (alter (alter f (ref_class a)) (ref_period a)) (ref_day a) tt.

(** [timetable[d][p][c] = s]: stores a new object at an address whose day
    and period rows exist. *)
Definition store (d p c : string) (s : Slot) (tt : Timetable) : Timetable :=
  alter (alter (insert c s) p) d tt.

(** ** Results and assignments of a manual move *)

(** The object [{ success, message }] a move returns. *)
Record MoveResult : Type := mkResult {
  success : bool;
  message : string
}.

(** [dst.f = src.f] for the objects held for two addresses: the right-hand
    side is read from the current state of the source object, which is the
    same object as the destination when the addresses coincide. *)
Definition copy_field {A} (get : Slot -> A) (set : A -> Slot -> Slot)
    (src dst : SlotRef) (tt : Timetable) : completion Timetable :=
  do v <- field (slot_at tt src) get;
  Normal (write dst (set v) tt).

Definition reject (msg : string) (tt : Timetable)
  : completion (MoveResult * Timetable) :=
  Normal (mkResult false msg, tt).


(** ** Numbers

    A JavaScript number is modelled as an exact rational kept in lowest
    terms, or [NaN]. Rounding of doubles is not modelled; the infinities do
    not arise in the code embedded here. *)
Inductive num : Type :=
| NaN
| Num (q : Q).

#[global] Instance Q_eq_dec : EqDecision Q.
Proof. solve_decision. Defined.
#[global] Instance num_eq_dec : EqDecision num.
Proof. solve_decision. Defined.

Definition of_Z (z : Z) : num := Num (inject_Z z).

Definition nadd (a b : num) : num :=
  match a, b with
  | Num x, Num y => Num (Qred (x + y))
  | _, _ => NaN
  end.

Definition nsub (a b : num) : num :=
  match a, b with
  | Num x, Num y => Num (Qred (x - y))
  | _, _ => NaN
  end.

Definition nmul (a b : num) : num :=
  match a, b with
  | Num x, Num y => Num (Qred (x * y))
  | _, _ => NaN
  end.

(** [a / b]; the only division by zero in the code is [0 / 0] (a sum over
    an empty array divided by its length), which is [NaN]. *)
Definition ndiv (a b : num) : num :=
  match a, b with
  | Num x, Num y => if Qeq_bool y 0 then NaN else Num (Qred (x / y))
  | _, _ => NaN
  end.

(** [Math.abs(a)] *)
Definition nabs (a : num) : num :=
  match a with
  | Num x => Num (Qred (Qabs x))
  | NaN => NaN
  end.

(** [a < b] and [a > b]: false as soon as one side is [NaN]. *)
Definition nlt (a b : num) : bool :=
  match a, b with
  | Num x, Num y => negb (Qle_bool y x)
  | _, _ => false
  end.

Definition ngt (a b : num) : bool := nlt b a.

(** [Math.max(0, a)] *)
Definition max0 (a : num) : num :=
  match a with
  | Num x => if negb (Qle_bool 0 x) then Num 0 else Num x
  | NaN => NaN
  end.

(** [o[k]] used as a number: a missing property is [undefined], which
    arithmetic turns into [NaN]. *)
Definition num_prop (o : gmap string num) (k : string) : num :=
  default NaN (o !! k).

(** [o[k]++] *)
Definition incr (k : string) (o : gmap string num) : gmap string num :=
  <[k := nadd (num_prop o k) (Num 1)]> o.

(** ** Entities of the application state *)

Module Period.
Record t : Type := mk {
  id : string;
  name : string;
  start_time : string;
  end_time : string;
  type : string
}.
End Period.

Module Subject.
Record t : Type := mk {
  id : string;
  name : string;
  (** an absent target behaves as 0 under [||] *)
  target_lessons_per_week : Z;
  priority : string
}.
End Subject.

Module Cls.
Record t : Type := mk {
  id : string;
  level : string;
  stream : string
}.
End Cls.

Module Preferences.
Record t : Type := mk {
  morning_preference : bool
}.
End Preferences.

Module Teacher.
Record t : Type := mk {
  id : string;
  name : string;
  subjects : option (list string);
  class_levels : option (list string);
  preferences : option Preferences.t
}.
End Teacher.

Module Constraints.
Record t : Type := mk {
  max_daily_lessons : Z;
  prefer_morning : bool
}.
End Constraints.

(** [appState]. The field [days] is read by [ConstraintManager] only (the
    generator has its own [this.days]); the application builds its state
    without it, and it is then [undefined]. *)
Record AppState : Type := mkState {
  periods : list Period.t;
  subjects : list Subject.t;
  classes : list Cls.t;
  teachers : list Teacher.t;
  constraints : Constraints.t;
  days : option (list string)
}.

(** [p.type === 'lesson'] *)
Definition is_lesson (p : Period.t) : bool := String.eqb (Period.type p) "lesson".

(** [arr && arr.includes(x)] *)
Definition includes (arr : option (list string)) (x : string) : bool :=
  match arr with
  | Some l => existsb (String.eqb x) l
  | None => false
  end.

(** [x || d] on a number: [0] is falsy. *)
Definition or_default (x d : Z) : Z := if (x =? 0)%Z then d else x.

(** ** Loops with exceptions *)

(** [for (x of l) { b = f(b, x) }] where the body may throw. *)
Fixpoint cfold {A B} (f : B -> A -> completion B) (l : list A) (b : B)
  : completion B :=
  match l with
  | [] => Normal b
  | x :: l' => do b' <- f b x; cfold f l' b'
  end.

(** ** String helpers *)


(** [s.split(sep)] for a one-character separator. *)
Fixpoint split_on (sep : ascii) (s : string) : list string :=
  match s with
  | EmptyString => [EmptyString]
  | String c rest =>
      if Ascii.eqb c sep then EmptyString :: split_on sep rest
      else match split_on sep rest with
           | h :: t => String c h :: t
           | [] => [String c EmptyString]
           end
  end.

(** [Number(s)] on a string of decimal digits (the form of the hour and
    minute fields); the empty string converts to 0. *)
Fixpoint digits_value (s : string) (acc : Z) : option Z :=
  match s with
  | EmptyString => Some acc
  | String c rest =>
      let n := nat_of_ascii c in
      if (48 <=? n)%nat && (n <=? 57)%nat
      then digits_value rest (10 * acc + Z.of_nat (n - 48))%Z
      else None
  end.

Definition decimal_Number (s : string) : num :=
  match digits_value s 0 with
  | Some z => of_Z z
  | None => NaN
  end.

(** ** [ConstraintManager] *)
Module ConstraintManager.

(** *** The feasibility validator *)

Section validator.

(** The built-in conversion [Number] of a string to a number. The
    validator is embedded for any such conversion; [decimal_Number] is the
    instance used in the examples. *)
Variable Number : string -> num.

(** [const [hours, minutes] = timeStr.split(':').map(Number)]: with fewer
    than two parts [minutes] is [undefined] and the sum is [NaN]. *)
Definition timeToMinutes (timeStr : string) : num :=
  match map Number (split_on ":" timeStr) with
  | hours :: minutes :: _ => nadd (nmul hours (Num 60)) minutes
  | _ => NaN
  end.

Definition doPeriodsOverlap (period1 period2 : Period.t) : bool :=
  if negb (is_lesson period1) || negb (is_lesson period2) then false
  else
    let start1 := timeToMinutes (Period.start_time period1) in
    let end1 := timeToMinutes (Period.end_time period1) in
    let start2 := timeToMinutes (Period.start_time period2) in
    let end2 := timeToMinutes (Period.end_time period2) in
    nlt start1 end2 && nlt start2 end1.

Definition overlap_message (period1 period2 : Period.t) : string :=
  "Periods " ++ Period.name period1 ++ " and " ++ Period.name period2
  ++ " overlap".

(** The two nested index loops, [j] from [i + 1]. *)
Definition validatePeriodConstraints (st : AppState) : list string :=
  let ps := periods st in
  flat_map (fun i =>
    flat_map (fun j =>
      match ps !! i, ps !! j with
      | Some pi, Some pj =>
          if doPeriodsOverlap pi pj then [overlap_message pi pj] else []
      | _, _ => []
      end)
      (seq (S i) (length ps - S i)))
    (seq 0 (length ps)).

End validator.

(** *** The soft-score calculator *)

(** [this.appState.days.forEach(...)]: the call throws when the state has
    no field [days]. *)
Definition appState_days (st : AppState) : completion (list string) :=
  match days st with
  | Some l => Normal l
  | None => Throw undefined_read
  end.

Definition countSubjectLessons (st : AppState) (classId subjectId : string)
    (tt : Timetable) : completion Z :=
  do ds <- appState_days st;
  cfold (fun count d =>
    cfold (fun count period =>
      if is_lesson period then
        do slot <- get_slot tt d (Period.id period) classId;
        do sid <- field slot subject_id;
        Normal (if strict_eq sid (Some subjectId) then (count + 1)%Z else count)
      else Normal count)
      (periods st) count)
    ds 0%Z.

Definition calculateSubjectFrequencyPenalty (st : AppState) (tt : Timetable)
  : completion Z :=
  cfold (fun penalty cls =>
    cfold (fun penalty subject =>
      do actualLessons <- countSubjectLessons st (Cls.id cls) (Subject.id subject) tt;
      let targetLessons := or_default (Subject.target_lessons_per_week subject) 0 in
      let difference := Z.abs (actualLessons - targetLessons) in
      Normal (penalty + difference
                * (if String.eqb (Subject.priority subject) "high" then 2 else 1))%Z)
      (subjects st) penalty)
    (classes st) 0%Z.

(** [period.start_time >= '12:00'], a comparison of strings. *)
Definition isAfternoonPeriod (period : Period.t) : bool :=
  String.leb "12:00" (Period.start_time period).

(** The number of slots of a period row held by [teacherId]. *)
Definition count_in_row (teacherId : string) (row : option (gmap string Slot)) : Z :=
  Z.of_nat (length (filter
    (fun cs : string * Slot => strict_eq (teacher_id cs.2) (Some teacherId) = true)
    (map_to_list (default ∅ row)))).

Definition countAfternoonLessons (st : AppState) (teacherId : string)
    (tt : Timetable) : completion Z :=
  do ds <- appState_days st;
  cfold (fun count d =>
    cfold (fun count period =>
      if isAfternoonPeriod period then
        do row <- period_row tt d (Period.id period);
        Normal (count + count_in_row teacherId row)%Z
      else Normal count)
      (periods st) count)
    ds 0%Z.

Definition countTeacherDailyLessons (st : AppState) (teacherId d : string)
    (tt : Timetable) : completion Z :=
  cfold (fun count period =>
    if is_lesson period then
      do row <- period_row tt d (Period.id period);
      Normal (count + count_in_row teacherId row)%Z
    else Normal count)
    (periods st) 0%Z.

Definition calculateTeacherPreferencePenalty (st : AppState) (tt : Timetable)
  : completion Z :=
  cfold (fun penalty teacher =>
    match Teacher.preferences teacher with
    | Some prefs =>
        do penalty <-
          (if Preferences.morning_preference prefs then
             do n <- countAfternoonLessons st (Teacher.id teacher) tt;
             Normal (penalty + n)%Z
           else Normal penalty);
        do ds <- appState_days st;
        cfold (fun penalty d =>
          do dailyLessons <- countTeacherDailyLessons st (Teacher.id teacher) d tt;
          let limit := Constraints.max_daily_lessons (constraints st) in
          Normal (if (dailyLessons >? limit)%Z
                  then (penalty + (dailyLessons - limit) * 5)%Z
                  else penalty))
          ds penalty
    | None => Normal penalty
    end)
    (teachers st) 0%Z.

(** [calculateTeacherLoads] of [ConstraintManager]: the values of the
    [loads] object. A [teacher_id] that is no teacher's id makes
    [loads[teacherId]++] store [NaN]. The sums taken over the result do not
    depend on the order of enumeration. *)
Definition calculateTeacherLoads (st : AppState) (tt : Timetable)
  : completion (list num) :=
  let loads : gmap string num :=
    fold_left (fun loads teacher => <[Teacher.id teacher := Num 0]> loads)
      (teachers st) ∅ in
  do ds <- appState_days st;
  do loads <-
    cfold (fun loads d =>
      cfold (fun loads period =>
        if is_lesson period then
          do row <- period_row tt d (Period.id period);
          Normal (fold_left (fun loads (cs : string * Slot) =>
                    match teacher_id cs.2 with
                    | Some teacherId =>
                        if truthy (teacher_id cs.2) then incr teacherId loads
                        else loads
                    | None => loads
                    end)
                    (map_to_list (default ∅ row)) loads)
        else Normal loads)
        (periods st) loads)
      ds loads;
  Normal (map snd (map_to_list loads)).

Definition calculateWorkloadImbalancePenalty (st : AppState) (tt : Timetable)
  : completion num :=
  do teacherLoads <- calculateTeacherLoads st tt;
  let avgLoad := ndiv (fold_left nadd teacherLoads (Num 0))
                      (of_Z (Z.of_nat (length teacherLoads))) in
  Normal (fold_left (fun imbalance load => nadd imbalance (nabs (nsub load avgLoad)))
            teacherLoads (Num 0)).

Definition calculateSoftConstraintScores (st : AppState) (tt : Timetable)
  : completion num :=
  let totalScore := Num 1000 in
  do frequency <- calculateSubjectFrequencyPenalty st tt;
  let totalScore := nsub totalScore (nmul (of_Z frequency) (Num 10)) in
  do preference <- calculateTeacherPreferencePenalty st tt;
  let totalScore := nsub totalScore (nmul (of_Z preference) (Num 5)) in
  do imbalance <- calculateWorkloadImbalancePenalty st tt;
  let totalScore := nsub totalScore (nmul imbalance (Num 3)) in
  let totalScore :=
    if ngt totalScore (Num 950) then nadd totalScore (Num 50) else totalScore in
  Normal (max0 totalScore).

(** *** The rest of the feasibility validator

    Numbers are printed in the messages as [String] prints an integer. *)

(** [periods.filter(p => p.type === 'lesson').length] *)
Definition lessonPeriodsPerDay (st : AppState) : Z :=
  Z.of_nat (length (filter (fun p => is_lesson p = true) (periods st))).

Definition validateTeacherConstraints (st : AppState) : list string :=
  flat_map (fun teacher =>
    match Teacher.subjects teacher with
    | None | Some [] =>
        ["Teacher " ++ Teacher.name teacher ++ " has no subjects assigned"]
    | Some subjectIds =>
        app
          (flat_map (fun subjectId =>
             match find (fun s => String.eqb (Subject.id s) subjectId) (subjects st) with
             | Some _ => []
             | None =>
                 ["Teacher " ++ Teacher.name teacher
                  ++ " has invalid subject assigned: " ++ subjectId]
             end)
             subjectIds)
         match Teacher.class_levels teacher with
         | Some levels =>
             if (0 <? length levels)%nat then
               let availableLevels := map Cls.level (classes st) in
               flat_map (fun level =>
                 if existsb (String.eqb level) availableLevels then []
                 else ["Teacher " ++ Teacher.name teacher
                       ++ " assigned to non-existent class level: " ++ level])
                 levels
             else []
         | None => []
         end
    end)
    (teachers st).

Definition validateSubjectConstraints (st : AppState) : list string :=
  let totalLessonPeriodsPerWeek := (lessonPeriodsPerDay st * 5)%Z in
  flat_map (fun subject =>
    let targetLessons := or_default (Subject.target_lessons_per_week subject) 0 in
    let subjectTeachers :=
      filter (fun t => includes (Teacher.subjects t) (Subject.id subject) = true)
        (teachers st) in
    app
      (if (targetLessons >? totalLessonPeriodsPerWeek)%Z
       then ["Subject " ++ Subject.name subject ++ " requires more lessons ("
             ++ pretty targetLessons ++ ") than available periods ("
             ++ pretty totalLessonPeriodsPerWeek ++ ")"]
       else [])
      (if (length subjectTeachers =? 0)%nat
       then ["No teachers available for subject: " ++ Subject.name subject]
       else []))
    (subjects st).

Definition validateClassConstraints (st : AppState) : list string :=
  let totalAvailableSlots :=
    (Z.of_nat (length (classes st)) * lessonPeriodsPerDay st * 5)%Z in
  let totalRequiredLessons :=
    fold_left (fun total cls =>
      fold_left (fun total subject =>
        (total + or_default (Subject.target_lessons_per_week subject) 0)%Z)
        (subjects st) total)
      (classes st) 0%Z in
  if (totalRequiredLessons >? totalAvailableSlots)%Z
  then ["Total required lessons (" ++ pretty totalRequiredLessons
        ++ ") exceed available slots (" ++ pretty totalAvailableSlots ++ ")"]
  else [].

Definition validateAllConstraints (Number : string -> num) (st : AppState)
  : list string :=
  (validateTeacherConstraints st ++ validateSubjectConstraints st
   ++ validateClassConstraints st ++ validatePeriodConstraints Number st)%list.

(** *** The hard constraints of a manual edit *)

(** The argument [{day, period_id, teacher_id, class_id}] of
    [checkHardConstraints]. *)
Module Change.
Record t : Type := mk {
  day : string;
  period_id : string;
  teacher_id : nullable;
  class_id : string
}.
End Change.

Definition isTeacherDoubleBooked (proposedChange : Change.t) (tt : Timetable)
  : completion bool :=
  if negb (truthy (Change.teacher_id proposedChange)) then Normal false else
  do row <- period_row tt (Change.day proposedChange)
              (Change.period_id proposedChange);
  Normal (existsb
    (fun '(cid, slot) =>
       negb (String.eqb cid (Change.class_id proposedChange))
       && strict_eq (teacher_id slot) (Change.teacher_id proposedChange))
    (map_to_list (default ∅ row))).

Definition isRoomDoubleBooked (proposedChange : Change.t) (tt : Timetable) : bool :=
  false.

(** [period && period.type !== 'lesson']: [undefined], which is falsy, when
    no period has the id. *)
Definition isBreakPeriod (st : AppState) (proposedChange : Change.t) : bool :=
  match find (fun p => String.eqb (Period.id p) (Change.period_id proposedChange))
          (periods st) with
  | Some period => negb (is_lesson period)
  | None => false
  end.

Definition checkHardConstraints (st : AppState) (proposedChange : Change.t)
    (tt : Timetable) : completion (list string) :=
  do booked <- isTeacherDoubleBooked proposedChange tt;
  let violations :=
    if booked then ["Teacher is already assigned in this period"] else [] in
  let violations :=
    if isRoomDoubleBooked proposedChange tt
    then (violations ++ ["Room is already occupied in this period"])%list
    else violations in
  let violations :=
    if isBreakPeriod st proposedChange
    then (violations ++ ["Cannot schedule lessons during break/lunch periods"])%list
    else violations in
  Normal violations.

End ConstraintManager.

(** ** Objects with ordered keys

    A plain object whose keys are enumerated ([Object.keys], [for-in]) is
    an association list in order of insertion. *)
Section ordered_objects.
Context {V : Type}.

Definition obj_get (o : list (string * V)) (k : string) : option V :=
  snd <$> find (fun kv => String.eqb (fst kv) k) o.

(** [o[k] = v]: an existing key keeps its place. *)
Fixpoint obj_set (k : string) (v : V) (o : list (string * V)) : list (string * V) :=
  match o with
  | [] => [(k, v)]
  | (k', v') :: o' =>
      if String.eqb k' k then (k, v) :: o' else (k', v') :: obj_set k v o'
  end.

End ordered_objects.

(** A key that is a canonical array index ("0", "17", ... below 2^32 - 1):
    such keys are enumerated first, in ascending numeric order. *)
Definition array_index (k : string) : option Z :=
  match k with
  | EmptyString => None
  | String c rest =>
      if Ascii.eqb c "0" && negb (String.eqb rest "") then None
      else match digits_value k 0 with
           | Some z => if (z <? 4294967295)%Z then Some z else None
           | None => None
           end
  end.

(** Insertion of [x] after every element that must not follow it: a
    stable insertion sort, which is what [Array.prototype.sort] computes
    for a consistent comparator. [after y x] is [compare(y, x) > 0]. *)
Fixpoint insert_sorted {A} (after : A -> A -> bool) (x : A) (l : list A) : list A :=
  match l with
  | [] => [x]
  | y :: l' => if after y x then x :: y :: l' else y :: insert_sorted after x l'
  end.

Definition stable_sort {A} (after : A -> A -> bool) (l : list A) : list A :=
  fold_left (fun sorted x => insert_sorted after x sorted) l [].

(** [Object.keys(o)] *)
Definition own_keys {V} (o : list (string * V)) : list string :=
  let indexed := omap (fun kv => (fun z => (z, fst kv)) <$> array_index (fst kv)) o in
  let named := filter (fun k => array_index k = None) (map fst o) in
  map snd (stable_sort (fun y x => (fst x <? fst y)%Z) indexed) ++ named.

(** ** [TimetableGenerator], the multi-attempt variant *)
Module TimetableGenerator.

(** [this.days] *)
Definition this_days : list string :=
  ["Monday"; "Tuesday"; "Wednesday"; "Thursday"; "Friday"; "Saturday"; "Sunday"].

(** A call of [ErrorHandler.showNotification(message, type)]. *)
Record Notification : Type := notify {
  note_message : string;
  note_type : string
}.

(** [validateData]: the verdict and the notifications shown. *)
Definition validateData (st : AppState) : bool * list Notification :=
  if (length (periods st) =? 0)%nat
  then (false, [notify "Please set up school periods first." "error"])
  else if (length (subjects st) =? 0)%nat
  then (false, [notify "Please add subjects first." "error"])
  else if (length (classes st) =? 0)%nat
  then (false, [notify "Please add classes and streams first." "error"])
  else if (length (teachers st) =? 0)%nat
  then (false, [notify "Please add teachers first." "error"])
  else
    let teachersWithoutSubjects :=
      filter (fun t => match Teacher.subjects t with
                       | Some l => (length l =? 0)%nat
                       | None => true
                       end = true) (teachers st) in
    let notes1 :=
      if (0 <? length teachersWithoutSubjects)%nat
      then [notify (pretty (length teachersWithoutSubjects)
                    ++ " teachers have no subjects assigned.") "warning"]
      else [] in
    let subjectsWithoutTeachers :=
      filter (fun subject =>
                existsb (fun teacher =>
                           includes (Teacher.subjects teacher) (Subject.id subject))
                        (teachers st) = false) (subjects st) in
    let notes2 :=
      if (0 <? length subjectsWithoutTeachers)%nat
      then [notify (pretty (length subjectsWithoutTeachers)
                    ++ " subjects have no teachers available.") "warning"]
      else [] in
    (true, (notes1 ++ notes2)%list).

Definition initializeTimetable (st : AppState) : Timetable :=
  fold_left (fun tt d =>
    <[d :=
      fold_left (fun dm period =>
        <[Period.id period :=
          fold_left (fun cm cls =>
            <[Cls.id cls :=
              mkSlot d (Period.id period) (Cls.id cls) None None None
                     (negb (is_lesson period))]> cm)
            (classes st) ∅]> dm)
        (periods st) ∅]> tt)
    this_days ∅.

(** [timetable[d][p][c].is_break = true] *)
Definition mark_break (tt : Timetable) (d p c : string) : completion Timetable :=
  do slot <- get_slot tt d p c;
  do _ <- field slot is_break;
  Normal (write (mkRef d p c) (set_is_break true) tt).

Definition placeFixedElements (st : AppState) (tt : Timetable) : completion Timetable :=
  cfold (fun tt period =>
    if negb (is_lesson period) then
      cfold (fun tt d =>
        cfold (fun tt cls => mark_break tt d (Period.id period) (Cls.id cls))
          (classes st) tt)
        this_days tt
    else Normal tt)
    (periods st) tt.

(** A lesson-slot object [{day, period_id, class_id, assigned}] of the
    engine's work list. *)
Module LessonSlot.
Record t : Type := mk {
  day : string;
  period_id : string;
  class_id : string;
  assigned : bool
}.
Definition set_assigned (b : bool) (s : t) : t :=
  mk (day s) (period_id s) (class_id s) b.
End LessonSlot.

Definition createLessonSlots (st : AppState) : list LessonSlot.t :=
  flat_map (fun d =>
    flat_map (fun period =>
      if is_lesson period then
        map (fun cls => LessonSlot.mk d (Period.id period) (Cls.id cls) false)
            (classes st)
      else [])
      (periods st))
    this_days.

(** [classes.find(c => c.id === id)] *)
Definition find_class (st : AppState) (id : string) : option Cls.t :=
  find (fun c => String.eqb (Cls.id c) id) (classes st).

(** [levelMap[level] || 1] *)
Definition getClassLevelDifficulty (level : string) : Z :=
  if String.eqb level "S.1" then 1
  else if String.eqb level "S.2" then 2
  else if String.eqb level "S.3" then 3
  else if String.eqb level "S.4" then 4
  else if String.eqb level "S.5" then 5
  else if String.eqb level "S.6" then 6
  else 1.

(** [teachers.filter(t => t.class_levels && t.class_levels.includes(cls.level))]:
    [cls.level] is read for each teacher that has a [class_levels] array,
    and that read throws when [cls] is [undefined]. *)
Definition teachers_of_level (st : AppState) (cls : option Cls.t)
  : completion (list Teacher.t) :=
  cfold (fun kept teacher =>
    match Teacher.class_levels teacher with
    | Some levels =>
        match cls with
        | Some c =>
            Normal (if existsb (String.eqb (Cls.level c)) levels
                    then kept ++ [teacher] else kept)%list
        | None => Throw undefined_read
        end
    | None => Normal kept
    end)
    (teachers st) [].

Definition getAvailableTeachersForClass (st : AppState) (classId : string)
  : completion (list Teacher.t) :=
  teachers_of_level st (find_class st classId).

(** The slot objects live in a heap (a list indexed by object identity);
    the arrays [lessonSlots], [sortedSlots] and [unassignedSlots] hold
    references into it, so that [slot.assigned = true] is seen through
    every array that holds the object. *)
Abbreviation heap := (list LessonSlot.t).

(** The two numbers the comparator of [sortSlotsByDifficulty] computes for
    a slot: the difficulty of its class level and the number of teachers
    available for its class. *)
Definition difficulty_key (st : AppState) (h : heap) (r : nat) : completion (Z * Z) :=
  match h !! r with
  | Some slot =>
      match find_class st (LessonSlot.class_id slot) with
      | Some cls =>
          do available <- getAvailableTeachersForClass st (Cls.id cls);
          Normal (getClassLevelDifficulty (Cls.level cls),
                  Z.of_nat (length available))
      | None => Throw undefined_read
      end
  | None => Throw undefined_read
  end.

Fixpoint cmap {A B} (f : A -> completion B) (l : list A) : completion (list B) :=
  match l with
  | [] => Normal []
  | x :: l' => do y <- f x; do ys <- cmap f l'; Normal (y :: ys)
  end.

(** [compare(a, b) > 0] for the comparator of [sortSlotsByDifficulty]:
    [levelDiff = difficulty(B) - difficulty(A)], then
    [teachersB.length - teachersA.length]. *)
Definition difficulty_after (a b : Z * Z * nat) : bool :=
  let levelDiff := (fst (fst b) - fst (fst a))%Z in
  if negb (levelDiff =? 0)%Z then (0 <? levelDiff)%Z
  else (0 <? snd (fst b) - snd (fst a))%Z.

(** [slots.slice().sort(...)]: a new array of the same objects. An array
    of fewer than two elements is returned without a call of the
    comparator. *)
Definition sortSlotsByDifficulty (st : AppState) (h : heap) (slots : list nat)
  : completion (list nat) :=
  match slots with
  | [] | [_] => Normal slots
  | _ =>
      do keyed <- cmap (fun r => do k <- difficulty_key st h r; Normal (k, r)) slots;
      Normal (map snd (stable_sort difficulty_after keyed))
  end.

(** [resetSomeSlots]: the first [resetCount] objects of the array get
    [assigned = false]; the array itself is returned. The percentage is
    computed exactly. *)
Definition resetCount (len : nat) (currentAttempt maxAttempts : Z) : nat :=
  let resetPercentage :=
    ((3 # 10) + (inject_Z currentAttempt / inject_Z maxAttempts) * (4 # 10))%Q in
  Z.to_nat (Qfloor (inject_Z (Z.of_nat len) * resetPercentage)%Q).

Definition resetSomeSlots (h : heap) (slots : list nat)
    (currentAttempt maxAttempts : Z) : heap * list nat :=
  (fold_left (fun h r => alter (LessonSlot.set_assigned false) r h)
     (take (resetCount (length slots) currentAttempt maxAttempts) slots) h,
   slots).

Definition initializeTeacherLoad (st : AppState) : gmap string num :=
  fold_left (fun load teacher => <[Teacher.id teacher := Num 0]> load)
    (teachers st) ∅.

Definition initializeClassLoad (st : AppState) : gmap string (gmap string num) :=
  fold_left (fun load cls =>
    <[Cls.id cls := fold_left (fun row d => <[d := Num 0]> row) this_days ∅]> load)
    (classes st) ∅.

Definition initializeSubjectFrequency (st : AppState)
  : gmap string (gmap string num) :=
  fold_left (fun frequency cls =>
    <[Cls.id cls :=
      fold_left (fun row subject => <[Subject.id subject := Num 0]> row)
        (subjects st) ∅]> frequency)
    (classes st) ∅.

(** *** The assignment engine *)

(** An assignment [{day, period_id, class_id, teacher_id, subject_id}]. *)
Module Assignment.
Record t : Type := mk {
  day : string;
  period_id : string;
  class_id : string;
  teacher_id : string;
  subject_id : string
}.
End Assignment.

(** [o[k]] where a property of the result is read next. *)
Definition nested_row (o : gmap string (gmap string num)) (k : string)
  : completion (gmap string num) :=
  match o !! k with
  | Some row => Normal row
  | None => Throw undefined_read
  end.

(** [o[k1][k2]++] *)
Definition nested_incr (k1 k2 : string) (o : gmap string (gmap string num))
  : completion (gmap string (gmap string num)) :=
  do row <- nested_row o k1;
  Normal (<[k1 := incr k2 row]> o).

(** [x || d] on a number that may be missing: [undefined], [NaN] and 0 are
    falsy. *)
Definition num_or (x : option num) (d : num) : num :=
  match x with
  | Some (Num q) => if Qeq_bool q 0 then d else Num q
  | _ => d
  end.

(** The subjects still under their weekly target for the class, sorted by
    remaining deficit, largest first. *)
Definition getNeededSubjects (st : AppState) (classId : string)
    (subjectFrequency : gmap string (gmap string num))
  : completion (list Subject.t) :=
  do classSubjects <-
    cfold (fun classSubjects subject =>
      let targetLessons := of_Z (or_default (Subject.target_lessons_per_week subject) 5) in
      do row <- nested_row subjectFrequency classId;
      let currentLessons := num_or (row !! Subject.id subject) (Num 0) in
      if nlt currentLessons targetLessons
      then Normal (classSubjects ++ [(subject, nsub targetLessons currentLessons)])%list
      else Normal classSubjects)
      (subjects st) [];
  Normal (map fst
    (stable_sort (fun a b => ngt (nsub (snd b) (snd a)) (Num 0)) classSubjects)).

(** [priorityWeight[subject.priority] || 0] *)
Definition priorityWeight (priority : string) : num :=
  if String.eqb priority "high" then Num 10
  else if String.eqb priority "medium" then Num 5
  else Num 0.

Definition calculateAssignmentScore (st : AppState) (teacher : Teacher.t)
    (subject : Subject.t) (teacherLoad : gmap string num)
    (classLoad : gmap string (gmap string num)) (classId d : string)
  : completion num :=
  let score := Num 100 in
  let score := nsub score (nmul (num_prop teacherLoad (Teacher.id teacher)) (Num 2)) in
  do row <- nested_row classLoad classId;
  let score := nsub score (nmul (num_prop row d) (Num (3 # 2))) in
  let score := nadd score (priorityWeight (Subject.priority subject)) in
  let score :=
    if Constraints.prefer_morning (constraints st)
       && String.eqb (Subject.priority subject) "high"
    then nadd score (Num 5) else score in
  Normal (max0 score).

(** [timetable[d][p][c] = s] *)
Definition store_slot (tt : Timetable) (d p c : string) (s : Slot)
  : completion Timetable :=
  match tt !! d with
  | None => Throw undefined_read
  | Some dm =>
      match dm !! p with
      | None => Throw (TypeError "Cannot set properties of undefined")
      | Some _ => Normal (store d p c s tt)
      end
  end.

(** [assignLesson]: a new object with the fields of the old one and the
    subject, the teacher and [is_break: false]. The spread of an absent
    slot would give an object without address fields; the engine only
    assigns to slots the grid initializer created, and that case is
    modelled as a throw. *)
Definition assignLesson (tt : Timetable) (a : Assignment.t) : completion Timetable :=
  do old <- get_slot tt (Assignment.day a) (Assignment.period_id a)
              (Assignment.class_id a);
  do old <- field old id;
  store_slot tt (Assignment.day a) (Assignment.period_id a) (Assignment.class_id a)
    (set_is_break false
       (set_teacher_id (Some (Assignment.teacher_id a))
          (set_subject_id (Some (Assignment.subject_id a)) old))).

Definition isTeacherAvailable (teacherId d p : string) (tt : Timetable)
  : completion bool :=
  do row <- period_row tt d p;
  Normal (negb (existsb
    (fun '(classId, slot) => strict_eq (teacher_id slot) (Some teacherId))
    (map_to_list (default ∅ row)))).

(** The [for (const classId in timetable[day][periodId])] scan: the
    teacher is unavailable as soon as a class other than [excludeClassId]
    holds a [teacher_id] strictly equal to [teacherId]. A [for-in] over
    [undefined] runs no iteration. *)
Definition isTeacherAvailableById (teacherId : nullable) (d p : string)
    (tt : Timetable) (excludeClassId : string) : completion bool :=
  do row <- period_row tt d p;
  Normal (negb (existsb
    (fun '(classId, slot) =>
       negb (String.eqb classId excludeClassId)
       && strict_eq (teacher_id slot) teacherId)
    (map_to_list (default ∅ row)))).


Definition findBestAssignment (st : AppState) (slot : LessonSlot.t)
    (tt : Timetable) (teacherLoad : gmap string num)
    (classLoad subjectFrequency : gmap string (gmap string num))
  : completion (option Assignment.t) :=
  let d := LessonSlot.day slot in
  let period_id := LessonSlot.period_id slot in
  let class_id := LessonSlot.class_id slot in
  let cls := find_class st class_id in
  do neededSubjects <- getNeededSubjects st class_id subjectFrequency;
  if (length neededSubjects =? 0)%nat then Normal None else
  do availableTeachers <- teachers_of_level st cls;
  do best <-
    cfold (fun best subject =>
      let teachersForSubject :=
        filter (fun teacher =>
                  includes (Teacher.subjects teacher) (Subject.id subject) = true)
               availableTeachers in
      cfold (fun (best : num * option Assignment.t) teacher =>
        do free <- isTeacherAvailable (Teacher.id teacher) d period_id tt;
        if negb free then Normal best else
        do score <- calculateAssignmentScore st teacher subject teacherLoad
                      classLoad class_id d;
        if ngt score (fst best)
        then Normal (score, Some (Assignment.mk d period_id class_id
                                    (Teacher.id teacher) (Subject.id subject)))
        else Normal best)
        teachersForSubject best)
      neededSubjects (Num (-1), None);
  Normal (snd best).

(** The mutable state of [assignLessons]: the heap of slot objects, the
    grid and the three counters. *)
Record Engine : Type := mkEngine {
  e_heap : heap;
  e_timetable : Timetable;
  e_teacherLoad : gmap string num;
  e_classLoad : gmap string (gmap string num);
  e_subjectFrequency : gmap string (gmap string num)
}.

(** The body of [for (const slot of sortedSlots)]; [updateProgress] only
    writes to the page and [delay] only yields. *)
Definition assign_step (st : AppState) (acc : Engine * list nat) (r : nat)
  : completion (Engine * list nat) :=
  let E := fst acc in
  let unassignedSlots := snd acc in
  do assigned <- match e_heap E !! r with
                 | Some slot => Normal (LessonSlot.assigned slot)
                 | None => Throw undefined_read
                 end;
  if assigned then Normal acc else
  do slot <- match e_heap E !! r with
             | Some slot => Normal slot
             | None => Throw undefined_read
             end;
  do bestAssignment <- findBestAssignment st slot (e_timetable E)
                         (e_teacherLoad E) (e_classLoad E) (e_subjectFrequency E);
  match bestAssignment with
  | Some best =>
      do tt <- assignLesson (e_timetable E) best;
      let h := alter (LessonSlot.set_assigned true) r (e_heap E) in
      let teacherLoad := incr (Assignment.teacher_id best) (e_teacherLoad E) in
      do classLoad <- nested_incr (Assignment.class_id best) (Assignment.day best)
                        (e_classLoad E);
      do subjectFrequency <- nested_incr (Assignment.class_id best)
                               (Assignment.subject_id best) (e_subjectFrequency E);
      Normal (mkEngine h tt teacherLoad classLoad subjectFrequency, unassignedSlots)
  | None => Normal (E, (unassignedSlots ++ [r])%list)
  end.

Definition maxAttempts : nat := 5.

(** The [while (attempt < maxAttempts && !this.generationCancelled)] loop,
    by the number of attempts that remain. *)
Fixpoint attempt_loop (st : AppState) (cancelled : bool) (remaining : nat)
    (E : Engine) (lessonSlots : list nat) : completion (Engine * list nat) :=
  match remaining with
  | O => Normal (E, lessonSlots)
  | S n =>
      if cancelled then Normal (E, lessonSlots) else
      let attempt := (maxAttempts - S n)%nat in
      do sortedSlots <- sortSlotsByDifficulty st (e_heap E) lessonSlots;
      do pass <- cfold (assign_step st) sortedSlots (E, []);
      let '(E, unassignedSlots) := pass in
      if (length unassignedSlots =? 0)%nat then Normal (E, lessonSlots) else
      let '(h, lessonSlots) :=
        resetSomeSlots (e_heap E) unassignedSlots (Z.of_nat attempt)
          (Z.of_nat maxAttempts) in
      attempt_loop st cancelled n
        (mkEngine h (e_timetable E) (e_teacherLoad E) (e_classLoad E)
           (e_subjectFrequency E))
        lessonSlots
  end.

(** [assignLessons(timetable, lessonSlots)]: the grid after the call and
    the notifications shown. The flag [cancelled] is
    [this.generationCancelled], which only [cancelGeneration] sets. *)
Definition assignLessons (st : AppState) (cancelled : bool) (tt : Timetable)
    (lessonSlots : list LessonSlot.t)
  : completion (Timetable * list Notification) :=
  let E := mkEngine lessonSlots tt (initializeTeacherLoad st)
             (initializeClassLoad st) (initializeSubjectFrequency st) in
  do final <- attempt_loop st cancelled maxAttempts E (seq 0 (length lessonSlots));
  let '(E, lessonSlots) := final in
  let finalUnassigned :=
    length (filter (fun r => (LessonSlot.assigned <$> e_heap E !! r) = Some false)
              lessonSlots) in
  Normal (e_timetable E,
          if (0 <? finalUnassigned)%nat
          then [notify (pretty finalUnassigned
                        ++ " lessons could not be assigned. Consider adjusting constraints.")
                       "warning"]
          else []).

(** *** The conflict resolver *)

(** An entry [{classId, slot}] of a conflict; [slot] is the object found
    in the grid when the conflict was detected. The resolver replaces
    objects in the grid and never writes to one, so the entry keeps the
    fields it was detected with. *)
Module Booking.
Record t : Type := mk {
  classId : string;
  slot : Slot
}.
End Booking.

Module Conflict.
Record t : Type := mk {
  type : string;
  teacherId : string;
  day : string;
  periodId : string;
  assignments : list Booking.t
}.
End Conflict.

(** [if (!o[k]) o[k] = []; o[k].push(v)] *)
Definition obj_push {V} (k : string) (v : V) (o : list (string * list V))
  : list (string * list V) :=
  obj_set k (default [] (obj_get o k) ++ [v])%list o.

(** The bookings of one [(day, period)], grouped by [teacher_id]. *)
Definition teacherAssignments_of (st : AppState) (tt : Timetable) (d p : string)
  : completion (list (string * list Booking.t)) :=
  cfold (fun teacherAssignments cls =>
    do slot <- get_slot tt d p (Cls.id cls);
    do slot <- field slot id;
    match teacher_id slot with
    | Some teacherId =>
        if truthy (teacher_id slot) && negb (is_break slot)
        then Normal (obj_push teacherId (Booking.mk (Cls.id cls) slot)
                       teacherAssignments)
        else Normal teacherAssignments
    | None => Normal teacherAssignments
    end)
    (classes st) [].

(** The conflicts of one [(day, period)]: the teachers with more than one
    booking, in the order of [Object.keys]. *)
Definition conflicts_of (d p : string)
    (teacherAssignments : list (string * list Booking.t)) : list Conflict.t :=
  flat_map (fun teacherId =>
    let bookings := default [] (obj_get teacherAssignments teacherId) in
    if (1 <? length bookings)%nat
    then [Conflict.mk "teacher_double_booking" teacherId d p bookings]
    else [])
    (own_keys teacherAssignments).

Definition findAllConflicts (st : AppState) (tt : Timetable)
  : completion (list Conflict.t) :=
  cfold (fun conflicts d =>
    cfold (fun conflicts period =>
      if negb (is_lesson period) then Normal conflicts else
      do teacherAssignments <- teacherAssignments_of st tt d (Period.id period);
      Normal (conflicts ++ conflicts_of d (Period.id period) teacherAssignments)%list)
      (periods st) conflicts)
    this_days [].

(** The first [(day, period)], days outermost, where the class of the
    original slot has a slot without subject that is no break and where
    the teacher is held by no other class. *)
Definition findAlternativeSlot (st : AppState) (originalSlot : Slot)
    (teacherId : string) (tt : Timetable) : completion (option (string * string)) :=
  cfold (fun found d =>
    cfold (fun found period =>
      match found with
      | Some _ => Normal found
      | None =>
          if negb (is_lesson period) then Normal None
          else if String.eqb d (day originalSlot)
                  && String.eqb (Period.id period) (period_id originalSlot)
          then Normal None
          else
            do slot <- get_slot tt d (Period.id period) (class_id originalSlot);
            do slot <- field slot id;
            if negb (truthy (subject_id slot)) && negb (is_break slot) then
              do free <- isTeacherAvailableById (Some teacherId) d (Period.id period)
                           tt (class_id originalSlot);
              Normal (if free then Some (d, Period.id period) else None)
            else Normal None
      end)
      (periods st) found)
    this_days None.

(** The loop over [assignments.slice(1)]: the first booking that has an
    alternative slot is moved there and its original slot is reset. *)
Fixpoint relocate_first (st : AppState) (teacherId d p : string)
    (bookings : list Booking.t) (tt : Timetable) : completion (bool * Timetable) :=
  match bookings with
  | [] => Normal (false, tt)
  | assignment :: rest =>
      do alternativeSlot <-
        findAlternativeSlot st (Booking.slot assignment) teacherId tt;
      match alternativeSlot with
      | Some (alt_day, alt_periodId) =>
          let s := Booking.slot assignment in
          do tt <- store_slot tt alt_day alt_periodId (Booking.classId assignment)
                     (mkSlot alt_day alt_periodId (class_id s) (subject_id s)
                             (teacher_id s) (room_id s) (is_break s));
          do tt <- store_slot tt d p (Booking.classId assignment)
                     (mkSlot d p (Booking.classId assignment) None None None false);
          Normal (true, tt)
      | None => relocate_first st teacherId d p rest tt
      end
  end.

Definition resolveTeacherDoubleBooking (st : AppState) (conflict : Conflict.t)
    (tt : Timetable) : completion (bool * Timetable) :=
  relocate_first st (Conflict.teacherId conflict) (Conflict.day conflict)
    (Conflict.periodId conflict) (tail (Conflict.assignments conflict)) tt.

Definition resolveSpecificConflict (st : AppState) (conflict : Conflict.t)
    (tt : Timetable) : completion (bool * Timetable) :=
  if String.eqb (Conflict.type conflict) "teacher_double_booking"
  then resolveTeacherDoubleBooking st conflict tt
  else Normal (false, tt).

(** The body of [for (const conflict of conflicts)]: the number of
    conflicts resolved in this iteration and the grid. *)
Definition resolve_step (st : AppState) (cancelled : bool)
    (acc : nat * Timetable) (conflict : Conflict.t) : completion (nat * Timetable) :=
  if cancelled then Normal acc else
  do r <- resolveSpecificConflict st conflict (snd acc);
  Normal (if fst r then S (fst acc) else fst acc, snd r).

Definition maxIterations : nat := 100.

(** The [for (iteration < maxIterations && !this.generationCancelled)]
    loop, by the number of iterations that remain. *)
Fixpoint resolve_loop (st : AppState) (cancelled : bool) (remaining : nat)
    (conflictsResolved : nat) (tt : Timetable) : completion (nat * Timetable) :=
  match remaining with
  | O => Normal (conflictsResolved, tt)
  | S n =>
      if cancelled then Normal (conflictsResolved, tt) else
      do conflicts <- findAllConflicts st tt;
      if (length conflicts =? 0)%nat then Normal (conflictsResolved, tt) else
      do pass <- cfold (resolve_step st cancelled) conflicts (0%nat, tt);
      let resolvedThisIteration := fst pass in
      let conflictsResolved := (conflictsResolved + resolvedThisIteration)%nat in
      if (resolvedThisIteration =? 0)%nat then Normal (conflictsResolved, snd pass)
      else resolve_loop st cancelled n conflictsResolved (snd pass)
  end.

(** [resolveConflicts(timetable)]: the count it returns and the grid
    after the call. *)
Definition resolveConflicts (st : AppState) (cancelled : bool) (tt : Timetable)
  : completion (nat * Timetable) :=
  resolve_loop st cancelled maxIterations 0 tt.

(** *** The optimization passes *)

(** [calculateTeacherLoads] of the generator returns the object [loads]
    itself (the one of [ConstraintManager] returns its values). *)
Definition calculateTeacherLoads (st : AppState) (tt : Timetable)
  : completion (gmap string num) :=
  let loads : gmap string num :=
    fold_left (fun loads teacher => <[Teacher.id teacher := Num 0]> loads)
      (teachers st) ∅ in
  cfold (fun loads d =>
    cfold (fun loads period =>
      if is_lesson period then
        do row <- period_row tt d (Period.id period);
        Normal (fold_left (fun loads (cs : string * Slot) =>
                  match teacher_id cs.2 with
                  | Some teacherId =>
                      if truthy (teacher_id cs.2) then incr teacherId loads
                      else loads
                  | None => loads
                  end)
                  (map_to_list (default ∅ row)) loads)
      else Normal loads)
      (periods st) loads)
    this_days loads.

(** [teacherLoads.reduce(...)] where [teacherLoads] is the plain object
    above: a plain object has no method [reduce] (an own property of that
    name would be a number), so the call throws and yields no value. *)
Definition reduce_of_object (teacherLoads : gmap string num) : completion Empty_set :=
  Throw (TypeError "teacherLoads.reduce is not a function").

(** [balanceTeacherWorkload]: the statements after the call of [reduce]
    are never reached. *)
Definition balanceTeacherWorkload (st : AppState) (cancelled : bool)
    (tt : Timetable) : completion Timetable :=
  if cancelled then Normal tt else
  do teacherLoads <- calculateTeacherLoads st tt;
  do sum <- reduce_of_object teacherLoads;
  match sum with end.

(** [distribution[k]++] on an object with ordered keys. *)
Definition obj_incr (k : string) (o : list (string * num)) : list (string * num) :=
  obj_set k (nadd (default NaN (obj_get o k)) (Num 1)) o.

Definition calculateSubjectDistribution (st : AppState) (classId : string)
    (tt : Timetable) : completion (list (string * num)) :=
  let distribution :=
    fold_left (fun distribution subject => obj_set (Subject.id subject) (Num 0) distribution)
      (subjects st) [] in
  cfold (fun distribution d =>
    cfold (fun distribution period =>
      if is_lesson period then
        do slot <- get_slot tt d (Period.id period) classId;
        do slot <- field slot id;
        match subject_id slot with
        | Some subjectId =>
            Normal (if truthy (subject_id slot) then obj_incr subjectId distribution
                    else distribution)
        | None => Normal distribution
        end
      else Normal distribution)
      (periods st) distribution)
    this_days distribution.

(** [arr.includes(x)] on an array that may be [null]. *)
Definition includes_strict (arr : option (list string)) (x : string) : completion bool :=
  match arr with
  | Some l => Normal (existsb (String.eqb x) l)
  | None => Throw (TypeError "Cannot read properties of null")
  end.

(** [teachers.find(t => ...)] of [addMissingLessons]. *)
Fixpoint find_teacher (st : AppState) (classId subjectId d p : string)
    (tt : Timetable) (l : list Teacher.t) : completion (option Teacher.t) :=
  match l with
  | [] => Normal None
  | t :: l' =>
      do teaches <- includes_strict (Teacher.subjects t) subjectId;
      do ok <-
        (if teaches then
           match Teacher.class_levels t with
           | None => Throw (TypeError "Cannot read properties of null")
           | Some levels =>
               match find_class st classId with
               | None => Throw undefined_read
               | Some cls =>
                   if existsb (String.eqb (Cls.level cls)) levels
                   then isTeacherAvailableById (Some (Teacher.id t)) d p tt classId
                   else Normal false
               end
           end
         else Normal false);
      if ok then Normal (Some t) else find_teacher st classId subjectId d p tt l'
  end.

(** [added >= missingCount] *)
Definition reached (added : Z) (missingCount : num) : bool :=
  match missingCount with
  | Num q => Qle_bool q (inject_Z added)
  | NaN => false
  end.

(** [addMissingLessons]: the [break] leaves the loop over the periods of
    one day only. *)
Definition addMissingLessons (st : AppState) (classId subjectId : string)
    (missingCount : num) (tt : Timetable) : completion Timetable :=
  do r <-
    cfold (fun (acc : Z * Timetable) d =>
      do r <-
        cfold (fun (acc : bool * (Z * Timetable)) period =>
          let broken := fst acc in
          let added := fst (snd acc) in
          let tt := snd (snd acc) in
          if broken then Normal acc
          else if negb (is_lesson period) then Normal acc
          else if reached added missingCount then Normal (true, (added, tt))
          else
            do slot <- get_slot tt d (Period.id period) classId;
            do slot <- field slot id;
            if negb (truthy (subject_id slot)) && negb (is_break slot) then
              do teacher <- find_teacher st classId subjectId d (Period.id period)
                              tt (teachers st);
              match teacher with
              | Some t =>
                  let a := mkRef d (Period.id period) classId in
                  let tt := write a (set_subject_id (Some subjectId)) tt in
                  let tt := write a (set_teacher_id (Some (Teacher.id t))) tt in
                  Normal (false, ((added + 1)%Z, tt))
              | None => Normal acc
              end
            else Normal acc)
          (periods st) (false, acc);
      Normal (snd r))
      this_days (0%Z, tt);
  Normal (snd r).

Definition optimizeSubjectDistribution (st : AppState) (cancelled : bool)
    (tt : Timetable) : completion Timetable :=
  if cancelled then Normal tt else
  cfold (fun tt cls =>
    do subjectDistribution <- calculateSubjectDistribution st (Cls.id cls) tt;
    cfold (fun tt subjectId =>
      match find (fun s => String.eqb (Subject.id s) subjectId) (subjects st) with
      | None => Throw undefined_read
      | Some subject =>
          let targetLessons :=
            of_Z (or_default (Subject.target_lessons_per_week subject) 5) in
          let currentLessons := default NaN (obj_get subjectDistribution subjectId) in
          if nlt currentLessons targetLessons
          then addMissingLessons st (Cls.id cls) subjectId
                 (nsub targetLessons currentLessons) tt
          else Normal tt
      end)
      (own_keys subjectDistribution) tt)
    (classes st) tt.

Definition optimizeTimetable (st : AppState) (cancelled : bool) (tt : Timetable)
  : completion Timetable :=
  if cancelled then Normal tt else
  do r <- resolveConflicts st cancelled tt;
  do tt <- balanceTeacherWorkload st cancelled (snd r);
  optimizeSubjectDistribution st cancelled tt.

(** [validateTimetable]: the count of unassigned slots is taken, then the
    same call of [reduce] on the object of loads throws. *)
Definition validateTimetable (st : AppState) (tt : Timetable)
  : completion (bool * list string) :=
  do unassignedSlots <-
    cfold (fun n d =>
      cfold (fun n period =>
        if is_lesson period then
          cfold (fun n cls =>
            do slot <- get_slot tt d (Period.id period) (Cls.id cls);
            do slot <- field slot id;
            Normal (if negb (truthy (subject_id slot)) && negb (is_break slot)
                    then S n else n))
            (classes st) n
        else Normal n)
        (periods st) n)
      this_days 0%nat;
  do teacherLoads <- calculateTeacherLoads st tt;
  do sum <- reduce_of_object teacherLoads;
  match sum with end.

(** *** [generate] *)

(** The fields of the generator a run reads and writes. The analytics
    counters and the record written to local storage are bookkeeping that
    no result depends on and are left out. *)
Record GenState : Type := mkGen {
  isGenerating : bool;
  generationCancelled : bool;
  notifications : list Notification
}.

(** The state when [generate] is left: [finally] resets [isGenerating];
    the run itself had cleared [generationCancelled]. *)
Definition leave (S : GenState) (shown : list Notification) : GenState :=
  mkGen false false (notifications S ++ shown)%list.

(** [generate()]: its completion and the state of the generator after it.
    Within one run no other task calls [cancelGeneration], so the flag
    stays [false] once the run has cleared it. *)
Definition generate (st : AppState) (S : GenState) : completion Timetable * GenState :=
  if isGenerating S then (Throw (Error "Generation already in progress"), S) else
  let cancelled := false in
  let '(valid, shown) := validateData st in
  if negb valid
  then (Throw (Error "Invalid data. Please check your setup."), leave S shown)
  else
    let timetable := initializeTimetable st in
    match placeFixedElements st timetable with
    | Throw e => (Throw e, leave S shown)
    | Normal timetable =>
        let lessonSlots := createLessonSlots st in
        match assignLessons st cancelled timetable lessonSlots with
        | Throw e => (Throw e, leave S shown)
        | Normal (timetable, shown') =>
            let shown := (shown ++ shown')%list in
            if cancelled
            then (Throw (Error "Generation cancelled by user"), leave S shown)
            else
              match optimizeTimetable st cancelled timetable with
              | Throw e => (Throw e, leave S shown)
              | Normal timetable =>
                  match validateTimetable st timetable with
                  | Throw e => (Throw e, leave S shown)
                  | Normal validation => (Normal timetable, leave S shown)
                  end
              end
        end
    end.

(** *** Manual move *)

(** [moveLesson(timetable, from, to)]; the grid after the call is returned
    with the result object. [notifyCollaborators] only logs to the console. *)
Definition moveLesson (tt : Timetable) (from to : SlotRef)
  : completion (MoveResult * Timetable) :=
  do fromSlot <- get_slot tt (ref_day from) (ref_period from) (ref_class from);
  do toSlot <- get_slot tt (ref_day to) (ref_period to) (ref_class to);
  do to_break <- field toSlot is_break;
  if to_break then reject "Cannot move lesson to break period" tt else
  do to_subject <- field toSlot subject_id;
  if truthy to_subject then reject "Target slot is already occupied" tt else
  do from_teacher <- field fromSlot teacher_id;
  do free <- isTeacherAvailableById from_teacher (ref_day to) (ref_period to) tt
           (ref_class from);
  if negb free then reject "Teacher not available in target slot" tt else
  do tt <- copy_field subject_id set_subject_id from to tt;
  do tt <- copy_field teacher_id set_teacher_id from to tt;
  do tt <- copy_field room_id set_room_id from to tt;
  let tt := write from (set_subject_id None) tt in
  let tt := write from (set_teacher_id None) tt in
  let tt := write from (set_room_id None) tt in
  Normal (mkResult true "Lesson moved successfully", tt).


End TimetableGenerator.

(** ** Manual move (basic variant, js/timetable.js) *)
Module Basic.

(** The scan skips the excluded class with [continue]. *)
Definition isTeacherAvailableById (teacherId : nullable) (d p : string)
    (tt : Timetable) (excludeClassId : string) : completion bool :=
  do row <- period_row tt d p;
  Normal (negb (existsb
    (fun '(classId, slot) =>
       if String.eqb classId excludeClassId then false
       else strict_eq (teacher_id slot) teacherId)
    (map_to_list (default ∅ row)))).

Definition moveLesson (tt : Timetable) (from to : SlotRef)
  : completion (MoveResult * Timetable) :=
  do fromSlot <- get_slot tt (ref_day from) (ref_period from) (ref_class from);
  do toSlot <- get_slot tt (ref_day to) (ref_period to) (ref_class to);
  do to_break <- field toSlot is_break;
  do to_subject <- (if to_break then Normal None else field toSlot subject_id);
  if to_break || truthy to_subject then reject "Target slot is not available" tt else
  do from_teacher <- field fromSlot teacher_id;
  do free <- isTeacherAvailableById from_teacher (ref_day to) (ref_period to) tt
           (ref_class from);
  if negb free then reject "Teacher not available in target slot" tt else
  do tt <- copy_field subject_id set_subject_id from to tt;
  do tt <- copy_field teacher_id set_teacher_id from to tt;
  do tt <- copy_field room_id set_room_id from to tt;
  let tt := write from (set_subject_id None) tt in
  let tt := write from (set_teacher_id None) tt in
  let tt := write from (set_room_id None) tt in
  Normal (mkResult true "Lesson moved successfully", tt).

(** [period.start_time < '12:00'], a comparison of strings. *)
Definition isMorningPeriod (period : Period.t) : bool :=
  String.ltb (Period.start_time period) "12:00".

End Basic.


(** Small grids for examples: a grid from a list of slot objects, each
    stored at the address its own fields name. *)
Definition place (s : Slot) (tt : Timetable) : Timetable :=
  let dm := default ∅ (tt !! day s) in
  let cm := default ∅ (dm !! period_id s) in
  <[day s := <[period_id s := <[class_id s := s]> cm]> dm]> tt.

Definition grid_of (l : list Slot) : Timetable := foldr place ∅ l.

Definition lesson (d p c : string) (sub tch : nullable) : Slot :=
  mkSlot d p c sub tch None false.

(** ** What a move does *)

(** The scan of [isTeacherAvailableById], as a proposition: in the period
    row [timetable[d][p]], a class other than the excluded one holds a
    [teacher_id] equal to [teacherId] ([null] included). *)
Definition teacher_held_elsewhere (tt : Timetable) (d p : string)
    (teacherId : nullable) (excludeClassId : string) : Prop :=
  exists dm row classId slot,
    tt !! d = Some dm /\ dm !! p = Some row /\ row !! classId = Some slot /\
    classId <> excludeClassId /\ teacher_id slot = teacherId.

(** The target after a move: subject, teacher and room of the source. *)
Definition populate (src dst : Slot) : Slot :=
  set_room_id (room_id src)
    (set_teacher_id (teacher_id src) (set_subject_id (subject_id src) dst)).

(** The source after a move: subject, teacher and room set to [null]. *)
Definition cleared (s : Slot) : Slot :=
  set_room_id None (set_teacher_id None (set_subject_id None s)).

(** The three fields a move copies. *)
Definition contents (s : Slot) : nullable * nullable * nullable :=
  (subject_id s, teacher_id s, room_id s).

Definition moved (tt : Timetable) (from to : SlotRef) (fs : Slot) : Timetable :=
  write from cleared (write to (populate fs) tt).

Definition moved_ok : MoveResult := mkResult true "Lesson moved successfully".

(** The outcome of a move that atomicity allows: a rejection that leaves
    the grid as it was, or a success after which the source is cleared,
    the target is [target_after] and every other slot is as before. *)
Definition atomic_outcome (target_after : Slot)
    (r : completion (MoveResult * Timetable)) (tt : Timetable)
    (from to : SlotRef) (fs : Slot) : Prop :=
  (exists msg, r = Normal (mkResult false msg, tt)) \/
  (exists msg tt', r = Normal (mkResult true msg, tt') /\
     slot_at tt' from = Some (cleared fs) /\
     slot_at tt' to = Some target_after /\
     forall a, a <> from -> a <> to -> slot_at tt' a = slot_at tt a).

(** A rejection: a result object with [success: false]. *)
Definition is_rejection (r : completion (MoveResult * Timetable)) : Prop :=
  exists msg tt', r = Normal (mkResult false msg, tt').

(** The rule of rejection: a move is rejected exactly when the target is
    a break slot, or is [occupied], or the teacher of the source is held
    by another class in the target period; a rejection carries a reason
    and returns the grid unchanged. *)
Definition rejection_rule (occupied : Slot -> Prop)
    (r : completion (MoveResult * Timetable)) (tt : Timetable)
    (from to : SlotRef) (fs ts : Slot) : Prop :=
  (is_rejection r <->
     is_break ts = true \/ occupied ts \/
     teacher_held_elsewhere tt (ref_day to) (ref_period to) (teacher_id fs)
       (ref_class from))
  /\ (is_rejection r -> exists msg, r = Normal (mkResult false msg, tt)).

Definition teacher_unavailable (tt : Timetable) : completion (MoveResult * Timetable) :=
  Normal (mkResult false "Teacher not available in target slot", tt).

(** The round trip as the specification words it: after a successful
    move from [A] to [B], the move from [B] to [A] succeeds and the
    contents at both addresses are what they were. *)
Definition round_trip_as_stated (tt : Timetable) (A B : SlotRef) : Prop :=
  forall fs ts tt1 msg,
    slot_at tt A = Some fs -> slot_at tt B = Some ts ->
    TimetableGenerator.moveLesson tt A B = Normal (mkResult true msg, tt1) ->
    exists msg2 tt2,
      TimetableGenerator.moveLesson tt1 B A = Normal (mkResult true msg2, tt2)
      /\ contents <$> slot_at tt2 A = Some (contents fs)
      /\ contents <$> slot_at tt2 B = Some (contents ts).

(** ** Example grids for the manual move *)

Definition at_Mon_p1_A : SlotRef := mkRef "Monday" "p1" "A".
Definition at_Mon_p2_A : SlotRef := mkRef "Monday" "p2" "A".
Definition at_Tue_p1_A : SlotRef := mkRef "Tuesday" "p1" "A".
Definition at_Mon_break_A : SlotRef := mkRef "Monday" "break" "A".

Definition break_slot (d p c : string) : Slot := mkSlot d p c None None None true.

(** One class: a lesson in period 1, nothing in period 2. *)
Definition grid_one_lesson : Timetable :=
  grid_of [lesson "Monday" "p1" "A" (Some "S1") (Some "T1");
           lesson "Monday" "p2" "A" None None].

(** A slot that has a teacher and no subject. *)
Definition teacher_only : Slot := lesson "Monday" "p1" "A" None (Some "T1").
Definition grid_teacher_only : Timetable := grid_of [teacher_only].

(** A target whose [subject_id] is the empty string. *)
Definition grid_empty_string : Timetable :=
  grid_of [lesson "Monday" "p1" "A" (Some "S1") (Some "T1");
           lesson "Monday" "p2" "A" (Some "") None].

(** Two classes, an empty source, and a break period. *)
Definition grid_with_break : Timetable :=
  grid_of [lesson "Monday" "p1" "A" None None;
           lesson "Monday" "p1" "B" None None;
           break_slot "Monday" "break" "A";
           break_slot "Monday" "break" "B"].

(** Two classes with empty slots. *)
Definition grid_two_empty : Timetable :=
  grid_of [lesson "Monday" "p1" "A" None None;
           lesson "Monday" "p2" "A" None None;
           lesson "Monday" "p2" "B" None None].

(** Teacher T1 is booked for classes A and B in the same period. *)
Definition grid_double_booked : Timetable :=
  grid_of [lesson "Monday" "p1" "A" (Some "S1") (Some "T1");
           lesson "Monday" "p1" "B" (Some "S2") (Some "T1");
           lesson "Tuesday" "p1" "A" None None;
           lesson "Tuesday" "p1" "B" None None].

(** ** The period-overlap rule in the words of the specification *)

(** A time of day, and the minutes since midnight it stands for. *)
Record TimeOfDay : Type := mkTime {
  hour : nat;
  minute : nat
}.

Definition minutes_since_midnight (t : TimeOfDay) : Z :=
  (60 * Z.of_nat (hour t) + Z.of_nat (minute t))%Z.

Definition time_of_day (t : TimeOfDay) : Prop :=
  (hour t < 24)%nat /\ (minute t < 60)%nat.

(** How the time is written in a period: two digits, a colon, two
    digits. *)
Definition digit (n : nat) : ascii := ascii_of_nat (48 + n).

Definition two_digits (n : nat) : string :=
  String (digit (n / 10)) (String (digit (n mod 10)) EmptyString).

Definition written (t : TimeOfDay) : string :=
  two_digits (hour t) ++ ":" ++ two_digits (minute t).

(** A period with its two times, and the record of the state that
    carries them written out. *)
Module Timed.
Record t : Type := mk {
  id : string;
  name : string;
  start : TimeOfDay;
  finish : TimeOfDay;
  type : string
}.
End Timed.

Definition as_period (p : Timed.t) : Period.t :=
  Period.mk (Timed.id p) (Timed.name p) (written (Timed.start p))
    (written (Timed.finish p)) (Timed.type p).

Definition well_timed (p : Timed.t) : Prop :=
  time_of_day (Timed.start p) /\ time_of_day (Timed.finish p).

(** What the built-in [Number] is used for: two decimal digits convert
    to the number they write. *)
Definition reads_two_digits (Number : string -> num) : Prop :=
  forall n, (n < 100)%nat -> Number (two_digits n) = of_Z (Z.of_nat n).

(** Both periods are lessons and, in minutes since midnight,
    [start1 < end2] and [start2 < end1]. *)
Definition spec_overlap (p q : Timed.t) : bool :=
  bool_decide (Timed.type p = "lesson") && bool_decide (Timed.type q = "lesson")
  && (minutes_since_midnight (Timed.start p)
      <? minutes_since_midnight (Timed.finish q))%Z
  && (minutes_since_midnight (Timed.start q)
      <? minutes_since_midnight (Timed.finish p))%Z.

(** Every pair of a list, the earlier element first, in the order of the
    two nested loops. *)
Fixpoint ordered_pairs {A} (l : list A) : list (A * A) :=
  match l with
  | [] => []
  | x :: l' => (map (pair x) l' ++ ordered_pairs l')%list
  end.

(** The messages of the pairs the rule flags. *)
Definition spec_overlap_errors (ps : list Timed.t) : list string :=
  map (fun pq => ConstraintManager.overlap_message (as_period (fst pq))
                   (as_period (snd pq)))
    (List.filter (fun pq => spec_overlap (fst pq) (snd pq)) (ordered_pairs ps)).

(** ** The preference penalty, teacher by teacher

    Intermediate forms of the loops of [calculateTeacherPreferencePenalty],
    used in the proofs. *)

(** A sum over a list of a term that may throw. *)
Definition csum {A} (g : A -> completion Z) (l : list A) : completion Z :=
  cfold (fun total x => do v <- g x; Normal (total + v)%Z) l 0%Z.

(** The loop over the days for one teacher, as a sum. *)
Definition daily_excess (st : AppState) (tt : Timetable) (teacherId : string)
  : completion Z :=
  do ds <- ConstraintManager.appState_days st;
  csum (fun d =>
    do dailyLessons <- ConstraintManager.countTeacherDailyLessons st teacherId d tt;
    Normal (Z.max 0 (dailyLessons
                     - Constraints.max_daily_lessons (constraints st)))%Z)
    ds.

Definition wants_morning (teacher : Teacher.t) : bool :=
  match Teacher.preferences teacher with
  | Some prefs => Preferences.morning_preference prefs
  | None => false
  end.

Definition has_preferences (teacher : Teacher.t) : bool :=
  match Teacher.preferences teacher with
  | Some _ => true
  | None => false
  end.

(** What one teacher adds to the penalty. *)
Definition teacher_penalty (st : AppState) (tt : Timetable) (teacher : Teacher.t)
  : completion Z :=
  do afternoon <-
    (if wants_morning teacher
     then ConstraintManager.countAfternoonLessons st (Teacher.id teacher) tt
     else Normal 0%Z);
  do excess <-
    (if has_preferences teacher then daily_excess st tt (Teacher.id teacher)
     else Normal 0%Z);
  Normal (afternoon + excess * 5)%Z.

(** ** The soft score in the words of the specification *)

(** The number of classes whose slot at day [d] and period [p] names the
    teacher. *)
Definition slots_held (tt : Timetable) (teacherId d p : string) : Z :=
  Z.of_nat (size (filter (fun cs : string * Slot => teacher_id cs.2 = Some teacherId)
                    (default ∅ (tt !! d ≫= (.!! p))))).

(** [Σ_x g x] *)
Definition total {A} (g : A -> Z) (l : list A) : Z :=
  fold_right (fun x acc => (g x + acc)%Z) 0%Z l.

(** The lessons of a teacher on a day: the slots held in the lesson
    periods. *)
Definition daily_lessons (st : AppState) (tt : Timetable) (teacherId d : string) : Z :=
  total (fun period =>
           if decide (Period.type period = "lesson")
           then slots_held tt teacherId d (Period.id period) else 0%Z)
    (periods st).

(** [Σ_day max(0, dailyLessons - max_daily_lessons)] for one teacher. *)
Definition excess_units (st : AppState) (ds : list string) (tt : Timetable)
    (teacherId : string) : Z :=
  total (fun d => Z.max 0 (daily_lessons st tt teacherId d
                           - Constraints.max_daily_lessons (constraints st)))
    ds.

(** The slots a teacher holds in the periods whose start time, compared
    as a string, is at or after "12:00". *)
Definition afternoon_slots (st : AppState) (ds : list string) (tt : Timetable)
    (teacherId : string) : Z :=
  total (fun d =>
    total (fun period =>
             if String.leb "12:00" (Period.start_time period)
             then slots_held tt teacherId d (Period.id period) else 0%Z)
      (periods st))
    ds.

(** What the preferences take off the running score: 5 for each
    afternoon slot of a teacher who wants mornings, and [per_unit] for
    each unit of daily excess of a teacher the daily limit is [limited]
    to. *)
Definition preference_loss (per_unit : Z) (limited : Teacher.t -> bool)
    (st : AppState) (ds : list string) (tt : Timetable) : Z :=
  total (fun teacher =>
           (if wants_morning teacher
            then 5 * afternoon_slots st ds tt (Teacher.id teacher) else 0)
           + (if limited teacher
              then per_unit * excess_units st ds tt (Teacher.id teacher) else 0))%Z
    (teachers st).

(** The score for a running score: the bonus of 50 above 950, and no
    score under 0. *)
Definition with_bonus (running : num) : num :=
  max0 (if ngt running (Num 950) then nadd running (Num 50) else running).

(** The soft score for a frequency penalty and an imbalance penalty: the
    running score is 1000 less ten times the frequency penalty, less the
    loss to the preferences, less three times the imbalance. *)
Definition soft_score_with (per_unit : Z) (limited : Teacher.t -> bool)
    (st : AppState) (ds : list string) (tt : Timetable)
    (frequency : Z) (imbalance : num) : num :=
  with_bonus
    (nsub (nsub (nsub (Num 1000) (nmul (of_Z frequency) (Num 10)))
                (of_Z (preference_loss per_unit limited st ds tt)))
          (nmul imbalance (Num 3))).

(** The claim as the specification words it: 5 for each unit of daily
    excess, for every teacher. *)
Definition preference_weights_as_stated : Prop :=
  forall st tt v,
    ConstraintManager.calculateSoftConstraintScores st tt = Normal v ->
    exists ds frequency imbalance,
      days st = Some ds
      /\ ConstraintManager.calculateSubjectFrequencyPenalty st tt = Normal frequency
      /\ ConstraintManager.calculateWorkloadImbalancePenalty st tt = Normal imbalance
      /\ v = soft_score_with 5 (fun _ => true) st ds tt frequency imbalance.

(** ** Example states for the soft score *)

(** One teacher with a preferences object, two lessons on Monday. *)
Definition state_daily_limit (limit : Z) : AppState :=
  mkState
    [Period.mk "p1" "Period 1" "08:00" "08:40" "lesson";
     Period.mk "p2" "Period 2" "09:00" "09:40" "lesson"]
    []
    [Cls.mk "A" "S.1" "East"]
    [Teacher.mk "T1" "Teacher 1" (Some ["S1"]) (Some ["S.1"])
       (Some (Preferences.mk false))]
    (Constraints.mk limit false)
    (Some ["Monday"]).

Definition grid_two_lessons : Timetable :=
  grid_of [lesson "Monday" "p1" "A" (Some "S1") (Some "T1");
           lesson "Monday" "p2" "A" (Some "S1") (Some "T1")].

(** One subject with a weekly target of 2, met by the grid above. *)
Definition state_on_target : AppState :=
  mkState
    [Period.mk "p1" "Period 1" "08:00" "08:40" "lesson";
     Period.mk "p2" "Period 2" "09:00" "09:40" "lesson"]
    [Subject.mk "S1" "Mathematics" 2 "high"]
    [Cls.mk "A" "S.1" "East"]
    [Teacher.mk "T1" "Teacher 1" (Some ["S1"]) (Some ["S.1"])
       (Some (Preferences.mk true))]
    (Constraints.mk 6 true)
    (Some ["Monday"]).

(** A lesson, and a target without subject for which a room is booked. *)
Definition room_only : Slot :=
  mkSlot "Monday" "p2" "A" None None (Some "R1") false.
Definition grid_room_booked : Timetable :=
  grid_of [lesson "Monday" "p1" "A" (Some "S1") (Some "T1"); room_only].

(** An empty source, another class with an empty slot in the target
    period, and an occupied target. *)
Definition grid_occupied_target : Timetable :=
  grid_of [lesson "Monday" "p1" "A" None None;
           lesson "Monday" "p2" "A" (Some "S1") (Some "T1");
           lesson "Monday" "p2" "B" None None].

(** The state of [state_daily_limit] with a teacher who has no
    preferences object. *)
Definition state_no_preferences (limit : Z) : AppState :=
  mkState
    [Period.mk "p1" "Period 1" "08:00" "08:40" "lesson";
     Period.mk "p2" "Period 2" "09:00" "09:40" "lesson"]
    []
    [Cls.mk "A" "S.1" "East"]
    [Teacher.mk "T1" "Teacher 1" (Some ["S1"]) (Some ["S.1"]) None]
    (Constraints.mk limit false)
    (Some ["Monday"]).

(** Two lesson periods that overlap, and a break inside the first. *)
Definition first_period : Period.t :=
  Period.mk "p1" "Period 1" "08:00" "08:40" "lesson".
Definition second_period : Period.t :=
  Period.mk "p2" "Period 2" "08:30" "09:10" "lesson".
Definition short_break : Period.t :=
  Period.mk "b1" "Break" "08:10" "08:20" "break".
Definition state_overlapping : AppState :=
  mkState [first_period; short_break; second_period] [] [] []
    (Constraints.mk 6 false) None.

(** No teacher is booked twice: class A has two empty slots, class B has
    an empty slot in period 1 and a lesson in period 2. *)
Definition grid_empty_source : Timetable :=
  grid_of [lesson "Monday" "p1" "A" None None;
           lesson "Monday" "p1" "B" None None;
           lesson "Monday" "p2" "A" None None;
           lesson "Monday" "p2" "B" (Some "S1") (Some "T1")].

(** ** The assignment score in the words of the specification *)

(** high: 10, medium: 5, low: 0. *)
Definition priorityBonus (priority : string) : num :=
  if String.eqb priority "high" then Num 10
  else if String.eqb priority "medium" then Num 5
  else Num 0.

(** [100 - 2·teacherLoad - 1.5·classDailyLoad + priorityBonus + (5 if
    prefer_morning, the priority is high and the period is in the morning)],
    floored at 0. *)
Definition claimed_score (st : AppState) (teacherLoad classDailyLoad : num)
    (subject : Subject.t) (period : Period.t) : num :=
  let score := Num 100 in
  let score := nsub score (nmul teacherLoad (Num 2)) in
  let score := nsub score (nmul classDailyLoad (Num (3 # 2))) in
  let score := nadd score (priorityBonus (Subject.priority subject)) in
  let score :=
    nadd score
      (if Constraints.prefer_morning (constraints st)
          && String.eqb (Subject.priority subject) "high"
          && Basic.isMorningPeriod period
       then Num 5 else Num 0) in
  max0 score.

(** ** Example states for the engine *)

Definition afternoon_period : Period.t :=
  Period.mk "p7" "Period 7" "14:00" "14:40" "lesson".

Definition mathematics : Subject.t := Subject.mk "S1" "Mathematics" 5 "high".

Definition teacher_one : Teacher.t :=
  Teacher.mk "T1" "Teacher 1" (Some ["S1"]) (Some ["S.1"]) None.

(** One class, one afternoon period, mornings preferred. *)
Definition state_afternoon : AppState :=
  mkState [afternoon_period] [mathematics] [Cls.mk "A" "S.1" "East"]
    [teacher_one] (Constraints.mk 6 true) None.

(** One class, one period, and a teacher who teaches no level. *)
Definition state_unstaffed : AppState :=
  mkState [Period.mk "p1" "Period 1" "08:00" "08:40" "lesson"]
    [mathematics] [Cls.mk "A" "S.1" "East"]
    [Teacher.mk "T1" "Teacher 1" (Some ["S1"]) (Some []) None]
    (Constraints.mk 6 true) None.

Definition idle : TimetableGenerator.GenState :=
  TimetableGenerator.mkGen false false [].

(** ** Teacher exclusivity *)

(** As the specification words it: in no period row of the grid does a
    teacher appear in the slots of two classes. *)
Definition no_teacher_twice (tt : Timetable) : Prop :=
  forall d p dm row c1 c2 s1 s2 t,
    tt !! d = Some dm -> dm !! p = Some row ->
    row !! c1 = Some s1 -> row !! c2 = Some s2 -> c1 <> c2 ->
    teacher_id s1 = Some t -> teacher_id s2 = Some t -> False.

Definition resolver_exclusive_as_stated (st : AppState) (tt : Timetable) : Prop :=
  forall n tt',
    TimetableGenerator.resolveConflicts st false tt = Normal (n, tt') ->
    no_teacher_twice tt'.

(** Over what the resolver scans: the days of the generator, the lesson
    periods and the classes of the state, the slots that are no break,
    and the teacher ids that are not the empty string. *)
Definition teacher_exclusive (st : AppState) (tt : Timetable) : Prop :=
  forall d period cls1 cls2 s1 s2 t,
    In d TimetableGenerator.this_days ->
    In period (periods st) -> is_lesson period = true ->
    In cls1 (classes st) -> In cls2 (classes st) -> Cls.id cls1 <> Cls.id cls2 ->
    slot_at tt (mkRef d (Period.id period) (Cls.id cls1)) = Some s1 ->
    slot_at tt (mkRef d (Period.id period) (Cls.id cls2)) = Some s2 ->
    is_break s1 = false -> is_break s2 = false ->
    teacher_id s1 = Some t -> teacher_id s2 = Some t -> t = "".

(** The slot of a class in one period holds teacher [t] in the sense of
    the resolver's scan. *)
Definition booked_by (tt : Timetable) (d p t : string) (cls : Cls.t) : bool :=
  match slot_at tt (mkRef d p (Cls.id cls)) with
  | Some s =>
      bool_decide (teacher_id s = Some t) && truthy (teacher_id s)
      && negb (is_break s)
  | None => false
  end.

(** The bookings an object of bookings holds for a teacher. *)
Definition bookings_of {V} (o : list (string * list V)) (k : string) : list V :=
  default [] (obj_get o k).

(** Two classes, one lesson period: teacher T1 teaches both classes on
    every day of the week, so that no slot is free. *)
Definition state_two_classes : AppState :=
  mkState [Period.mk "p1" "Period 1" "08:00" "08:40" "lesson"]
    [mathematics] [Cls.mk "A" "S.1" "East"; Cls.mk "B" "S.1" "West"]
    [teacher_one] (Constraints.mk 6 false) None.

Definition grid_all_double_booked : Timetable :=
  grid_of (flat_map (fun d =>
             [lesson d "p1" "A" (Some "S1") (Some "T1");
              lesson d "p1" "B" (Some "S1") (Some "T1")])
           TimetableGenerator.this_days).

(** Teacher T1 teaches both classes on Monday; class B is free on the
    other days. *)
Definition grid_monday_conflict : Timetable :=
  write (mkRef "Monday" "p1" "B")
    (fun s => set_teacher_id (Some "T1") (set_subject_id (Some "S1") s))
    (write (mkRef "Monday" "p1" "A")
       (fun s => set_teacher_id (Some "T1") (set_subject_id (Some "S1") s))
       (TimetableGenerator.initializeTimetable state_two_classes)).

(** The grid above after class B's Monday lesson has moved to Tuesday. *)
Definition grid_monday_resolved : Timetable :=
  write (mkRef "Monday" "p1" "B") cleared
    (write (mkRef "Tuesday" "p1" "B")
       (populate (lesson "Monday" "p1" "B" (Some "S1") (Some "T1")))
       grid_monday_conflict).

(** ** Feasibility, as the validator decides it *)

(** A teacher with a non-empty list of subjects, each the id of a subject
    of the state, and whose class levels, if any, are levels of classes of
    the state. *)
Definition teacher_accepted (st : AppState) (t : Teacher.t) : Prop :=
  exists subjectIds,
    Teacher.subjects t = Some subjectIds /\ subjectIds <> []
    /\ (forall sid, In sid subjectIds ->
          exists s, In s (subjects st) /\ Subject.id s = sid)
    /\ (forall levels lv, Teacher.class_levels t = Some levels -> In lv levels ->
          exists c, In c (classes st) /\ Cls.level c = lv).

(** A subject whose weekly target fits in five days of lesson periods and
    that some teacher lists. *)
Definition subject_accepted (st : AppState) (s : Subject.t) : Prop :=
  (Subject.target_lessons_per_week s
   <= 5 * ConstraintManager.lessonPeriodsPerDay st)%Z
  /\ exists t l, In t (teachers st) /\ Teacher.subjects t = Some l
                 /\ In (Subject.id s) l.

(** The lessons one class needs in a week. *)
Definition weekly_demand (st : AppState) : Z :=
  fold_right (fun s acc => (Subject.target_lessons_per_week s + acc)%Z) 0%Z
    (subjects st).

(** ** The grid the generator starts from *)

(** The last period of the state with a given id: the one whose row the
    grid initializer leaves in the grid. *)
Definition last_period (st : AppState) (pid : string) : option Period.t :=
  find (fun p => String.eqb (Period.id p) pid) (rev (periods st)).

Definition is_day (d : string) : bool :=
  existsb (String.eqb d) TimetableGenerator.this_days.

Definition has_class (st : AppState) (cid : string) : bool :=
  existsb (fun c => String.eqb (Cls.id c) cid) (classes st).

(** The slot of the initialized grid at an address. *)
Definition initial_slot (st : AppState) (a : SlotRef) : option Slot :=
  if is_day (ref_day a) && has_class st (ref_class a)
  then (fun p => mkSlot (ref_day a) (ref_period a) (ref_class a) None None None
                   (negb (is_lesson p)))
       <$> last_period st (ref_period a)
  else None.

(** The grid has a slot for every day of the generator, every period and
    every class of the state. *)
Definition covers (st : AppState) (tt : Timetable) : Prop :=
  forall d p c,
    In d TimetableGenerator.this_days -> In p (periods st) -> In c (classes st) ->
    is_Some (slot_at tt (mkRef d (Period.id p) (Cls.id c))).

(** The addresses of the periods that are no lesson. *)
Definition fixed (st : AppState) (a : SlotRef) : bool :=
  is_day (ref_day a) && has_class st (ref_class a)
  && existsb (fun p => negb (is_lesson p) && String.eqb (Period.id p) (ref_period a))
       (periods st).

(** The address of a lesson-slot object. *)
Definition address (s : TimetableGenerator.LessonSlot.t) : SlotRef :=
  mkRef (TimetableGenerator.LessonSlot.day s)
    (TimetableGenerator.LessonSlot.period_id s)
    (TimetableGenerator.LessonSlot.class_id s).

(** [tt'] is [tt] with [is_break] set at the addresses [M] selects. *)
Definition marks (M : SlotRef -> bool) (tt tt' : Timetable) : Prop :=
  forall a,
    slot_at tt' a
    = if M a then set_is_break true <$> slot_at tt a else slot_at tt a.

(** ** What the assignment engine does *)

(** A candidate the engine may choose for a lesson slot: a teacher of the
    state who lists the level of the slot's class and the subject, who is
    held by no class in the slot's period, and a subject of the state that
    is under its weekly target (5 when the target is 0) for the class. *)
Definition eligible (st : AppState) (ls : TimetableGenerator.LessonSlot.t)
    (tt : Timetable) (subjectFrequency : gmap string (gmap string num))
    (a : TimetableGenerator.Assignment.t) : Prop :=
  TimetableGenerator.Assignment.day a = TimetableGenerator.LessonSlot.day ls
  /\ TimetableGenerator.Assignment.period_id a
     = TimetableGenerator.LessonSlot.period_id ls
  /\ TimetableGenerator.Assignment.class_id a
     = TimetableGenerator.LessonSlot.class_id ls
  /\ exists teacher subject cls row,
       In teacher (teachers st) /\ In subject (subjects st)
       /\ TimetableGenerator.find_class st
            (TimetableGenerator.LessonSlot.class_id ls) = Some cls
       /\ TimetableGenerator.Assignment.teacher_id a = Teacher.id teacher
       /\ TimetableGenerator.Assignment.subject_id a = Subject.id subject
       /\ includes (Teacher.class_levels teacher) (Cls.level cls) = true
       /\ includes (Teacher.subjects teacher) (Subject.id subject) = true
       /\ TimetableGenerator.isTeacherAvailable (Teacher.id teacher)
            (TimetableGenerator.LessonSlot.day ls)
            (TimetableGenerator.LessonSlot.period_id ls) tt = Normal true
       /\ subjectFrequency !! TimetableGenerator.LessonSlot.class_id ls = Some row
       /\ nlt (TimetableGenerator.num_or (row !! Subject.id subject) (Num 0))
            (of_Z (or_default (Subject.target_lessons_per_week subject) 5))
          = true.

(** The slot object [assignLesson] stores for an assignment. *)
Definition assigned_slot (a : TimetableGenerator.Assignment.t) (old : Slot) : Slot :=
  set_is_break false
    (set_teacher_id (Some (TimetableGenerator.Assignment.teacher_id a))
       (set_subject_id (Some (TimetableGenerator.Assignment.subject_id a)) old)).

(** One step of the engine, on the grid and the counters: nothing, or one
    eligible assignment stored in the grid and counted. *)
Definition engine_step (st : AppState) (E E' : TimetableGenerator.Engine) : Prop :=
  (TimetableGenerator.e_timetable E' = TimetableGenerator.e_timetable E
   /\ TimetableGenerator.e_teacherLoad E' = TimetableGenerator.e_teacherLoad E
   /\ TimetableGenerator.e_classLoad E' = TimetableGenerator.e_classLoad E
   /\ TimetableGenerator.e_subjectFrequency E'
      = TimetableGenerator.e_subjectFrequency E)
  \/ exists ls a old crow srow,
       eligible st ls (TimetableGenerator.e_timetable E)
         (TimetableGenerator.e_subjectFrequency E) a
       /\ slot_at (TimetableGenerator.e_timetable E) (address ls) = Some old
       /\ TimetableGenerator.e_classLoad E
            !! TimetableGenerator.LessonSlot.class_id ls = Some crow
       /\ TimetableGenerator.e_subjectFrequency E
            !! TimetableGenerator.LessonSlot.class_id ls = Some srow
       /\ TimetableGenerator.e_timetable E'
          = store (TimetableGenerator.LessonSlot.day ls)
              (TimetableGenerator.LessonSlot.period_id ls)
              (TimetableGenerator.LessonSlot.class_id ls)
              (assigned_slot a old) (TimetableGenerator.e_timetable E)
       /\ TimetableGenerator.e_teacherLoad E'
          = incr (TimetableGenerator.Assignment.teacher_id a)
              (TimetableGenerator.e_teacherLoad E)
       /\ TimetableGenerator.e_classLoad E'
          = <[TimetableGenerator.LessonSlot.class_id ls :=
                incr (TimetableGenerator.LessonSlot.day ls) crow]>
              (TimetableGenerator.e_classLoad E)
       /\ TimetableGenerator.e_subjectFrequency E'
          = <[TimetableGenerator.LessonSlot.class_id ls :=
                incr (TimetableGenerator.Assignment.subject_id a) srow]>
              (TimetableGenerator.e_subjectFrequency E).

(** The state the engine starts from. *)
Definition initial_engine (st : AppState) (tt : Timetable)
    (lessonSlots : list TimetableGenerator.LessonSlot.t)
  : TimetableGenerator.Engine :=
  TimetableGenerator.mkEngine lessonSlots tt
    (TimetableGenerator.initializeTeacherLoad st)
    (TimetableGenerator.initializeClassLoad st)
    (TimetableGenerator.initializeSubjectFrequency st).

(** A lesson the engine may have placed at an address: the teacher and
    the subject are a teacher and a subject of the state, the teacher
    lists the subject and the level of the class of the address, and the
    slot is no break. *)
Definition qualified (st : AppState) (a : SlotRef) (s : Slot) : Prop :=
  exists teacher subject cls,
    In teacher (teachers st) /\ In subject (subjects st)
    /\ TimetableGenerator.find_class st (ref_class a) = Some cls
    /\ teacher_id s = Some (Teacher.id teacher)
    /\ subject_id s = Some (Subject.id subject)
    /\ includes (Teacher.subjects teacher) (Subject.id subject) = true
    /\ includes (Teacher.class_levels teacher) (Cls.level cls) = true
    /\ is_break s = false.

(** The number of addresses of a list whose slot holds a subject. *)
Definition holds_subject (tt : Timetable) (sid : string) (a : SlotRef) : bool :=
  match slot_at tt a with
  | Some s => bool_decide (subject_id s = Some sid)
  | None => false
  end.

Definition lessons_of (tt : Timetable) (addrs : list SlotRef) (sid : string) : nat :=
  length (List.filter (holds_subject tt sid) addrs).

(** The counters of the engine count integers, each at least the number
    of lessons of the subject the class holds in the grid and at most the
    weekly target. *)
Definition within_targets (st : AppState) (E : TimetableGenerator.Engine) : Prop :=
  forall cls subject,
    In cls (classes st) -> In subject (subjects st) ->
    exists row k,
      TimetableGenerator.e_subjectFrequency E !! Cls.id cls = Some row
      /\ row !! Subject.id subject = Some (of_Z k)
      /\ (0 <= k
          <= Z.max 0 (or_default (Subject.target_lessons_per_week subject) 5))%Z
      /\ forall addrs,
           NoDup addrs -> (forall a, In a addrs -> ref_class a = Cls.id cls) ->
           (Z.of_nat (lessons_of (TimetableGenerator.e_timetable E) addrs
                        (Subject.id subject)) <= k)%Z.

(** The engine can run: its slot objects have the addresses [addrs], each
    the address of a slot of the grid and of a class of the state, and the
    counters have a row for every class. *)
Definition engine_ready (st : AppState) (addrs : list SlotRef)
    (E : TimetableGenerator.Engine) : Prop :=
  address <$> TimetableGenerator.e_heap E = addrs
  /\ (forall a, In a addrs ->
        is_Some (TimetableGenerator.find_class st (ref_class a))
        /\ is_Some (slot_at (TimetableGenerator.e_timetable E) a))
  /\ (forall cls, In cls (classes st) ->
        is_Some (TimetableGenerator.e_classLoad E !! Cls.id cls)
        /\ is_Some (TimetableGenerator.e_subjectFrequency E !! Cls.id cls)).

(** ** What the conflict detection reports *)

(** A booking of a conflict of teacher [t] at [(d, p)]: the slot of a
    class of the state in that period, as the grid holds it, with that
    teacher and no break flag. *)
Definition real_booking (st : AppState) (tt : Timetable) (d p t : string)
    (b : TimetableGenerator.Booking.t) : Prop :=
  (exists cls, In cls (classes st)
               /\ Cls.id cls = TimetableGenerator.Booking.classId b)
  /\ slot_at tt (mkRef d p (TimetableGenerator.Booking.classId b))
     = Some (TimetableGenerator.Booking.slot b)
  /\ teacher_id (TimetableGenerator.Booking.slot b) = Some t
  /\ is_break (TimetableGenerator.Booking.slot b) = false.

(** A conflict that is one: a teacher with a non-empty id who holds two
    or more slots of classes in a lesson period of a day of the week. *)
Definition real_conflict (st : AppState) (tt : Timetable)
    (c : TimetableGenerator.Conflict.t) : Prop :=
  TimetableGenerator.Conflict.type c = "teacher_double_booking"
  /\ In (TimetableGenerator.Conflict.day c) TimetableGenerator.this_days
  /\ (exists period, In period (periods st) /\ is_lesson period = true
                     /\ Period.id period = TimetableGenerator.Conflict.periodId c)
  /\ TimetableGenerator.Conflict.teacherId c <> ""
  /\ (2 <= length (TimetableGenerator.Conflict.assignments c))%nat
  /\ forall b, In b (TimetableGenerator.Conflict.assignments c) ->
       real_booking st tt (TimetableGenerator.Conflict.day c)
         (TimetableGenerator.Conflict.periodId c)
         (TimetableGenerator.Conflict.teacherId c) b.

(** ** Grids the generator works on *)

(** Every slot carries the address it is stored at. *)
Definition well_addressed (tt : Timetable) : Prop :=
  forall a s, slot_at tt a = Some s ->
    day s = ref_day a /\ period_id s = ref_period a /\ class_id s = ref_class a.

Definition grid_ready (st : AppState) (tt : Timetable) : Prop :=
  covers st tt /\ well_addressed tt.

(** ** What the resolver looks for *)

(** A place the lesson of [originalSlot] can move to: a lesson period
    other than the slot's own place, where the slot of its class holds no
    subject and is no break, and where no other class holds the teacher. *)
Definition vacant_for (tt : Timetable) (originalSlot : Slot) (teacherId : string)
    (d : string) (period : Period.t) : Prop :=
  is_lesson period = true
  /\ ~ (d = day originalSlot /\ Period.id period = period_id originalSlot)
  /\ exists s,
       slot_at tt (mkRef d (Period.id period) (class_id originalSlot)) = Some s
       /\ truthy (subject_id s) = false /\ is_break s = false
       /\ ~ teacher_held_elsewhere tt d (Period.id period) (Some teacherId)
            (class_id originalSlot).

(** The slot a relocation leaves behind. *)
Definition vacated (d p c : string) : Slot := mkSlot d p c None None None false.

(** The slot a relocation stores at the new place. *)
Definition relocated (d p : string) (s : Slot) : Slot :=
  mkSlot d p (class_id s) (subject_id s) (teacher_id s) (room_id s) (is_break s).

(** What the resolver needs of a conflict to work on it: a day of the
    week, the id of a period, and bookings of classes of the state whose
    slot objects name their class. *)
Definition conflict_static (st : AppState) (c : TimetableGenerator.Conflict.t) : Prop :=
  In (TimetableGenerator.Conflict.day c) TimetableGenerator.this_days
  /\ (exists period, In period (periods st)
                     /\ Period.id period = TimetableGenerator.Conflict.periodId c)
  /\ forall b, In b (TimetableGenerator.Conflict.assignments c) ->
       (exists cls, In cls (classes st)
                    /\ Cls.id cls = TimetableGenerator.Booking.classId b)
       /\ class_id (TimetableGenerator.Booking.slot b)
          = TimetableGenerator.Booking.classId b.

(** ** Bounds on numbers: [NaN] is bounded by everything *)
Definition num_le (a : num) (q : Q) : Prop :=
  match a with
  | Num x => (x <= q)%Q
  | NaN => True
  end.

Definition num_ge (a : num) (q : Q) : Prop :=
  match a with
  | Num x => (q <= x)%Q
  | NaN => True
  end.

(** ** An example school *)

(** Two lesson periods around a break, two subjects (the second without a
    weekly target), two classes of different levels and two teachers. *)
Definition state_school : AppState :=
  mkState
    [Period.mk "p1" "Period 1" "08:00" "08:40" "lesson";
     Period.mk "b1" "Break" "10:00" "10:20" "break";
     Period.mk "p2" "Period 2" "10:20" "11:00" "lesson"]
    [Subject.mk "S1" "Mathematics" 3 "high"; Subject.mk "S2" "Art" 0 "low"]
    [Cls.mk "A" "S.1" "East"; Cls.mk "B" "S.2" "West"]
    [Teacher.mk "T1" "Ada" (Some ["S1"; "S2"]) (Some ["S.1"; "S.2"]) None;
     Teacher.mk "T2" "Bob" (Some ["S2"]) (Some ["S.2"])
       (Some (Preferences.mk true))]
    (Constraints.mk 6 true)
    (Some ["Monday"; "Tuesday"]).

(** ** Checks on small grids, for the examples *)

Definition exclusive_row (row : gmap string Slot) : bool :=
  forallb (fun cs1 : string * Slot =>
    forallb (fun cs2 : string * Slot =>
      String.eqb cs1.1 cs2.1
      || match teacher_id cs1.2 with
         | Some t => negb (strict_eq (teacher_id cs2.2) (Some t))
         | None => true
         end)
      (map_to_list row))
    (map_to_list row).

Definition exclusiveb (tt : Timetable) : bool :=
  forallb (fun ddm : string * gmap string (gmap string Slot) =>
    forallb (fun prow : string * gmap string Slot => exclusive_row prow.2)
      (map_to_list ddm.2))
    (map_to_list tt).

Definition well_addressedb (tt : Timetable) : bool :=
  forallb (fun ddm : string * gmap string (gmap string Slot) =>
    forallb (fun prow : string * gmap string Slot =>
      forallb (fun cs : string * Slot =>
        String.eqb (day cs.2) ddm.1 && String.eqb (period_id cs.2) prow.1
        && String.eqb (class_id cs.2) cs.1)
        (map_to_list prow.2))
      (map_to_list ddm.2))
    (map_to_list tt).

Definition coversb (st : AppState) (tt : Timetable) : bool :=
  forallb (fun d =>
    forallb (fun p =>
      forallb (fun c =>
        bool_decide (is_Some (slot_at tt (mkRef d (Period.id p) (Cls.id c)))))
        (classes st))
      (periods st))
    TimetableGenerator.this_days.

(** The value of a call that returns. *)
Definition value_of {A} (c : completion A) (d : A) : A :=
  match c with
  | Normal a => a
  | Throw _ => d
  end.

(** The first stages of [generate] for two classes and one teacher: class
    A gets its five lessons from Monday to Friday, class B the two that
    the teacher has left. *)
Definition two_classes_fixed : Timetable :=
  value_of
    (TimetableGenerator.placeFixedElements state_two_classes
       (TimetableGenerator.initializeTimetable state_two_classes))
    ∅.

Definition two_classes_run : Timetable * list TimetableGenerator.Notification :=
  value_of
    (TimetableGenerator.assignLessons state_two_classes false two_classes_fixed
       (TimetableGenerator.createLessonSlots state_two_classes))
    (∅, []).

(** The conflict of [grid_monday_conflict]. *)
Definition monday_conflict : TimetableGenerator.Conflict.t :=
  TimetableGenerator.Conflict.mk "teacher_double_booking" "T1" "Monday" "p1"
    [TimetableGenerator.Booking.mk "A"
       (lesson "Monday" "p1" "A" (Some "S1") (Some "T1"));
     TimetableGenerator.Booking.mk "B"
       (lesson "Monday" "p1" "B" (Some "S1") (Some "T1"))].

(** What the resolver makes of that conflict. *)
Definition monday_relocated : bool * Timetable :=
  value_of
    (TimetableGenerator.resolveTeacherDoubleBooking state_two_classes
       monday_conflict grid_monday_conflict)
    (false, ∅).

(** No slot of the grid holds a subject. *)
Definition no_subjectb (tt : Timetable) : bool :=
  forallb (fun ddm : string * gmap string (gmap string Slot) =>
    forallb (fun prow : string * gmap string Slot =>
      forallb (fun cs : string * Slot => bool_decide (subject_id cs.2 = None))
        (map_to_list prow.2))
      (map_to_list ddm.2))
    (map_to_list tt).

(** The days of class A in its one period. *)
Definition week_of_A : list SlotRef :=
  map (fun d => mkRef d "p1" "A") TimetableGenerator.this_days.

(** [s] contains the character [c]. *)
Fixpoint contains (c : ascii) (s : string) : bool :=
  match s with
  | EmptyString => false
  | String c' rest => Ascii.eqb c' c || contains c rest
  end.

(** The state of [state_no_preferences] with another teacher than the
    one the grid [grid_two_lessons] names. *)
Definition state_substitute : AppState :=
  mkState
    [Period.mk "p1" "Period 1" "08:00" "08:40" "lesson";
     Period.mk "p2" "Period 2" "09:00" "09:40" "lesson"]
    []
    [Cls.mk "A" "S.1" "East"]
    [Teacher.mk "T2" "Teacher 2" (Some ["S1"]) (Some ["S.1"]) None]
    (Constraints.mk 6 false)
    (Some ["Monday"]).

(** A period whose start time is written without a colon. *)
Definition period_without_colon : Period.t :=
  Period.mk "p0" "Assembly" "0800" "08:40" "lesson".

(** The order [sortSlotsByDifficulty] puts the slots in, on the keys
    (difficulty of the level of the class, number of teachers of that
    level): the harder level first, and for one level the class with
    more teachers first. *)
Definition precedes (k1 k2 : Z * Z) : Prop :=
  (fst k2 < fst k1)%Z \/ (fst k1 = fst k2 /\ (snd k2 <= snd k1)%Z).

Definition by_difficulty (st : AppState) (h : TimetableGenerator.heap) (r1 r2 : nat)
  : Prop :=
  exists k1 k2,
    TimetableGenerator.difficulty_key st h r1 = Normal k1
    /\ TimetableGenerator.difficulty_key st h r2 = Normal k2
    /\ precedes k1 k2.

(** The first slot of class A and the first choice for it. *)
Definition slot_Monday_A : TimetableGenerator.LessonSlot.t :=
  TimetableGenerator.LessonSlot.mk "Monday" "p1" "A" false.

Definition first_choice : TimetableGenerator.Assignment.t :=
  TimetableGenerator.Assignment.mk "Monday" "p1" "A" "T1" "S1".

(** What [addMissingLessons] makes of a slot [s] at the address [a]: the
    slot was vacant and no break, in a lesson period of a day of the
    week; it gets a subject of the state and a teacher of the state who
    lists the subject and the level of the class. *)
Definition filled (st : AppState) (a : SlotRef) (s s' : Slot) : Prop :=
  truthy (subject_id s) = false /\ is_break s = false
  /\ In (ref_day a) TimetableGenerator.this_days
  /\ (exists period, In period (periods st) /\ Period.id period = ref_period a
                     /\ is_lesson period = true)
  /\ exists subject t cls,
       In subject (subjects st) /\ In t (teachers st)
       /\ includes (Teacher.subjects t) (Subject.id subject) = true
       /\ TimetableGenerator.find_class st (ref_class a) = Some cls
       /\ includes (Teacher.class_levels t) (Cls.level cls) = true
       /\ s' = set_teacher_id (Some (Teacher.id t))
                 (set_subject_id (Some (Subject.id subject)) s).

(** One lesson added to the grid: the slot at one address is filled with
    a teacher whom no other class holds in that period, the others are
    as they were. *)
Definition fill_step (st : AppState) (tt tt' : Timetable) : Prop :=
  exists a s s',
    slot_at tt a = Some s /\ filled st a s s'
    /\ ~ teacher_held_elsewhere tt (ref_day a) (ref_period a) (teacher_id s')
         (ref_class a)
    /\ forall b, slot_at tt' b = if decide (b = a) then Some s' else slot_at tt b.

(** Whether a call returns. *)
Definition returns {A} (c : completion A) : bool :=
  match c with
  | Normal _ => true
  | Throw _ => false
  end.

(** The grid of the two classes after the pass over the distribution of
    the subjects, run on the grid without lessons. *)
Definition two_classes_spread : Timetable :=
  value_of (TimetableGenerator.optimizeSubjectDistribution state_two_classes false
              two_classes_fixed) ∅.

(** The periods of [state_overlapping] with their times. *)
Definition timed_overlapping : list Timed.t :=
  [Timed.mk "p1" "Period 1" (mkTime 8 0) (mkTime 8 40) "lesson";
   Timed.mk "b1" "Break" (mkTime 8 10) (mkTime 8 20) "break";
   Timed.mk "p2" "Period 2" (mkTime 8 30) (mkTime 9 10) "lesson"].

(** Teacher T1 teaches both classes on Monday; class A is free on the
    other days, class B has a lesson of another teacher on each of them. *)
Definition grid_first_could_move : Timetable :=
  fold_left (fun g d =>
    write (mkRef d "p1" "B")
      (fun s => set_teacher_id (Some "T2") (set_subject_id (Some "S1") s)) g)
    (tail TimetableGenerator.this_days) grid_monday_conflict.

(** * Properties *)

Import TimetableGenerator.

(** ** Reading and writing the grid *)

Section grid_access.
Implicit Types (tt : Timetable) (a b : SlotRef) (s : Slot).

Lemma get_slot_at tt a s :
  slot_at tt a = Some s ->
  get_slot tt (ref_day a) (ref_period a) (ref_class a) = Normal (Some s).
Proof.
  unfold slot_at, get_slot. intros H.
  destruct (tt !! ref_day a) as [dm|]; simpl in H; [|discriminate].
  destruct (dm !! ref_period a) as [cm|]; simpl in H; [|discriminate].
  by rewrite H.
Qed.

Lemma period_row_at tt a s :
  slot_at tt a = Some s ->
  exists cm, period_row tt (ref_day a) (ref_period a) = Normal (Some cm)
             /\ cm !! ref_class a = Some s.
Proof.
  unfold slot_at, period_row. intros H.
  destruct (tt !! ref_day a) as [dm|]; simpl in H; [|discriminate].
  destruct (dm !! ref_period a) as [cm|]; simpl in H; [|discriminate].
  eauto.
Qed.

Lemma slot_at_write a b f tt :
  slot_at (write a f tt) b
  = if decide (a = b) then f <$> slot_at tt b else slot_at tt b.
Proof.
  unfold slot_at, write. destruct a as [d p c], b as [d' p' c']; simpl.
  rewrite lookup_alter.
  destruct (decide (d = d')) as [->|Hd].
  - destruct (tt !! d') as [dm|]; simpl; [|by case_decide].
    rewrite lookup_alter.
    destruct (decide (p = p')) as [->|Hp].
    + destruct (dm !! p') as [cm|]; simpl; [|by case_decide].
      rewrite lookup_alter.
      destruct (decide (c = c')) as [->|Hc].
      * by rewrite decide_True.
      * rewrite decide_False; [done|congruence].
    + rewrite decide_False; [done|congruence].
  - rewrite decide_False; [done|congruence].
Qed.

Lemma slot_at_write_eq a f tt : slot_at (write a f tt) a = f <$> slot_at tt a.
Proof. rewrite slot_at_write. by rewrite decide_True. Qed.

Lemma slot_at_write_ne a b f tt :
  a <> b -> slot_at (write a f tt) b = slot_at tt b.
Proof. intros. rewrite slot_at_write. by rewrite decide_False. Qed.

Lemma write_write a f g tt : write a f (write a g tt) = write a (f ∘ g) tt.
Proof.
  unfold write. rewrite alter_alter_eq. apply alter_ext. intros dm _.
  simpl. rewrite alter_alter_eq. apply alter_ext. intros cm _.
  simpl. by rewrite alter_alter_eq.
Qed.

(** Writing back what is already there does not change the grid. *)
Lemma write_id a f tt :
  (forall s, slot_at tt a = Some s -> f s = s) -> write a f tt = tt.
Proof.
  unfold write, slot_at. intros H.
  apply alter_id. intros dm Hdm. apply alter_id. intros cm Hcm.
  apply alter_id. intros s Hs. apply H. by rewrite Hdm; simpl; rewrite Hcm.
Qed.

Lemma write_ext a f g tt :
  (forall s, slot_at tt a = Some s -> f s = g s) -> write a f tt = write a g tt.
Proof.
  unfold write, slot_at. intros H.
  apply alter_ext. intros dm Hdm. apply alter_ext. intros cm Hcm.
  apply alter_ext. intros s Hs. apply H. by rewrite Hdm; simpl; rewrite Hcm.
Qed.
End grid_access.

Section move_facts.
Implicit Types (tt : Timetable) (from to a : SlotRef) (fs ts : Slot).

Lemma scan_false_iff (P : string * Slot -> bool) (row : gmap string Slot) :
  existsb P (map_to_list row) = true
  <-> exists c s, row !! c = Some s /\ P (c, s) = true.
Proof.
  rewrite existsb_exists. split.
  - intros [[c s] [Hin HP]]. exists c, s. split; [|done].
    apply elem_of_map_to_list. by apply list_elem_of_In.
  - intros (c & s & Hl & HP). exists (c, s). split; [|done].
    apply list_elem_of_In. by apply elem_of_map_to_list.
Qed.

Lemma isTeacherAvailableById_defined tt d p t ex dm :
  tt !! d = Some dm ->
  exists free, isTeacherAvailableById t d p tt ex = Normal free
               /\ (free = false <-> teacher_held_elsewhere tt d p t ex).
Proof.
  intros Hd. unfold isTeacherAvailableById, period_row. rewrite Hd. simpl.
  eexists; split; [reflexivity|].
  rewrite negb_false_iff, scan_false_iff. unfold teacher_held_elsewhere.
  split.
  - intros (c & s & Hl & HP).
    apply andb_true_iff in HP as [Hc Ht].
    apply negb_true_iff, String.eqb_neq in Hc.
    apply bool_decide_eq_true in Ht.
    destruct (dm !! p) as [row|] eqn:Hrow; simpl in Hl.
    + by exists dm, row, c, s.
    + by rewrite lookup_empty in Hl.
  - intros (dm' & row & c & s & Hd' & Hrow & Hl & Hc & Ht).
    rewrite Hd in Hd'. injection Hd' as <-. rewrite Hrow. simpl.
    exists c, s. split; [done|]. apply andb_true_iff. split.
    + by apply negb_true_iff, String.eqb_neq.
    + by apply bool_decide_eq_true.
Qed.

Lemma Basic_scan_agrees t d p tt ex :
  Basic.isTeacherAvailableById t d p tt ex = isTeacherAvailableById t d p tt ex.
Proof.
  unfold Basic.isTeacherAvailableById, isTeacherAvailableById.
  destruct (period_row tt d p) as [row|]; simpl; [|done].
  do 2 f_equal. induction (map_to_list (default ∅ row)) as [|[c s] l IH];
    simpl; [done|]. rewrite IH. by destruct (String.eqb c ex).
Qed.

Lemma copy_field_eval {A} (get : Slot -> A) set from to tt s :
  slot_at tt from = Some s ->
  copy_field get set from to tt = Normal (write to (set (get s)) tt).
Proof. unfold copy_field. by intros ->. Qed.

(** The six assignments of a successful move, composed. *)
Lemma move_assignments tt from to fs ts :
  slot_at tt from = Some fs -> slot_at tt to = Some ts ->
  (do tt <- copy_field subject_id set_subject_id from to tt;
   do tt <- copy_field teacher_id set_teacher_id from to tt;
   do tt <- copy_field room_id set_room_id from to tt;
   let tt := write from (set_subject_id None) tt in
   let tt := write from (set_teacher_id None) tt in
   let tt := write from (set_room_id None) tt in
   Normal (moved_ok, tt))
  = Normal (moved_ok, moved tt from to fs).
Proof.
  intros Hf Ht.
  assert (H1 : exists s1, slot_at (write to (set_subject_id (subject_id fs)) tt) from
                = Some s1 /\ teacher_id s1 = teacher_id fs
                  /\ room_id s1 = room_id fs).
  { rewrite slot_at_write. case_decide; subst; rewrite Hf; simpl; eauto. }
  destruct H1 as (s1 & Hs1 & Ht1 & Hr1).
  rewrite (copy_field_eval _ _ _ _ _ _ Hf). simpl.
  rewrite (copy_field_eval _ _ _ _ _ _ Hs1). simpl. rewrite Ht1.
  assert (H2 : exists s2,
    slot_at (write to (set_teacher_id (teacher_id fs))
               (write to (set_subject_id (subject_id fs)) tt)) from
      = Some s2 /\ room_id s2 = room_id fs).
  { rewrite slot_at_write. case_decide; subst; rewrite Hs1; simpl; eauto. }
  destruct H2 as (s2 & Hs2 & Hr2).
  rewrite (copy_field_eval _ _ _ _ _ _ Hs2). simpl. rewrite Hr2.
  unfold moved. by rewrite !write_write.
Qed.

(** [moveLesson] on two addressed slots, guard by guard. *)
Lemma moveLesson_eval tt from to fs ts :
  slot_at tt from = Some fs -> slot_at tt to = Some ts ->
  exists free,
    isTeacherAvailableById (teacher_id fs) (ref_day to) (ref_period to) tt
      (ref_class from) = Normal free
    /\ (free = false <->
         teacher_held_elsewhere tt (ref_day to) (ref_period to)
           (teacher_id fs) (ref_class from))
    /\ moveLesson tt from to =
       if is_break ts then reject "Cannot move lesson to break period" tt
       else if truthy (subject_id ts)
            then reject "Target slot is already occupied" tt
       else if negb free
            then reject "Teacher not available in target slot" tt
       else Normal (moved_ok, moved tt from to fs).
Proof.
  intros Hf Ht.
  assert (exists dm, tt !! ref_day to = Some dm) as [dm Hdm].
  { unfold slot_at in Ht. destruct (tt !! ref_day to); [eauto|discriminate]. }
  destruct (isTeacherAvailableById_defined tt (ref_day to) (ref_period to)
              (teacher_id fs) (ref_class from) dm Hdm) as (free & Hfree & Hiff).
  exists free. split; [done|]. split; [done|].
  unfold moveLesson.
  rewrite (get_slot_at _ _ _ Hf), (get_slot_at _ _ _ Ht). simpl.
  destruct (is_break ts); [done|].
  destruct (truthy (subject_id ts)); [done|].
  rewrite Hfree. simpl. destruct free; simpl; [|done].
  by apply (move_assignments tt from to fs ts).
Qed.

Lemma Basic_moveLesson_eval tt from to fs ts :
  slot_at tt from = Some fs -> slot_at tt to = Some ts ->
  exists free,
    isTeacherAvailableById (teacher_id fs) (ref_day to) (ref_period to) tt
      (ref_class from) = Normal free
    /\ (free = false <->
         teacher_held_elsewhere tt (ref_day to) (ref_period to)
           (teacher_id fs) (ref_class from))
    /\ Basic.moveLesson tt from to =
       if is_break ts || truthy (subject_id ts)
       then reject "Target slot is not available" tt
       else if negb free
            then reject "Teacher not available in target slot" tt
       else Normal (moved_ok, moved tt from to fs).
Proof.
  intros Hf Ht.
  assert (exists dm, tt !! ref_day to = Some dm) as [dm Hdm].
  { unfold slot_at in Ht. destruct (tt !! ref_day to); [eauto|discriminate]. }
  destruct (isTeacherAvailableById_defined tt (ref_day to) (ref_period to)
              (teacher_id fs) (ref_class from) dm Hdm) as (free & Hfree & Hiff).
  exists free. split; [done|]. split; [done|].
  unfold Basic.moveLesson.
  rewrite (get_slot_at _ _ _ Hf), (get_slot_at _ _ _ Ht). simpl.
  destruct (is_break ts); [done|]. simpl.
  destruct (truthy (subject_id ts)); [done|]. simpl.
  rewrite Basic_scan_agrees, Hfree. simpl. destruct free; simpl; [|done].
  by apply (move_assignments tt from to fs ts).
Qed.

Lemma cleared_populate fs ts : cleared (populate fs ts) = cleared ts.
Proof. done. Qed.

Lemma populate_cleared fs ts : populate fs (cleared ts) = populate fs ts.
Proof. done. Qed.

Lemma populate_self fs : populate fs fs = fs.
Proof. by destruct fs. Qed.

Lemma slot_at_moved_from tt from to fs ts :
  slot_at tt from = Some fs -> slot_at tt to = Some ts ->
  slot_at (moved tt from to fs) from = Some (cleared fs).
Proof.
  intros Hf Ht. unfold moved. rewrite slot_at_write_eq, slot_at_write.
  case_decide; subst; rewrite Hf; simpl; [|done].
  by rewrite populate_self.
Qed.

Lemma slot_at_moved_to tt from to fs ts :
  slot_at tt from = Some fs -> slot_at tt to = Some ts ->
  slot_at (moved tt from to fs) to
  = Some (if decide (from = to) then cleared fs else populate fs ts).
Proof.
  intros Hf Ht. unfold moved. rewrite slot_at_write.
  case_decide; subst; rewrite slot_at_write_eq, Ht; simpl; [|done].
  rewrite Hf in Ht. injection Ht as ->. by rewrite populate_self.
Qed.

Lemma slot_at_moved_other tt from to fs a :
  a <> from -> a <> to -> slot_at (moved tt from to fs) a = slot_at tt a.
Proof.
  intros. unfold moved. by rewrite !slot_at_write_ne.
Qed.
End move_facts.

(** ** The manual move: atomicity, rejection, round trip *)

Section move_claims.
Implicit Types (tt : Timetable) (from to a : SlotRef) (fs ts : Slot).

Lemma moved_atomic tt from to fs ts :
  slot_at tt from = Some fs -> slot_at tt to = Some ts ->
  atomic_outcome (if decide (from = to) then cleared fs else populate fs ts)
    (Normal (moved_ok, moved tt from to fs)) tt from to fs.
Proof.
  intros Hf Ht. right. exists (message moved_ok), (moved tt from to fs).
  split; [done|]. split; [by eapply slot_at_moved_from|].
  split; [by eapply slot_at_moved_to|].
  intros a Ha1 Ha2. by apply slot_at_moved_other.
Qed.

Lemma rejected_atomic target msg tt from to fs :
  atomic_outcome target (reject msg tt) tt from to fs.
Proof. left. by exists msg. Qed.

(** C2 (amended). A move between two addressed slots either is rejected
    and returns the grid unchanged, or succeeds, and then the source has
    subject, teacher and room [null], the target holds the subject, the
    teacher and the room the source had when the two addresses differ (and
    is the cleared source itself when they are the same address), and
    every other slot is unchanged. Both variants of [moveLesson] do so. *)
Theorem moveLesson_atomic tt from to fs ts :
  slot_at tt from = Some fs -> slot_at tt to = Some ts ->
  atomic_outcome (if decide (from = to) then cleared fs else populate fs ts)
    (moveLesson tt from to) tt from to fs
  /\ atomic_outcome (if decide (from = to) then cleared fs else populate fs ts)
       (Basic.moveLesson tt from to) tt from to fs.
Proof.
  intros Hf Ht. split.
  - destruct (moveLesson_eval tt from to fs ts Hf Ht) as (free & _ & _ & ->).
    destruct (is_break ts); [apply rejected_atomic|].
    destruct (truthy (subject_id ts)); [apply rejected_atomic|].
    destruct (negb free); [apply rejected_atomic|].
    by apply moved_atomic.
  - destruct (Basic_moveLesson_eval tt from to fs ts Hf Ht) as (free & _ & _ & ->).
    destruct (is_break ts || truthy (subject_id ts)); [apply rejected_atomic|].
    destruct (negb free); [apply rejected_atomic|].
    by apply moved_atomic.
Qed.

Lemma is_rejection_reject msg tt : is_rejection (reject msg tt).
Proof. by exists msg, tt. Qed.

Lemma not_rejection_moved tt' : ~ is_rejection (Normal (moved_ok, tt')).
Proof. intros (msg & g & H). discriminate. Qed.

Lemma rejection_unchanged msg tt :
  is_rejection (reject msg tt) ->
  exists msg', reject msg tt = Normal (mkResult false msg', tt).
Proof. intros _. by exists msg. Qed.

(** C5 (amended). A move between two addressed slots is rejected when and
    only when the target is a break slot, or the target's [subject_id] is
    truthy (neither [null] nor the empty string), or the [teacher_id] of
    the source ([null] included) is held at the target day and period by a
    class other than the source class; every rejection is a returned
    result object with a reason, and returns the grid unchanged. Both
    variants of [moveLesson] do so. *)
Theorem moveLesson_rejection tt from to fs ts :
  slot_at tt from = Some fs -> slot_at tt to = Some ts ->
  rejection_rule (fun ts => truthy (subject_id ts) = true)
    (moveLesson tt from to) tt from to fs ts
  /\ rejection_rule (fun ts => truthy (subject_id ts) = true)
       (Basic.moveLesson tt from to) tt from to fs ts.
Proof.
  intros Hf Ht. split.
  - destruct (moveLesson_eval tt from to fs ts Hf Ht) as (free & _ & Hfree & ->).
    unfold rejection_rule.
    destruct (is_break ts).
    { split; [|apply rejection_unchanged].
      split; [by left | intros; apply is_rejection_reject]. }
    destruct (truthy (subject_id ts)).
    { split; [|apply rejection_unchanged].
      split; [by right; left | intros; apply is_rejection_reject]. }
    destruct free; simpl.
    + split; [|by intros ?%not_rejection_moved].
      split; [by intros ?%not_rejection_moved|].
      intros [?|[?|H]]; [done..|]. apply Hfree in H. done.
    + split; [|apply rejection_unchanged].
      split; [|intros; apply is_rejection_reject].
      intros _. right; right. by apply Hfree.
  - destruct (Basic_moveLesson_eval tt from to fs ts Hf Ht) as (free & _ & Hfree & ->).
    unfold rejection_rule.
    destruct (is_break ts); simpl.
    { split; [|apply rejection_unchanged].
      split; [by left | intros; apply is_rejection_reject]. }
    destruct (truthy (subject_id ts)); simpl.
    { split; [|apply rejection_unchanged].
      split; [by right; left | intros; apply is_rejection_reject]. }
    destruct free; simpl.
    + split; [|by intros ?%not_rejection_moved].
      split; [by intros ?%not_rejection_moved|].
      intros [?|[?|H]]; [done..|]. apply Hfree in H. done.
    + split; [|apply rejection_unchanged].
      split; [|intros; apply is_rejection_reject].
      intros _. right; right. by apply Hfree.
Qed.

(** C10 (amended). When the source slot has a [null] teacher, some class
    other than the source class has a slot with a [null] teacher at the
    target day and period, and the target slot is neither a break slot nor
    occupied, the move is rejected with the reason that the teacher is not
    available, and the grid is unchanged. Both variants of [moveLesson] do
    so. *)
Theorem moveLesson_null_teacher tt from to fs ts :
  slot_at tt from = Some fs -> slot_at tt to = Some ts ->
  teacher_id fs = None ->
  teacher_held_elsewhere tt (ref_day to) (ref_period to) None (ref_class from) ->
  is_break ts = false -> truthy (subject_id ts) = false ->
  moveLesson tt from to = teacher_unavailable tt
  /\ Basic.moveLesson tt from to = teacher_unavailable tt.
Proof.
  intros Hf Ht Hnull Hheld Hbreak Hsub. split.
  - destruct (moveLesson_eval tt from to fs ts Hf Ht) as (free & _ & Hfree & ->).
    rewrite Hbreak, Hsub. rewrite Hnull in Hfree.
    apply Hfree in Hheld. by subst free.
  - destruct (Basic_moveLesson_eval tt from to fs ts Hf Ht) as (free & _ & Hfree & ->).
    rewrite Hbreak, Hsub. rewrite Hnull in Hfree.
    apply Hfree in Hheld. by subst free.
Qed.

Lemma moveLesson_success tt from to fs ts tt1 msg :
  slot_at tt from = Some fs -> slot_at tt to = Some ts ->
  moveLesson tt from to = Normal (mkResult true msg, tt1) ->
  tt1 = moved tt from to fs /\ is_break ts = false
  /\ truthy (subject_id ts) = false /\ msg = message moved_ok.
Proof.
  intros Hf Ht. destruct (moveLesson_eval tt from to fs ts Hf Ht) as (free & _ & _ & ->).
  destruct (is_break ts); [discriminate|].
  destruct (truthy (subject_id ts)); [discriminate|].
  destruct (negb free); [discriminate|].
  intros [= <- <-]. done.
Qed.

(** C9 (amended). After a successful move from [A] to a different address
    [B], the move from [B] back to [A] succeeds exactly when [A] is not a
    break slot and the moved [teacher_id] is then held at the day and period
    of [A] by no class other than the class of [B]. Whenever it succeeds,
    the slot at [A] is exactly what it was before the first move, the slot
    at [B] has subject, teacher and room [null] (which is what it had
    before when these three were [null]), and every other slot is as in
    the original grid. *)
Theorem move_round_trip tt A B fs ts tt1 :
  slot_at tt A = Some fs -> slot_at tt B = Some ts -> A <> B ->
  moveLesson tt A B = Normal (moved_ok, tt1) ->
  ((exists tt2, moveLesson tt1 B A = Normal (moved_ok, tt2)) <->
     is_break fs = false /\
     ~ teacher_held_elsewhere tt1 (ref_day A) (ref_period A) (teacher_id fs)
         (ref_class B))
  /\ (forall tt2, moveLesson tt1 B A = Normal (moved_ok, tt2) ->
        slot_at tt2 A = Some fs
        /\ slot_at tt2 B = Some (cleared ts)
        /\ (contents ts = (None, None, None) -> slot_at tt2 B = Some ts)
        /\ forall a, a <> A -> a <> B -> slot_at tt2 a = slot_at tt a).
Proof.
  intros HA HB Hne H1.
  destruct (moveLesson_success _ _ _ _ _ _ _ HA HB H1) as (-> & Hbrk & Hsub & _).
  assert (HA1 : slot_at (moved tt A B fs) A = Some (cleared fs))
    by (by eapply slot_at_moved_from).
  assert (HB1 : slot_at (moved tt A B fs) B = Some (populate fs ts)).
  { rewrite (slot_at_moved_to tt A B fs ts HA HB). by rewrite decide_False. }
  destruct (moveLesson_eval _ B A _ _ HB1 HA1) as (free & _ & Hfree & Heq).
  simpl in Heq, Hfree. rewrite Heq. clear Heq.
  split.
  - split.
    + intros [tt2 H2]. destruct (is_break fs); [discriminate|].
      destruct free; [|discriminate]. split; [done|].
      intros Hheld. apply Hfree in Hheld. discriminate.
    + intros [-> Hfr]. destruct free; simpl; [eauto|].
      exfalso. apply Hfr. by apply Hfree.
  - intros tt2 H2. destruct (is_break fs); [discriminate|].
    destruct (negb free); [discriminate|]. injection H2 as <-.
    assert (HA2 : slot_at (moved (moved tt A B fs) B A (populate fs ts)) A = Some fs).
    { rewrite (slot_at_moved_to _ B A _ _ HB1 HA1). rewrite decide_False; [|done].
      by destruct fs. }
    assert (HB2 : slot_at (moved (moved tt A B fs) B A (populate fs ts)) B
                  = Some (cleared ts)).
    { by rewrite (slot_at_moved_from _ B A _ _ HB1 HA1). }
    split; [done|]. split; [done|]. split.
    + intros Hc. rewrite HB2. f_equal. destruct ts; simpl in *. by injection Hc as -> -> ->.
    + intros a Ha1 Ha2. by rewrite !slot_at_moved_other.
Qed.

(** The two variants succeed on the same moves, with the same grid. *)
Lemma Basic_moveLesson_same_success tt from to fs ts tt' :
  slot_at tt from = Some fs -> slot_at tt to = Some ts ->
  Basic.moveLesson tt from to = Normal (moved_ok, tt')
  <-> moveLesson tt from to = Normal (moved_ok, tt').
Proof.
  intros Hf Ht.
  destruct (moveLesson_eval tt from to fs ts Hf Ht) as (free & Hfree & _ & ->).
  destruct (Basic_moveLesson_eval tt from to fs ts Hf Ht) as (free' & Hfree' & _ & ->).
  rewrite Hfree in Hfree'. injection Hfree' as <-.
  destruct (is_break ts); [done|].
  destruct (truthy (subject_id ts)); [done|]. simpl.
  by destruct free.
Qed.

(** The round trip of C9 for the basic variant. *)
Corollary Basic_move_round_trip tt A B fs ts tt1 :
  slot_at tt A = Some fs -> slot_at tt B = Some ts -> A <> B ->
  Basic.moveLesson tt A B = Normal (moved_ok, tt1) ->
  forall tt2, Basic.moveLesson tt1 B A = Normal (moved_ok, tt2) ->
    slot_at tt2 A = Some fs /\ slot_at tt2 B = Some (cleared ts)
    /\ forall a, a <> A -> a <> B -> slot_at tt2 a = slot_at tt a.
Proof.
  intros HA HB Hne H1 tt2 H2.
  apply (Basic_moveLesson_same_success _ _ _ _ _ _ HA HB) in H1.
  destruct (moveLesson_success _ _ _ _ _ _ _ HA HB H1) as (-> & _ & _ & _).
  assert (HA1 : slot_at (moved tt A B fs) A = Some (cleared fs))
    by (by eapply slot_at_moved_from).
  assert (HB1 : slot_at (moved tt A B fs) B = Some (populate fs ts)).
  { rewrite (slot_at_moved_to tt A B fs ts HA HB). by rewrite decide_False. }
  apply (Basic_moveLesson_same_success _ _ _ _ _ _ HB1 HA1) in H2.
  destruct (moveLesson_success _ _ _ _ _ _ _ HB1 HA1 H2) as (-> & _ & _ & _).
  split.
  { rewrite (slot_at_moved_to _ B A _ _ HB1 HA1). rewrite decide_False; [|done].
    by destruct fs. }
  split.
  { by rewrite (slot_at_moved_from _ B A _ _ HB1 HA1). }
  intros a Ha1 Ha2. by rewrite !slot_at_moved_other.
Qed.

End move_claims.

(** ** The manual move on concrete grids *)

Lemma Normal_pair_inv {A B} (a a' : A) (b b' : B) :
  Normal (a, b) = Normal (a', b') -> a = a' /\ b = b'.
Proof. by intros [= -> ->]. Qed.

Lemma moveLesson_atomic_witness :
  atomic_outcome (populate (lesson "Monday" "p1" "A" (Some "S1") (Some "T1"))
                    (lesson "Monday" "p2" "A" None None))
    (moveLesson grid_one_lesson at_Mon_p1_A at_Mon_p2_A)
    grid_one_lesson at_Mon_p1_A at_Mon_p2_A
    (lesson "Monday" "p1" "A" (Some "S1") (Some "T1")).
Proof.
  exact (proj1 (moveLesson_atomic grid_one_lesson at_Mon_p1_A at_Mon_p2_A
                  (lesson "Monday" "p1" "A" (Some "S1") (Some "T1"))
                  (lesson "Monday" "p2" "A" None None) eq_refl eq_refl)).
Defined.

(** C2 as stated fails when source and target are the same address: the
    slot is cleared, and so does not hold the teacher it had. *)
Lemma same_slot_move_clears :
  slot_at grid_teacher_only at_Mon_p1_A = Some teacher_only
  /\ ~ atomic_outcome (populate teacher_only teacher_only)
         (moveLesson grid_teacher_only at_Mon_p1_A at_Mon_p1_A)
         grid_teacher_only at_Mon_p1_A at_Mon_p1_A teacher_only.
Proof.
  split; [reflexivity|].
  assert (E : moveLesson grid_teacher_only at_Mon_p1_A at_Mon_p1_A
              = Normal (moved_ok, write at_Mon_p1_A cleared grid_teacher_only))
    by (vm_compute; reflexivity).
  rewrite E. intros [[msg H]|(msg & tt' & H & _ & H2 & _)].
  - discriminate.
  - apply Normal_pair_inv in H as [_ <-]. vm_compute in H2. discriminate.
Qed.

Lemma moveLesson_rejection_witness :
  rejection_rule (fun ts => truthy (subject_id ts) = true)
    (moveLesson grid_with_break at_Mon_p1_A at_Mon_break_A)
    grid_with_break at_Mon_p1_A at_Mon_break_A
    (lesson "Monday" "p1" "A" None None) (break_slot "Monday" "break" "A").
Proof.
  exact (proj1 (moveLesson_rejection grid_with_break at_Mon_p1_A at_Mon_break_A
                  (lesson "Monday" "p1" "A" None None)
                  (break_slot "Monday" "break" "A") eq_refl eq_refl)).
Defined.

(** C5 as stated fails on a target whose [subject_id] is the empty
    string: it is not [null], and the move is not rejected. *)
Lemma empty_string_subject_not_rejected :
  slot_at grid_empty_string at_Mon_p1_A
    = Some (lesson "Monday" "p1" "A" (Some "S1") (Some "T1"))
  /\ slot_at grid_empty_string at_Mon_p2_A
       = Some (lesson "Monday" "p2" "A" (Some "") None)
  /\ ~ rejection_rule (fun ts => subject_id ts <> None)
         (moveLesson grid_empty_string at_Mon_p1_A at_Mon_p2_A)
         grid_empty_string at_Mon_p1_A at_Mon_p2_A
         (lesson "Monday" "p1" "A" (Some "S1") (Some "T1"))
         (lesson "Monday" "p2" "A" (Some "") None).
Proof.
  split; [reflexivity|]. split; [reflexivity|].
  intros [Hiff _].
  assert (Hrej : is_rejection (moveLesson grid_empty_string at_Mon_p1_A at_Mon_p2_A)).
  { apply Hiff. right; left. discriminate. }
  destruct Hrej as (msg & tt' & H). vm_compute in H. discriminate.
Qed.

Lemma held_elsewhere_intro tt d p t ex dm row c s :
  tt !! d = Some dm -> dm !! p = Some row -> row !! c = Some s ->
  c <> ex -> teacher_id s = t -> teacher_held_elsewhere tt d p t ex.
Proof. intros. by exists dm, row, c, s. Qed.

Lemma moveLesson_null_teacher_witness :
  moveLesson grid_two_empty at_Mon_p1_A at_Mon_p2_A
    = teacher_unavailable grid_two_empty.
Proof.
  refine (proj1 (moveLesson_null_teacher grid_two_empty at_Mon_p1_A at_Mon_p2_A
                   (lesson "Monday" "p1" "A" None None)
                   (lesson "Monday" "p2" "A" None None)
                   eq_refl eq_refl eq_refl _ eq_refl eq_refl)).
  eapply (held_elsewhere_intro _ _ _ _ _ _ _ "B"
            (lesson "Monday" "p2" "B" None None)); [reflexivity..| |reflexivity].
  discriminate.
Defined.

(** C10 as stated fails when the target is a break slot: the move is
    rejected, with the reason of the break guard, which comes first. *)
Lemma null_teacher_break_target :
  slot_at grid_with_break at_Mon_p1_A = Some (lesson "Monday" "p1" "A" None None)
  /\ slot_at grid_with_break at_Mon_break_A = Some (break_slot "Monday" "break" "A")
  /\ teacher_held_elsewhere grid_with_break "Monday" "break" None "A"
  /\ moveLesson grid_with_break at_Mon_p1_A at_Mon_break_A
     = Normal (mkResult false "Cannot move lesson to break period", grid_with_break)
  /\ moveLesson grid_with_break at_Mon_p1_A at_Mon_break_A
     <> teacher_unavailable grid_with_break.
Proof.
  split; [reflexivity|]. split; [reflexivity|]. split.
  { eapply (held_elsewhere_intro _ _ _ _ _ _ _ "B"
              (break_slot "Monday" "break" "B")); [reflexivity..| |reflexivity].
    discriminate. }
  assert (E : moveLesson grid_with_break at_Mon_p1_A at_Mon_break_A
     = Normal (mkResult false "Cannot move lesson to break period", grid_with_break))
    by (vm_compute; reflexivity).
  split; [exact E|]. rewrite E. unfold teacher_unavailable.
  intros H. apply Normal_pair_inv in H as [H _]. discriminate.
Qed.

Lemma move_round_trip_witness :
  (exists tt2, moveLesson (moved grid_one_lesson at_Mon_p1_A at_Mon_p2_A
                             (lesson "Monday" "p1" "A" (Some "S1") (Some "T1")))
                 at_Mon_p2_A at_Mon_p1_A = Normal (moved_ok, tt2))
  <-> is_break (lesson "Monday" "p1" "A" (Some "S1") (Some "T1")) = false
      /\ ~ teacher_held_elsewhere
             (moved grid_one_lesson at_Mon_p1_A at_Mon_p2_A
                (lesson "Monday" "p1" "A" (Some "S1") (Some "T1")))
             "Monday" "p1" (Some "T1") "A".
Proof.
  refine (proj1 (move_round_trip grid_one_lesson at_Mon_p1_A at_Mon_p2_A
                   (lesson "Monday" "p1" "A" (Some "S1") (Some "T1"))
                   (lesson "Monday" "p2" "A" None None) _
                   eq_refl eq_refl _ _)).
  - discriminate.
  - vm_compute. reflexivity.
Defined.

(** C9 as stated fails on a grid where the moved teacher is also booked
    for another class in the source period: the lesson moves away, and the
    move back is rejected by the guard on teacher availability. It also
    fails on a grid without any double booking: an empty slot of class A
    moves from period 1 to period 2, and the move back is rejected because
    class B has an empty slot in period 1, whose [null] teacher equals the
    [null] teacher of the source. *)
Lemma round_trip_rejected :
  ~ round_trip_as_stated grid_double_booked at_Mon_p1_A at_Tue_p1_A
  /\ ~ round_trip_as_stated grid_empty_source at_Mon_p1_A at_Mon_p2_A.
Proof.
  split; intros H.
  - destruct (H (lesson "Monday" "p1" "A" (Some "S1") (Some "T1"))
                (lesson "Tuesday" "p1" "A" None None)
                (moved grid_double_booked at_Mon_p1_A at_Tue_p1_A
                   (lesson "Monday" "p1" "A" (Some "S1") (Some "T1")))
                (message moved_ok) eq_refl eq_refl)
      as (msg2 & tt2 & H2 & _).
    + vm_compute. reflexivity.
    + vm_compute in H2. discriminate.
  - destruct (H (lesson "Monday" "p1" "A" None None)
                (lesson "Monday" "p2" "A" None None)
                (moved grid_empty_source at_Mon_p1_A at_Mon_p2_A
                   (lesson "Monday" "p1" "A" None None))
                (message moved_ok) eq_refl eq_refl)
      as (msg2 & tt2 & H2 & _).
    + vm_compute. reflexivity.
    + vm_compute in H2. discriminate.
Qed.

(** The round trip also loses what a target without subject held: a room
    booked for it is [null] after the lesson has come and gone. *)
Lemma round_trip_clears_room :
  exists tt1 tt2,
    moveLesson grid_room_booked at_Mon_p1_A at_Mon_p2_A = Normal (moved_ok, tt1)
    /\ moveLesson tt1 at_Mon_p2_A at_Mon_p1_A = Normal (moved_ok, tt2)
    /\ slot_at tt2 at_Mon_p1_A = slot_at grid_room_booked at_Mon_p1_A
    /\ slot_at grid_room_booked at_Mon_p2_A = Some room_only
    /\ slot_at tt2 at_Mon_p2_A = Some (cleared room_only)
    /\ cleared room_only <> room_only.
Proof.
  eexists _, _. split; [vm_compute; reflexivity|].
  split; [vm_compute; reflexivity|].
  repeat split; try (vm_compute; reflexivity). discriminate.
Qed.

(** With an occupied target the reason is that of the occupancy guard. *)
Lemma null_teacher_occupied_target :
  teacher_held_elsewhere grid_occupied_target "Monday" "p2" None "A"
  /\ moveLesson grid_occupied_target at_Mon_p1_A at_Mon_p2_A
     = Normal (mkResult false "Target slot is already occupied",
               grid_occupied_target)
  /\ Basic.moveLesson grid_occupied_target at_Mon_p1_A at_Mon_p2_A
     = Normal (mkResult false "Target slot is not available",
               grid_occupied_target).
Proof.
  split.
  { eapply (held_elsewhere_intro _ _ _ _ _ _ _ "B"
              (lesson "Monday" "p2" "B" None None)); [reflexivity..| |reflexivity].
    discriminate. }
  split; vm_compute; reflexivity.
Qed.

(** ** The feasibility validator: overlapping periods *)

Section index_loops.
Context {A B : Type}.
Implicit Types (l : list A) (f : A -> A -> list B).

Lemma flat_map_map_shift (g : nat -> list B) (l : list nat) :
  flat_map g (map S l) = flat_map (fun i => g (S i)) l.
Proof. induction l as [|i l IH]; simpl; [done|]. by rewrite IH. Qed.

(** A loop over the indices of a list is a loop over its elements. *)
Lemma flat_map_indices (g : A -> list B) l :
  flat_map (fun j => match l !! j with Some y => g y | None => [] end)
    (seq 0 (length l))
  = flat_map g l.
Proof.
  induction l as [|x l IH]; simpl; [done|].
  rewrite <- seq_shift, flat_map_map_shift. simpl. by rewrite IH.
Qed.

(** The loops [for i] and [for j = i + 1] visit the ordered pairs. *)
Lemma nested_index_loops f l :
  flat_map (fun i =>
    flat_map (fun j =>
      match l !! i, l !! j with
      | Some x, Some y => f x y
      | _, _ => []
      end)
      (seq (S i) (length l - S i)))
    (seq 0 (length l))
  = flat_map (fun xy => f (fst xy) (snd xy)) (ordered_pairs l).
Proof.
  induction l as [|x l IH]; [done|].
  cbn [length seq flat_map ordered_pairs]. rewrite flat_map_app. f_equal.
  - replace (S (length l) - 1)%nat with (length l) by lia.
    rewrite <- seq_shift, flat_map_map_shift. simpl.
    rewrite flat_map_indices.
    clear IH. induction l as [|y l' IH']; simpl; [done|]. by rewrite IH'.
  - rewrite <- IH, <- seq_shift, flat_map_map_shift.
    apply flat_map_ext. intros i.
    replace (S (length l) - S (S i))%nat with (length l - S i)%nat by lia.
    rewrite <- seq_shift, flat_map_map_shift. done.
Qed.

Lemma flat_map_filter_map {C} (test : C -> bool) (msg : C -> B) (l : list C) :
  flat_map (fun c => if test c then [msg c] else []) l
  = map msg (List.filter test l).
Proof.
  induction l as [|c l IH]; simpl; [done|].
  destruct (test c); simpl; by rewrite IH.
Qed.
End index_loops.

(** The conversion on times of the usual forms. *)
Example timeToMinutes_examples :
  ConstraintManager.timeToMinutes decimal_Number "08:30" = Num 510
  /\ ConstraintManager.timeToMinutes decimal_Number "13:05:00" = Num 785
  /\ ConstraintManager.timeToMinutes decimal_Number "8" = NaN.
Proof. repeat split; vm_compute; reflexivity. Qed.


(** ** The soft-score calculator *)

Section sums.
Context {A : Type}.
Implicit Types (g : A -> completion Z) (l : list A).

Lemma cfold_add g l (a : Z) :
  cfold (fun total x => do v <- g x; Normal (total + v)%Z) l a
  = do s <- csum g l; Normal (a + s)%Z.
Proof.
  unfold csum. revert a. induction l as [|x l IH]; intros a; simpl.
  - f_equal. lia.
  - destruct (g x) as [v|e]; simpl; [|done].
    rewrite (IH (a + v)%Z), (IH (0 + v)%Z).
    destruct (cfold _ l 0%Z) as [s|e]; simpl; [|done]. f_equal. lia.
Qed.

Lemma cfold_ext {B} (f f' : B -> A -> completion B) l (b : B) :
  (forall b x, f b x = f' b x) -> cfold f l b = cfold f' l b.
Proof.
  intros H. revert b. induction l as [|x l IH]; intros b; simpl; [done|].
  rewrite H. destruct (f' b x); simpl; [apply IH|done].
Qed.

Lemma csum_ext g g' l : (forall x, g x = g' x) -> csum g l = csum g' l.
Proof. intros H. apply cfold_ext. intros b x. by rewrite H. Qed.

Lemma cfold_scale g l (k a : Z) :
  cfold (fun total x => do v' <- (do v <- g x; Normal (v * k)%Z);
                        Normal (total + v')%Z) l (a * k)%Z
  = do s <- cfold (fun total x => do v <- g x; Normal (total + v)%Z) l a;
    Normal (s * k)%Z.
Proof.
  revert a. induction l as [|x l IH]; intros a; simpl; [done|].
  destruct (g x) as [v|e]; simpl; [|done].
  replace (a * k + v * k)%Z with ((a + v) * k)%Z by lia. apply IH.
Qed.

Lemma csum_scale g l (k : Z) :
  csum (fun x => do v <- g x; Normal (v * k)%Z) l
  = do s <- csum g l; Normal (s * k)%Z.
Proof. unfold csum. by rewrite <- cfold_scale. Qed.
End sums.

Section preference_penalty.
Variables (st : AppState) (tt : Timetable).

(** The loop over the days adds five times the daily excess. *)
Lemma daily_loop_adds (teacherId : string) (penalty : Z) :
  (do ds <- ConstraintManager.appState_days st;
   cfold (fun penalty d =>
     do dailyLessons <- ConstraintManager.countTeacherDailyLessons st teacherId d tt;
     Normal (if (dailyLessons >? Constraints.max_daily_lessons (constraints st))%Z
             then (penalty + (dailyLessons
                              - Constraints.max_daily_lessons (constraints st)) * 5)%Z
             else penalty))
     ds penalty)
  = do excess <- daily_excess st tt teacherId; Normal (penalty + excess * 5)%Z.
Proof.
  unfold daily_excess.
  generalize (Constraints.max_daily_lessons (constraints st)). intros limit.
  destruct (ConstraintManager.appState_days st) as [ds|e]; simpl; [|done].
  rewrite <- (cfold_ext (fun penalty d =>
    do v <- (do n <- ConstraintManager.countTeacherDailyLessons st teacherId d tt;
             Normal (Z.max 0 (n - limit) * 5)%Z);
    Normal (penalty + v)%Z)).
  - rewrite cfold_add.
    rewrite <- (csum_ext (fun d =>
      do v <- (do n <- ConstraintManager.countTeacherDailyLessons st teacherId d tt;
               Normal (Z.max 0 (n - limit))%Z);
      Normal (v * 5)%Z)).
    + rewrite csum_scale.
      by destruct (csum _ ds).
    + intros d.
      by destruct (ConstraintManager.countTeacherDailyLessons st teacherId d tt).
  - intros p d.
    destruct (ConstraintManager.countTeacherDailyLessons st teacherId d tt) as [n|e];
      simpl; [|done].
    f_equal. destruct (Z.gtb_spec n limit); lia.
Qed.

Lemma penalty_is_sum :
  ConstraintManager.calculateTeacherPreferencePenalty st tt
  = csum (teacher_penalty st tt) (teachers st).
Proof.
  unfold ConstraintManager.calculateTeacherPreferencePenalty, csum.
  apply cfold_ext. intros penalty teacher.
  unfold teacher_penalty, wants_morning, has_preferences.
  destruct (Teacher.preferences teacher) as [prefs|]; simpl.
  - destruct (Preferences.morning_preference prefs); simpl.
    + destruct (ConstraintManager.countAfternoonLessons st (Teacher.id teacher) tt)
        as [n|e]; simpl; [|done].
      rewrite daily_loop_adds.
      destruct (daily_excess st tt (Teacher.id teacher)); simpl; [|done].
      f_equal. lia.
    + rewrite daily_loop_adds.
      destruct (daily_excess st tt (Teacher.id teacher)); simpl; [|done].
      f_equal.
  - f_equal. lia.
Qed.

End preference_penalty.

(** C6. When the frequency, preference and imbalance penalties of a grid
    are all zero, the calculator returns 1050: the running score 1000
    exceeds 950, the bonus of 50 is added, and nothing caps the result. *)
Theorem zero_penalties_score_1050 st tt :
  ConstraintManager.calculateSubjectFrequencyPenalty st tt = Normal 0%Z ->
  ConstraintManager.calculateTeacherPreferencePenalty st tt = Normal 0%Z ->
  ConstraintManager.calculateWorkloadImbalancePenalty st tt = Normal (Num 0) ->
  ConstraintManager.calculateSoftConstraintScores st tt = Normal (Num 1050).
Proof.
  intros Hf Hp Hw. unfold ConstraintManager.calculateSoftConstraintScores.
  rewrite Hf, Hp, Hw. reflexivity.
Qed.

Lemma zero_penalties_score_1050_witness :
  ConstraintManager.calculateSoftConstraintScores state_on_target grid_two_lessons
  = Normal (Num 1050).
Proof.
  apply (zero_penalties_score_1050 state_on_target grid_two_lessons);
    vm_compute; reflexivity.
Defined.

(** On a state without the field [days], which is how the application
    builds it, no penalty of imbalance is computed: the calculator throws
    on every grid. *)
Lemma soft_score_needs_days st tt :
  days st = None ->
  exists e, ConstraintManager.calculateSoftConstraintScores st tt = Throw e.
Proof.
  intros Hdays. unfold ConstraintManager.calculateSoftConstraintScores.
  destruct (ConstraintManager.calculateSubjectFrequencyPenalty st tt);
    cbn [cbind]; [|eauto].
  destruct (ConstraintManager.calculateTeacherPreferencePenalty st tt);
    cbn [cbind]; [|eauto].
  unfold ConstraintManager.calculateWorkloadImbalancePenalty,
    ConstraintManager.calculateTeacherLoads, ConstraintManager.appState_days.
  rewrite Hdays. cbn [cbind]. eauto.
Qed.


(** ** The assignment engine *)

(** The score of a candidate, when the two loads are defined: the period
    of the slot plays no part in it. *)
Lemma calculateAssignmentScore_formula st teacher subject teacherLoad classLoad
    classId d row :
  classLoad !! classId = Some row ->
  calculateAssignmentScore st teacher subject teacherLoad classLoad classId d
  = Normal (max0
      (let score :=
         nadd (nsub (nsub (Num 100)
                       (nmul (num_prop teacherLoad (Teacher.id teacher)) (Num 2)))
                 (nmul (num_prop row d) (Num (3 # 2))))
           (priorityWeight (Subject.priority subject)) in
       if Constraints.prefer_morning (constraints st)
          && String.eqb (Subject.priority subject) "high"
       then nadd score (Num 5) else score)).
Proof. intros H. unfold calculateAssignmentScore, nested_row. by rewrite H. Qed.

Lemma nadd_zero (a b : num) : nadd (nadd a b) (Num 0) = nadd a b.
Proof.
  destruct a as [|x], b as [|y]; simpl; try done.
  f_equal. apply Qred_complete. rewrite Qplus_0_r. apply Qred_correct.
Qed.

(** For a period of the morning the score is the one the specification
    gives; the score of the code is the same for every other period. *)
Lemma score_agrees_in_the_morning st teacher subject teacherLoad classLoad
    classId d row period :
  classLoad !! classId = Some row ->
  Basic.isMorningPeriod period = true ->
  calculateAssignmentScore st teacher subject teacherLoad classLoad classId d
  = Normal (claimed_score st (num_prop teacherLoad (Teacher.id teacher))
              (num_prop row d) subject period).
Proof.
  intros Hrow Hmorning.
  rewrite (calculateAssignmentScore_formula _ _ _ _ _ _ _ _ Hrow).
  unfold claimed_score. rewrite Hmorning, andb_true_r. cbv zeta.
  change (priorityBonus (Subject.priority subject))
    with (priorityWeight (Subject.priority subject)).
  destruct (Constraints.prefer_morning (constraints st)
            && String.eqb (Subject.priority subject) "high"); [done|].
  by rewrite nadd_zero.
Qed.

(** C3 (the code departs from the claim). For a high-priority subject
    with [prefer_morning] set and a slot in a period that starts at 14:00,
    the engine scores the candidate 115, where the formula of the
    specification gives 110: the bonus of 5 is added whatever the period. *)
Theorem morning_bonus_in_the_afternoon :
  Basic.isMorningPeriod afternoon_period = false
  /\ calculateAssignmentScore state_afternoon teacher_one mathematics
       (initializeTeacherLoad state_afternoon) (initializeClassLoad state_afternoon)
       "A" "Monday" = Normal (Num 115)
  /\ claimed_score state_afternoon (Num 0) (Num 0) mathematics afternoon_period
     = Num 110
  /\ findBestAssignment state_afternoon (LessonSlot.mk "Monday" "p7" "A" false)
       (initializeTimetable state_afternoon)
       (initializeTeacherLoad state_afternoon) (initializeClassLoad state_afternoon)
       (initializeSubjectFrequency state_afternoon)
     = Normal (Some (Assignment.mk "Monday" "p7" "A" "T1" "S1")).
Proof. repeat split; vm_compute; reflexivity. Qed.

(** The call of [reduce] on the object of loads throws in every run. *)
Lemma balanceTeacherWorkload_throws st tt :
  exists e, balanceTeacherWorkload st false tt = Throw e.
Proof.
  unfold balanceTeacherWorkload.
  destruct (calculateTeacherLoads st tt) as [loads|e]; simpl; eauto.
Qed.

Lemma optimizeTimetable_throws st tt :
  exists e, optimizeTimetable st false tt = Throw e.
Proof.
  unfold optimizeTimetable.
  destruct (resolveConflicts st false tt) as [r|e]; cbn [cbind]; [|eauto].
  destruct (balanceTeacherWorkload_throws st (snd r)) as [e ->]. cbn [cbind]. eauto.
Qed.

(** C4 (the code departs from the claim). On a state with one period, one
    subject, one class and one teacher who can teach no level, the seven
    lesson slots of the week stay unassigned; [generate] shows the warning
    with the count 7 and then throws a [TypeError] instead of returning
    the grid. No run of [generate] returns a grid: each ends in a throw. *)
Theorem generate_throws_after_warning :
  generate state_unstaffed idle
  = (Throw (TypeError "teacherLoads.reduce is not a function"),
     mkGen false false
       [notify "7 lessons could not be assigned. Consider adjusting constraints."
               "warning"])
  /\ forall st S, exists e S', generate st S = (Throw e, S').
Proof.
  split; [vm_compute; reflexivity|].
  intros st S. unfold generate. cbv zeta.
  destruct (isGenerating S); [eauto|].
  destruct (validateData st) as [valid shown].
  destruct valid; cbv beta iota delta [negb]; [|eauto].
  destruct (placeFixedElements st (initializeTimetable st)) as [timetable|e]; [|eauto].
  destruct (assignLessons st false timetable (createLessonSlots st))
    as [[timetable' shown']|e]; [|eauto].
  destruct (optimizeTimetable_throws st timetable') as [e ->]. eauto.
Qed.

(** ** The conflict resolver *)

Section objects.
Context {V : Type}.
Implicit Types (o : list (string * V)) (k : string).

Lemma obj_get_set k v o k' :
  obj_get (obj_set k v o) k' = if String.eqb k k' then Some v else obj_get o k'.
Proof.
  unfold obj_get. induction o as [|[k0 v0] o IH]; simpl.
  - by destruct (String.eqb k k').
  - destruct (String.eqb_spec k0 k) as [->|Hk0]; simpl.
    + by destruct (String.eqb k k').
    + destruct (String.eqb_spec k0 k') as [->|Hk0']; simpl.
      * apply String.eqb_neq in Hk0. rewrite String.eqb_sym in Hk0. by rewrite Hk0.
      * exact IH.
Qed.

Lemma obj_get_In k v o : obj_get o k = Some v -> In k (map fst o).
Proof.
  unfold obj_get. induction o as [|[k0 v0] o IH]; simpl; [done|].
  destruct (String.eqb_spec k0 k) as [->|]; simpl; auto.
Qed.

Lemma insert_sorted_In {A} (after : A -> A -> bool) (x y : A) (l : list A) :
  In y (insert_sorted after x l) <-> y = x \/ In y l.
Proof.
  induction l as [|z l IH]; simpl; [intuition|].
  destruct (after z x); simpl; [intuition|]. rewrite IH. intuition.
Qed.

Lemma stable_sort_In {A} (after : A -> A -> bool) (y : A) (l : list A) :
  In y (stable_sort after l) <-> In y l.
Proof.
  unfold stable_sort.
  assert (H : forall acc, In y (fold_left (fun sorted x => insert_sorted after x sorted) l acc)
                          <-> In y l \/ In y acc).
  { induction l as [|x l IH]; intros acc; simpl; [intuition|].
    rewrite IH, insert_sorted_In. intuition. }
  rewrite H. simpl. intuition.
Qed.

(** Every key of an object is among its enumerated keys. *)
Lemma own_keys_complete k v o : obj_get o k = Some v -> In k (own_keys o).
Proof.
  intros H%obj_get_In. unfold own_keys. apply in_or_app.
  destruct (array_index k) as [z|] eqn:Hz.
  - left. apply in_map_iff. exists (z, k). split; [done|].
    apply stable_sort_In. apply list_elem_of_In, list_elem_of_omap.
    apply in_map_iff in H as ([k0 v0] & <- & Hin).
    exists (k0, v0). split; [by apply list_elem_of_In|]. simpl in Hz |- *. by rewrite Hz.
  - right. apply list_elem_of_In, list_elem_of_filter. split; [done|].
    by apply list_elem_of_In.
Qed.
End objects.

Section collecting_loops.
Context {A B : Type}.
Implicit Types (F : list B -> A -> completion (list B)) (G : A -> completion (list B)).

(** A loop that appends to an array what each step finds. *)
Lemma cfold_app F G (l : list A) (acc : list B) :
  (forall acc x, F acc x = do v <- G x; Normal (acc ++ v)%list) ->
  cfold F l acc = do vs <- cfold F l []; Normal (acc ++ vs)%list.
Proof.
  intros HF. revert acc. induction l as [|x l IH]; intros acc; simpl.
  - by rewrite app_nil_r.
  - rewrite !HF. destruct (G x) as [v|e]; simpl; [|done].
    rewrite (IH (acc ++ v)%list), (IH v).
    destruct (cfold F l []) as [vs|e]; simpl; [|done].
    by rewrite app_assoc.
Qed.

Lemma cfold_nil_all F G (l : list A) :
  (forall acc x, F acc x = do v <- G x; Normal (acc ++ v)%list) ->
  cfold F l [] = Normal [] -> forall x, In x l -> G x = Normal [].
Proof.
  intros HF. induction l as [|x l IH]; simpl; [done|].
  rewrite HF. destruct (G x) as [v|e] eqn:HG; simpl; [|done].
  rewrite (cfold_app F G l v HF).
  destruct (cfold F l []) as [vs|e] eqn:Hl; simpl; [|done].
  intros [= Hnil]. apply app_eq_nil in Hnil as [-> ->].
  intros y [<-|Hy]; [done|]. by apply IH.
Qed.
End collecting_loops.

Lemma get_slot_Some tt d p c s :
  get_slot tt d p c = Normal (Some s) -> slot_at tt (mkRef d p c) = Some s.
Proof.
  unfold get_slot, slot_at. simpl.
  destruct (tt !! d) as [dm|]; simpl; [|done].
  destruct (dm !! p) as [cm|]; simpl; [|done]. by intros [= ->].
Qed.

Lemma filter_two {A} (f : A -> bool) (l : list A) (x y : A) :
  In x l -> In y l -> x <> y -> f x = true -> f y = true ->
  (2 <= length (List.filter f l))%nat.
Proof.
  assert (H1 : forall l z, In z l -> f z = true -> (1 <= length (List.filter f l))%nat).
  { clear. intros l z. induction l as [|a l IH]; simpl; [done|].
    intros [->|Hin] Hz.
    - rewrite Hz. simpl. lia.
    - destruct (f a); simpl; [lia|auto]. }
  induction l as [|a l IH]; simpl; [done|].
  intros [->|Hx] [->|Hy] Hne Hfx Hfy.
  - done.
  - rewrite Hfx. simpl. pose proof (H1 l y Hy Hfy). lia.
  - rewrite Hfy. simpl. pose proof (H1 l x Hx Hfx). lia.
  - destruct (f a); simpl; [|auto]. pose proof (IH Hx Hy Hne Hfx Hfy). lia.
Qed.

Section detection.
Variables (st : AppState) (tt : Timetable).

(** The bookings [findAllConflicts] groups under a teacher are the
    classes whose slot holds that teacher. *)
Lemma teacherAssignments_count (d p t : string) (l : list Cls.t)
    (acc ta : list (string * list Booking.t)) :
  cfold (fun teacherAssignments cls =>
    do slot <- get_slot tt d p (Cls.id cls);
    do slot <- field slot id;
    match teacher_id slot with
    | Some teacherId =>
        if truthy (teacher_id slot) && negb (is_break slot)
        then Normal (obj_push teacherId (Booking.mk (Cls.id cls) slot)
                       teacherAssignments)
        else Normal teacherAssignments
    | None => Normal teacherAssignments
    end) l acc = Normal ta ->
  length (bookings_of ta t)
  = (length (bookings_of acc t) + length (List.filter (booked_by tt d p t) l))%nat.
Proof.
  revert acc. induction l as [|cls l IH]; intros acc; cbn -[booked_by].
  - intros [= ->]. lia.
  - destruct (get_slot tt d p (Cls.id cls)) as [[s|]|e] eqn:Hs;
      cbn -[booked_by]; [|done..].
    apply get_slot_Some in Hs.
    assert (Hq : booked_by tt d p t cls
                 = bool_decide (teacher_id s = Some t) && truthy (teacher_id s)
                   && negb (is_break s))
      by (unfold booked_by; by rewrite Hs).
    rewrite Hq. clear Hq.
    destruct (teacher_id s) as [t'|] eqn:Ht'; cbn -[booked_by].
    + destruct (negb (String.eqb t' "") && negb (is_break s)) eqn:Hq.
      * intros H. rewrite (IH _ H). unfold bookings_of, obj_push.
        rewrite obj_get_set.
        destruct (String.eqb_spec t' t) as [->|Hne].
        -- rewrite bool_decide_eq_true_2 by done. cbn -[booked_by].
           rewrite Hq. cbn -[booked_by]. rewrite length_app. simpl. lia.
        -- rewrite bool_decide_eq_false_2 by congruence. cbn -[booked_by]. lia.
      * intros H. rewrite (IH _ H).
        rewrite <- andb_assoc. rewrite Hq.
        rewrite andb_false_r. cbn -[booked_by]. lia.
    + intros H. rewrite (IH _ H). rewrite bool_decide_eq_false_2 by done.
      cbn -[booked_by]. lia.
Qed.

Lemma conflicts_of_nil (d p t : string) (ta : list (string * list Booking.t)) :
  conflicts_of d p ta = [] -> (length (bookings_of ta t) <= 1)%nat.
Proof.
  intros H. unfold bookings_of.
  destruct (obj_get ta t) as [v|] eqn:Hv; simpl; [|lia].
  pose proof (own_keys_complete _ _ _ Hv) as Hin.
  unfold conflicts_of in H.
  destruct (Nat.ltb_spec 1 (length v)) as [Hlt|]; [|done].
  exfalso. revert H Hin. induction (own_keys ta) as [|k ks IH]; simpl; [done|].
  intros Happ [->|Hin].
  - rewrite Hv in Happ. simpl in Happ.
    apply Nat.ltb_lt in Hlt. rewrite Hlt in Happ. discriminate.
  - apply app_eq_nil in Happ as [_ Happ]. by apply IH.
Qed.

(** No conflict detected: exclusivity over what the scan covers. *)
Lemma findAllConflicts_nil :
  findAllConflicts st tt = Normal [] -> teacher_exclusive st tt.
Proof.
  intros Hnil d period cls1 cls2 s1 s2 t Hd Hp Hlesson Hc1 Hc2 Hne Hs1 Hs2
    Hb1 Hb2 Ht1 Ht2.
  destruct (String.eqb_spec t "") as [|Hnonempty]; [done|]. exfalso.
  pose (Gp := fun (d : string) (period : Period.t) =>
    if negb (is_lesson period) then Normal []
    else do ta <- teacherAssignments_of st tt d (Period.id period);
         Normal (conflicts_of d (Period.id period) ta)).
  pose (Fp := fun (d : string) (conflicts : list Conflict.t) (period : Period.t) =>
    if negb (is_lesson period) then Normal conflicts else
    do teacherAssignments <- teacherAssignments_of st tt d (Period.id period);
    Normal (conflicts ++ conflicts_of d (Period.id period) teacherAssignments)%list).
  assert (HFp : forall d acc x, Fp d acc x = do v <- Gp d x; Normal (acc ++ v)%list).
  { intros d0 acc x. unfold Fp, Gp. destruct (negb (is_lesson x)); simpl.
    - by rewrite app_nil_r.
    - by destruct (teacherAssignments_of st tt d0 (Period.id x)). }
  pose (Gd := fun d : string => cfold (Fp d) (periods st) []).
  assert (HFd : forall acc d,
             cfold (Fp d) (periods st) acc = do v <- Gd d; Normal (acc ++ v)%list).
  { intros acc d0. apply (cfold_app (Fp d0) (Gp d0)). apply HFp. }
  pose proof (cfold_nil_all _ Gd this_days HFd Hnil d Hd) as Hday.
  pose proof (cfold_nil_all _ (Gp d) (periods st) (HFp d) Hday period Hp) as Hper.
  unfold Gp in Hper. rewrite Hlesson in Hper. simpl in Hper.
  destruct (teacherAssignments_of st tt d (Period.id period)) as [ta|e] eqn:Hta;
    simpl in Hper; [|done].
  injection Hper as Hper.
  pose proof (conflicts_of_nil d (Period.id period) t ta Hper) as Hle.
  unfold teacherAssignments_of in Hta.
  pose proof (teacherAssignments_count d (Period.id period) t _ _ _ Hta) as Hcount.
  assert (Hq : forall cls s, slot_at tt (mkRef d (Period.id period) (Cls.id cls)) = Some s ->
                 is_break s = false -> teacher_id s = Some t ->
                 booked_by tt d (Period.id period) t cls = true).
  { intros cls s Hs Hb Ht. unfold booked_by. rewrite Hs, Ht, Hb. simpl.
    rewrite bool_decide_eq_true_2 by done. simpl.
    apply String.eqb_neq in Hnonempty. by rewrite Hnonempty. }
  pose proof (filter_two (booked_by tt d (Period.id period) t) (classes st)
                cls1 cls2 Hc1 Hc2) as Htwo.
  assert (cls1 <> cls2) by congruence.
  specialize (Htwo ltac:(done) (Hq _ _ Hs1 Hb1 Ht1) (Hq _ _ Hs2 Hb2 Ht2)).
  lia.
Qed.

End detection.

Section resolution.
Variable st : AppState.

(** A booking list none of whose lessons finds another slot leaves the
    grid as it is. *)
Lemma relocate_first_false teacherId d p bookings tt g :
  relocate_first st teacherId d p bookings tt = Normal (false, g) -> g = tt.
Proof.
  induction bookings as [|b bookings IH]; simpl.
  - by intros [= <-].
  - destruct (findAlternativeSlot st (Booking.slot b) teacherId tt) as [[[d' p']|]|e];
      simpl; [|exact IH|done].
    destruct (store_slot tt d' p' _ _) as [tt1|e]; simpl; [|done].
    destruct (store_slot tt1 d p _ _) as [tt2|e]; simpl; done.
Qed.

Lemma resolveSpecificConflict_false conflict tt g :
  resolveSpecificConflict st conflict tt = Normal (false, g) -> g = tt.
Proof.
  unfold resolveSpecificConflict, resolveTeacherDoubleBooking.
  destruct (String.eqb _ _); [apply relocate_first_false|by intros [= <-]].
Qed.

(** One iteration: the count does not decrease, and if it stays where it
    was, no conflict was resolved and the grid is unchanged. *)
Lemma resolve_pass conflicts (a r : nat) tt g :
  cfold (resolve_step st false) conflicts (a, tt) = Normal (r, g) ->
  (a <= r)%nat
  /\ (r = a -> g = tt /\ forall c, In c conflicts ->
                           resolveSpecificConflict st c tt = Normal (false, tt)).
Proof.
  revert a tt. induction conflicts as [|c conflicts IH]; intros a tt; simpl.
  - intros [= <- <-]. split; [lia|]. by intros _.
  - unfold resolve_step at 1. simpl.
    destruct (resolveSpecificConflict st c tt) as [[ok g1]|e] eqn:Hc; simpl; [|done].
    destruct ok; intros H; apply IH in H as [Hle Heq].
    + split; [lia|]. intros ->. lia.
    + apply resolveSpecificConflict_false in Hc as Hg. subst g1.
      split; [done|]. intros ->. destruct (Heq eq_refl) as [-> Hall].
      split; [done|]. intros c' [<-|Hin]; [done|]. by apply Hall.
Qed.

(** The three ways the loop of [resolveConflicts] ends. *)
Lemma resolve_loop_outcome (remaining acc n : nat) tt tt' :
  resolve_loop st false remaining acc tt = Normal (n, tt') ->
  (findAllConflicts st tt' = Normal [] /\ teacher_exclusive st tt')
  \/ (exists conflicts,
        conflicts <> [] /\ findAllConflicts st tt' = Normal conflicts
        /\ forall c, In c conflicts ->
             resolveSpecificConflict st c tt' = Normal (false, tt'))
  \/ (acc + remaining <= n)%nat.
Proof.
  revert acc tt. induction remaining as [|k IH]; intros acc tt;
    cbn [resolve_loop].
  - intros [= <- <-]. right; right. lia.
  - destruct (findAllConflicts st tt) as [conflicts|e] eqn:Hfind;
      cbn [cbind]; [|done].
    destruct conflicts as [|c conflicts]; cbn [length Nat.eqb].
    { intros [= <- <-]. left. split; [done|]. by apply findAllConflicts_nil. }
    destruct (cfold (resolve_step st false) (c :: conflicts) (0%nat, tt))
      as [[r g]|e] eqn:Hpass; cbn [cbind fst snd]; [|done].
    apply resolve_pass in Hpass as [_ Hzero].
    destruct r as [|r]; cbn [Nat.eqb].
    + rewrite Nat.add_0_r. intros [= <- <-]. destruct (Hzero eq_refl) as [-> Hunres].
      right; left. exists (c :: conflicts). by repeat split.
    + intros H. apply IH in H as [H|[H|H]]; [by left|by right; left|].
      right; right. lia.
Qed.

End resolution.

(** C1 as stated fails: when teacher T1 teaches both classes in every
    slot of the week, no lesson can be moved; the resolver returns the
    grid as it is, with T1 booked twice on Monday. *)
Lemma resolver_leaves_double_booking :
  resolveConflicts state_two_classes false grid_all_double_booked
    = Normal (0%nat, grid_all_double_booked)
  /\ ~ resolver_exclusive_as_stated state_two_classes grid_all_double_booked.
Proof.
  assert (E : resolveConflicts state_two_classes false grid_all_double_booked
              = Normal (0%nat, grid_all_double_booked)) by (vm_compute; reflexivity).
  split; [exact E|]. intros H. specialize (H _ _ E).
  eapply (H "Monday" "p1" _ _ "A" "B"
            (lesson "Monday" "p1" "A" (Some "S1") (Some "T1"))
            (lesson "Monday" "p1" "B" (Some "S1") (Some "T1")) "T1");
    try reflexivity.
  discriminate.
Qed.

(** ** The feasibility validator: teachers, subjects and classes *)

Section validator_checks.
Variable st : AppState.

Lemma flat_map_eq_nil {A B} (f : A -> list B) (l : list A) :
  flat_map f l = [] <-> forall x, In x l -> f x = [].
Proof.
  induction l as [|x l IH]; simpl.
  - split; [intros _ ? []|done].
  - split.
    + intros H. apply app_eq_nil in H as [Hx Hl].
      intros y [<-|Hy]; [done|]. by apply IH.
    + intros H. rewrite (H x) by auto. simpl. apply IH. auto.
Qed.

Lemma flat_map_accepts {A B} (f : A -> list B) (P : A -> Prop) (l : list A) :
  (forall x, f x = [] <-> P x) ->
  flat_map f l = [] <-> forall x, In x l -> P x.
Proof.
  intros Hone. rewrite flat_map_eq_nil.
  split; intros H x Hin; apply Hone, H, Hin.
Qed.

Lemma find_subject_Some (sid : string) :
  (exists s, find (fun s => String.eqb (Subject.id s) sid) (subjects st) = Some s)
  <-> exists s, In s (subjects st) /\ Subject.id s = sid.
Proof.
  split.
  - intros [s H]. apply find_some in H as [Hin He].
    apply String.eqb_eq in He. eauto.
  - intros (s & Hin & He).
    destruct (find _ (subjects st)) as [s'|] eqn:Hf; [eauto|].
    apply (find_none _ _ Hf) in Hin. apply String.eqb_neq in Hin. done.
Qed.

Lemma level_exists (lv : string) :
  existsb (String.eqb lv) (map Cls.level (classes st)) = true
  <-> exists c, In c (classes st) /\ Cls.level c = lv.
Proof.
  rewrite existsb_exists. split.
  - intros (x & Hin & He). apply String.eqb_eq in He. subst x.
    apply in_map_iff in Hin as (c & Hc & Hin). eauto.
  - intros (c & Hin & <-). exists (Cls.level c). split.
    + apply in_map_iff. eauto.
    + apply String.eqb_refl.
Qed.

Lemma includes_In (arr : option (list string)) (x : string) :
  includes arr x = true <-> exists l, arr = Some l /\ In x l.
Proof.
  destruct arr as [l|]; simpl.
  - rewrite existsb_exists. split.
    + intros (y & Hin & He). apply String.eqb_eq in He. subst y. eauto.
    + intros (l' & [= <-] & Hin). exists x. split; [done|apply String.eqb_refl].
  - split; [done|]. by intros (l & H & _).
Qed.

Lemma filter_length_zero {A} (f : A -> bool) (l : list A) :
  (length (filter (fun x => f x = true) l) =? 0)%nat = false
  <-> exists x, In x l /\ f x = true.
Proof.
  rewrite Nat.eqb_neq. split.
  - intros H. destruct (filter _ l) as [|x l'] eqn:Hf; [done|].
    assert (Hx : x ∈ filter (fun x => f x = true) l) by (rewrite Hf; left).
    apply list_elem_of_filter in Hx as [Hfx Hin].
    exists x. split; [by apply list_elem_of_In|done].
  - intros (x & Hin & Hfx) Hlen.
    assert (Hx : x ∈ filter (fun x => f x = true) l).
    { apply list_elem_of_filter. split; [done|by apply list_elem_of_In]. }
    destruct (filter _ l); [by apply elem_of_nil in Hx|done].
Qed.

(** What the two nested loops of [validateClassConstraints] add up. *)
Lemma required_lessons (l : list Cls.t) (a : Z) :
  fold_left (fun total cls =>
    fold_left (fun total subject =>
      (total + or_default (Subject.target_lessons_per_week subject) 0)%Z)
      (subjects st) total)
    l a
  = (a + Z.of_nat (length l) * weekly_demand st)%Z.
Proof.
  assert (Hin : forall (ss : list Subject.t) (b : Z),
    fold_left (fun total subject =>
      (total + or_default (Subject.target_lessons_per_week subject) 0)%Z) ss b
    = (b + fold_right (fun s acc => (Subject.target_lessons_per_week s + acc)%Z)
             0%Z ss)%Z).
  { induction ss as [|s ss IH]; intros b; simpl; [lia|].
    rewrite IH. unfold or_default.
    destruct (Z.eqb_spec (Subject.target_lessons_per_week s) 0); lia. }
  revert a. induction l as [|c l IH]; intros a.
  - simpl. lia.
  - cbn [fold_left length]. rewrite Hin, IH. unfold weekly_demand. lia.
Qed.

End validator_checks.

(** X1. [validateTeacherConstraints] reports nothing exactly when every
    teacher has at least one subject, each of the teacher's subjects is
    the id of a subject of the state, and each class level of the teacher
    is the level of some class. *)
Theorem validateTeacherConstraints_accepts st :
  ConstraintManager.validateTeacherConstraints st = []
  <-> forall t, In t (teachers st) -> teacher_accepted st t.
Proof.
  unfold ConstraintManager.validateTeacherConstraints.
  apply flat_map_accepts. intros t. unfold teacher_accepted.
  destruct (Teacher.subjects t) as [[|sid0 ids]|] eqn:Hs.
  - split; [done|]. intros (l & [= <-] & Hne & _). done.
  - set (l := sid0 :: ids). split.
    + intros H. apply app_eq_nil in H as [Hsubj Hlev].
      exists l. split; [done|]. split; [done|]. split.
      * intros sid Hin. apply find_subject_Some.
        rewrite flat_map_eq_nil in Hsubj. specialize (Hsubj sid Hin).
        destruct (find _ (subjects st)) as [s|]; [eauto|done].
      * intros levels lv Hl Hin. rewrite Hl in Hlev.
        destruct levels as [|lv0 levels]; [done|].
        cbn [length Nat.ltb Nat.leb] in Hlev.
        rewrite flat_map_eq_nil in Hlev. specialize (Hlev lv Hin).
        apply level_exists.
        destruct (existsb _ _); done.
    + intros (l' & [= <-] & _ & Hsubj & Hlev).
      apply app_nil. split.
      * apply flat_map_eq_nil. intros sid Hin.
        apply Hsubj, find_subject_Some in Hin as [s ->]. done.
      * destruct (Teacher.class_levels t) as [levels|]; [|done].
        destruct (0 <? length levels)%nat; [|done].
        apply flat_map_eq_nil. intros lv Hin.
        by rewrite (proj2 (level_exists st lv) (Hlev levels lv eq_refl Hin)).
  - split; [done|]. intros (l & [=] & _).
Qed.

(** X2. [validateSubjectConstraints] reports nothing exactly when every
    subject has a weekly target of at most five times the number of
    lesson periods of a day and is listed by at least one teacher. *)
Theorem validateSubjectConstraints_accepts st :
  ConstraintManager.validateSubjectConstraints st = []
  <-> forall s, In s (subjects st) -> subject_accepted st s.
Proof.
  unfold ConstraintManager.validateSubjectConstraints.
  apply flat_map_accepts. intros s. cbv beta zeta. unfold subject_accepted.
  assert (Ht : or_default (Subject.target_lessons_per_week s) 0
               = Subject.target_lessons_per_week s).
  { unfold or_default. destruct (Z.eqb_spec (Subject.target_lessons_per_week s) 0);
      congruence. }
  rewrite Ht.
  destruct (length _ =? 0)%nat eqn:Hlen.
  - split.
    + intros H. apply app_eq_nil in H as [_ H]. done.
    + intros (_ & t & l & Hin & Hl & Hs). exfalso.
      assert (Hex : exists x, In x (teachers st)
                /\ includes (Teacher.subjects x) (Subject.id s) = true).
      { exists t. split; [done|]. apply includes_In. eauto. }
      apply filter_length_zero in Hex. congruence.
  - apply filter_length_zero in Hlen as (t & Hin & Hinc).
    apply includes_In in Hinc as (l & Hl & Hs).
    rewrite app_nil_r.
    destruct (Z.gtb_spec (Subject.target_lessons_per_week s)
                (ConstraintManager.lessonPeriodsPerDay st * 5)).
    + split; [done|]. intros [Hle _]. lia.
    + split; [|done]. intros _. split; [lia|]. eauto.
Qed.

Lemma validateClassConstraints_nil st :
  ConstraintManager.validateClassConstraints st = []
  <-> (Z.of_nat (length (classes st)) * weekly_demand st
       <= Z.of_nat (length (classes st))
          * ConstraintManager.lessonPeriodsPerDay st * 5)%Z.
Proof.
  unfold ConstraintManager.validateClassConstraints.
  rewrite required_lessons.
  destruct (Z.gtb_spec (0 + Z.of_nat (length (classes st)) * weekly_demand st)
              (Z.of_nat (length (classes st))
               * ConstraintManager.lessonPeriodsPerDay st * 5)) as [Hgt|Hle].
  - split; [done|]. lia.
  - split; [|done]. lia.
Qed.

(** X3. [validateClassConstraints] reports nothing exactly when there is
    no class or the weekly targets of the subjects add up to at most five
    times the number of lesson periods of a day. *)
Theorem validateClassConstraints_accepts st :
  ConstraintManager.validateClassConstraints st = []
  <-> classes st = []
      \/ (weekly_demand st <= 5 * ConstraintManager.lessonPeriodsPerDay st)%Z.
Proof.
  rewrite validateClassConstraints_nil.
  set (n := Z.of_nat (length (classes st))).
  set (L := ConstraintManager.lessonPeriodsPerDay st).
  assert (Hn : (0 <= n)%Z) by (unfold n; lia).
  assert (Hz : classes st = [] <-> n = 0%Z).
  { unfold n. destruct (classes st); simpl; split; try done; lia. }
  rewrite Hz. split.
  - intros H. destruct (Z.eq_dec n 0%Z) as [|Hne]; [by left|right]. nia.
  - intros [->|Hd]; [lia|]. nia.
Qed.

(** ** The grid initializer and the fixed elements *)

Section fold_insert.
Context {A V : Type}.

(** A loop of property assignments [m[key(x)] = val(x)]: the last
    assignment to a key is the one that stays. *)
Lemma lookup_fold_insert (key : A -> string) (val : A -> V) (l : list A)
    (m : gmap string V) (k : string) :
  fold_left (fun m x => <[key x := val x]> m) l m !! k
  = match find (fun x => String.eqb (key x) k) (rev l) with
    | Some x => Some (val x)
    | None => m !! k
    end.
Proof.
  induction l as [|x l IH] using rev_ind; [done|].
  rewrite fold_left_app, rev_app_distr. simpl.
  destruct (String.eqb_spec (key x) k) as [->|Hne].
  - by rewrite lookup_insert_eq.
  - rewrite lookup_insert_ne by done. apply IH.
Qed.

Lemma find_rev_existsb (f : A -> bool) (l : list A) :
  is_Some (find f (rev l)) <-> existsb f l = true.
Proof.
  rewrite existsb_exists. split.
  - intros [x Hx]. apply find_some in Hx as [Hin Hf].
    exists x. split; [|done]. by apply in_rev.
  - intros (x & Hin & Hf).
    destruct (find f (rev l)) as [y|] eqn:Hfind; [eauto|].
    apply in_rev in Hin. apply (find_none _ _ Hfind) in Hin. congruence.
Qed.

Lemma find_key (key : A -> string) (k : string) (l : list A) (x : A) :
  find (fun x => String.eqb (key x) k) l = Some x -> key x = k /\ In x l.
Proof. intros H. apply find_some in H as [Hin He]. by apply String.eqb_eq in He. Qed.

End fold_insert.

Lemma is_day_In d : is_day d = true <-> In d this_days.
Proof.
  unfold is_day. rewrite existsb_exists. split.
  - intros (x & Hin & He). apply String.eqb_eq in He. by subst.
  - intros Hin. exists d. split; [done|apply String.eqb_refl].
Qed.

Lemma has_class_In st cid :
  has_class st cid = true <-> exists c, In c (classes st) /\ Cls.id c = cid.
Proof.
  unfold has_class. rewrite existsb_exists. split.
  - intros (c & Hin & He). apply String.eqb_eq in He. eauto.
  - intros (c & Hin & <-). exists c. split; [done|apply String.eqb_refl].
Qed.

Lemma slot_at_initializeTimetable st a :
  slot_at (initializeTimetable st) a = initial_slot st a.
Proof.
  destruct a as [d pid cid]. unfold slot_at, initializeTimetable, initial_slot.
  cbn [ref_day ref_period ref_class].
  rewrite (lookup_fold_insert (fun d => d)), lookup_empty.
  destruct (find (fun x => String.eqb x d) (rev this_days)) as [d'|] eqn:Hd.
  - apply find_key in Hd as Hd'. destruct Hd' as [-> Hin].
    apply in_rev in Hin.
    rewrite (proj2 (is_day_In d) Hin). cbn [mbind option_bind andb].
    rewrite (lookup_fold_insert Period.id), lookup_empty.
    unfold last_period.
    destruct (find (fun p => String.eqb (Period.id p) pid) (rev (periods st)))
      as [p|] eqn:Hp; cbn [mbind option_bind fmap option_fmap option_map].
    + rewrite (lookup_fold_insert Cls.id), lookup_empty.
      destruct (find (fun c => String.eqb (Cls.id c) cid) (rev (classes st)))
        as [c|] eqn:Hc.
      * assert (Hex : has_class st cid = true).
        { apply find_rev_existsb. rewrite Hc. eauto. }
        rewrite Hex. apply find_key in Hc as Hc'. destruct Hc' as [Hc' _].
        apply find_key in Hp as Hp'. destruct Hp' as [Hp' _].
        by rewrite Hc', Hp'.
      * assert (Hex : has_class st cid = false).
        { apply not_true_is_false. intros H. apply find_rev_existsb in H.
          rewrite Hc in H. by destruct H. }
        by rewrite Hex.
    + by destruct (has_class st cid).
  - assert (Hex : is_day d = false).
    { apply not_true_is_false. intros H.
      assert (Hs : is_Some (find (fun x => String.eqb x d) (rev this_days))).
      { apply find_rev_existsb. unfold is_day in H.
        rewrite existsb_exists in *. destruct H as (x & Hin & He).
        exists x. split; [done|]. by rewrite String.eqb_sym. }
      rewrite Hd in Hs. by destruct Hs. }
    by rewrite Hex.
Qed.

(** X4. The initialized grid holds a slot exactly at the addresses made of
    a day of the week, the id of a period and the id of a class; the slot
    carries its own address, no subject, no teacher and no room, and is a
    break slot when the last period with that id is no lesson. *)
Theorem initializeTimetable_slot st a :
  slot_at (initializeTimetable st) a = initial_slot st a.
Proof. apply slot_at_initializeTimetable. Qed.

Lemma initializeTimetable_covers st : covers st (initializeTimetable st).
Proof.
  intros d p c Hd Hp Hc. rewrite slot_at_initializeTimetable.
  unfold initial_slot. cbn [ref_day ref_period ref_class].
  rewrite (proj2 (is_day_In d) Hd).
  rewrite (proj2 (has_class_In st (Cls.id c))) by eauto.
  cbn [andb]. unfold last_period.
  assert (Hs : is_Some (find (fun q => String.eqb (Period.id q) (Period.id p))
                          (rev (periods st)))).
  { apply find_rev_existsb, existsb_exists. exists p.
    split; [done|apply String.eqb_refl]. }
  destruct Hs as [q ->]. simpl. eauto.
Qed.

Lemma initializeTimetable_empty st a s :
  slot_at (initializeTimetable st) a = Some s ->
  subject_id s = None /\ teacher_id s = None.
Proof.
  rewrite slot_at_initializeTimetable. unfold initial_slot.
  destruct (is_day _ && has_class _ _); [|done].
  destruct (last_period st (ref_period a)); simpl; [|done].
  by intros [= <-].
Qed.

(** *** Setting the break flag *)

Section marking.
Implicit Types (M : SlotRef -> bool) (tt : Timetable).

Lemma marks_is_Some M tt tt' a :
  marks M tt tt' -> is_Some (slot_at tt' a) <-> is_Some (slot_at tt a).
Proof.
  intros H. rewrite (H a). destruct (M a); [|done].
  by rewrite fmap_is_Some.
Qed.

Lemma marks_none tt : marks (fun _ => false) tt tt.
Proof. by intros a. Qed.

Lemma marks_ext M M' tt tt' :
  (forall a, M a = M' a) -> marks M tt tt' -> marks M' tt tt'.
Proof. intros He H a. rewrite <- He. apply H. Qed.

Lemma marks_trans M1 M2 tt tt1 tt2 :
  marks M1 tt tt1 -> marks M2 tt1 tt2 -> marks (fun a => M1 a || M2 a) tt tt2.
Proof.
  intros H1 H2 a. rewrite (H2 a), (H1 a).
  destruct (M1 a), (M2 a); simpl; try done.
  by destruct (slot_at tt a).
Qed.

Lemma mark_break_marks tt d p c :
  is_Some (slot_at tt (mkRef d p c)) ->
  exists tt', mark_break tt d p c = Normal tt'
              /\ marks (fun a => bool_decide (a = mkRef d p c)) tt tt'.
Proof.
  intros [s Hs]. unfold mark_break.
  pose proof (get_slot_at tt (mkRef d p c) s Hs) as Hg. simpl in Hg.
  rewrite Hg. simpl.
  eexists. split; [reflexivity|].
  intros a. rewrite slot_at_write.
  destruct (decide (mkRef d p c = a)) as [<-|Hne].
  - by rewrite bool_decide_eq_true_2.
  - by rewrite bool_decide_eq_false_2.
Qed.

(** A loop whose steps each set the flag at some addresses sets it at the
    addresses of all steps. [Dom] is a set of addresses that must exist
    for a step to succeed. *)
Lemma cfold_marks {X} (step : Timetable -> X -> completion Timetable)
    (Mx : X -> SlotRef -> bool) (Dom : SlotRef -> Prop) (l : list X) :
  (forall tt x, In x l -> (forall a, Dom a -> is_Some (slot_at tt a)) ->
     exists tt', step tt x = Normal tt' /\ marks (Mx x) tt tt') ->
  forall tt, (forall a, Dom a -> is_Some (slot_at tt a)) ->
  exists tt', cfold step l tt = Normal tt'
              /\ marks (fun a => existsb (fun x => Mx x a) l) tt tt'.
Proof.
  induction l as [|x l IH]; intros Hstep tt Hdom; simpl.
  - exists tt. split; [done|apply marks_none].
  - destruct (Hstep tt x (or_introl eq_refl) Hdom) as (tt1 & -> & H1). simpl.
    destruct (IH (fun tt y Hy => Hstep tt y (or_intror Hy)) tt1) as (tt2 & -> & H2).
    { intros a Ha. apply (marks_is_Some _ _ _ _ H1). auto. }
    exists tt2. split; [done|]. by apply marks_trans with tt1.
Qed.
End marking.

Lemma fixed_nested st a :
  existsb (fun p =>
    negb (is_lesson p)
    && existsb (fun d =>
         existsb (fun c => bool_decide (a = mkRef d (Period.id p) (Cls.id c)))
           (classes st))
         this_days)
    (periods st)
  = fixed st a.
Proof.
  apply eq_true_iff_eq. unfold fixed.
  rewrite !andb_true_iff, is_day_In, has_class_In, !existsb_exists. split.
  - intros (p & Hp & H). apply andb_true_iff in H as [Hl H].
    apply existsb_exists in H as (d & Hd & H).
    apply existsb_exists in H as (c & Hc & H).
    apply bool_decide_eq_true in H. subst a. simpl.
    split; [split; [done|eauto]|].
    exists p. split; [done|]. rewrite Hl. apply String.eqb_refl.
  - intros [[Hd (c & Hc & Hcid)] (p & Hp & H)].
    apply andb_true_iff in H as [Hl Hpid]. apply String.eqb_eq in Hpid.
    exists p. split; [done|]. rewrite Hl. cbn [andb].
    apply existsb_exists. exists (ref_day a). split; [done|].
    apply existsb_exists. exists c. split; [done|].
    apply bool_decide_eq_true. destruct a; simpl in *. congruence.
Qed.

Lemma placeFixedElements_covered st tt :
  covers st tt ->
  exists tt', placeFixedElements st tt = Normal tt' /\ marks (fixed st) tt tt'.
Proof.
  intros Hcov.
  pose (Dom := fun a : SlotRef =>
    exists d p c, In d this_days /\ In p (periods st) /\ In c (classes st)
                  /\ a = mkRef d (Period.id p) (Cls.id c)).
  assert (Hdom : forall a, Dom a -> is_Some (slot_at tt a)).
  { intros a (d & p & c & Hd & Hp & Hc & ->). by apply Hcov. }
  unfold placeFixedElements.
  edestruct (cfold_marks
    (fun tt period =>
       if negb (is_lesson period) then
         cfold (fun tt d =>
           cfold (fun tt cls => mark_break tt d (Period.id period) (Cls.id cls))
             (classes st) tt)
           this_days tt
       else Normal tt)
    (fun p a =>
       negb (is_lesson p)
       && existsb (fun d =>
            existsb (fun c => bool_decide (a = mkRef d (Period.id p) (Cls.id c)))
              (classes st))
            this_days)
    Dom (periods st)) as (tt' & Hrun & Hmarks); [|exact Hdom|].
  - intros tt1 p Hp Hdom1. destruct (negb (is_lesson p)); cbn [andb].
    + apply (cfold_marks _
        (fun d a => existsb (fun c =>
           bool_decide (a = mkRef d (Period.id p) (Cls.id c))) (classes st))
        Dom this_days); [|exact Hdom1].
      intros tt2 d Hd Hdom2.
      apply (cfold_marks _
        (fun c a => bool_decide (a = mkRef d (Period.id p) (Cls.id c)))
        Dom (classes st)); [|exact Hdom2].
      intros tt3 c Hc Hdom3. apply mark_break_marks, Hdom3.
      by exists d, p, c.
    + exists tt1. split; [done|apply marks_none].
  - exists tt'. split; [exact Hrun|].
    eapply marks_ext; [|exact Hmarks]. intros a. apply fixed_nested.
Qed.

(** X5. On a grid that has a slot for every day, period and class,
    [placeFixedElements] returns normally; it sets [is_break] on the slots
    of the periods that are no lesson and changes nothing else. *)
Theorem placeFixedElements_marks st tt :
  covers st tt ->
  exists tt',
    placeFixedElements st tt = Normal tt'
    /\ forall a,
         slot_at tt' a
         = if fixed st a then set_is_break true <$> slot_at tt a
           else slot_at tt a.
Proof. apply placeFixedElements_covered. Qed.

(** *** The work list of the engine *)

Lemma createLessonSlots_In st ls :
  In ls (createLessonSlots st)
  <-> exists d p c,
        In d this_days /\ In p (periods st) /\ is_lesson p = true
        /\ In c (classes st)
        /\ ls = LessonSlot.mk d (Period.id p) (Cls.id c) false.
Proof.
  unfold createLessonSlots. rewrite in_flat_map. split.
  - intros (d & Hd & H). apply in_flat_map in H as (p & Hp & H).
    destruct (is_lesson p) eqn:Hl; [|done].
    apply in_map_iff in H as (c & <- & Hc). by exists d, p, c.
  - intros (d & p & c & Hd & Hp & Hl & Hc & ->).
    exists d. split; [done|]. apply in_flat_map. exists p. split; [done|].
    rewrite Hl. apply in_map_iff. eauto.
Qed.

Lemma createLessonSlots_length st :
  Z.of_nat (length (createLessonSlots st))
  = (7 * (ConstraintManager.lessonPeriodsPerDay st
          * Z.of_nat (length (classes st))))%Z.
Proof.
  unfold createLessonSlots, ConstraintManager.lessonPeriodsPerDay.
  assert (Hday : forall d : string,
    length (flat_map (fun period =>
      if is_lesson period then
        map (fun cls => LessonSlot.mk d (Period.id period) (Cls.id cls) false)
            (classes st)
      else []) (periods st))
    = (length (filter (fun p => is_lesson p = true) (periods st))
       * length (classes st))%nat).
  { intros d. induction (periods st) as [|p ps IH]; [done|].
    cbn [flat_map]. rewrite length_app, IH, filter_cons.
    destruct (is_lesson p) eqn:Hl.
    - rewrite decide_True by done. rewrite length_map. simpl. lia.
    - rewrite decide_False by done. simpl. lia. }
  unfold this_days. cbn [flat_map]. rewrite !length_app, !Hday. simpl. lia.
Qed.

(** X6. The class check of the validator budgets five days of lesson
    periods, the generator creates lesson slots for seven: the check
    reports nothing exactly when the lessons all classes need are at most
    five sevenths of the number of lesson slots [createLessonSlots]
    creates. *)
Theorem class_budget_is_five_sevenths_of_slots st :
  ConstraintManager.validateClassConstraints st = []
  <-> (7 * (Z.of_nat (length (classes st)) * weekly_demand st)
       <= 5 * Z.of_nat (length (createLessonSlots st)))%Z.
Proof.
  rewrite validateClassConstraints_nil, createLessonSlots_length. lia.
Qed.

(** ** The assignment engine *)

Lemma cfold_inv {A B} (P : B -> Prop) (f : B -> A -> completion B)
    (l : list A) (b b' : B) :
  (forall b x b', In x l -> P b -> f b x = Normal b' -> P b') ->
  P b -> cfold f l b = Normal b' -> P b'.
Proof.
  revert b. induction l as [|x l IH]; intros b Hstep Hb; simpl.
  - by intros [= <-].
  - destruct (f b x) as [b1|e] eqn:Hf; simpl; [|done].
    apply IH.
    + intros b2 y b3 Hy. apply Hstep. by right.
    + eapply Hstep; [by left|exact Hb|exact Hf].
Qed.

Section candidates.
Variable st : AppState.

Lemma teachers_of_level_In cls l t :
  teachers_of_level st cls = Normal l -> In t l ->
  In t (teachers st)
  /\ exists c, cls = Some c
               /\ includes (Teacher.class_levels t) (Cls.level c) = true.
Proof.
  unfold teachers_of_level. intros H. revert t.
  refine (cfold_inv (fun kept => forall t, In t kept -> _) _ _ _ _ _ _ H).
  - intros kept teacher kept' Hin IH.
    destruct (Teacher.class_levels teacher) as [levels|] eqn:Hl.
    + destruct cls as [c|]; [|done].
      destruct (existsb _ levels) eqn:Hex; intros [= <-]; [|exact IH].
      intros t Ht. apply in_app_or in Ht as [Ht|[<-|[]]]; [by apply IH|].
      split; [done|]. exists c. split; [done|]. by rewrite Hl.
    + intros [= <-]. exact IH.
  - intros t [].
Qed.

Lemma getNeededSubjects_In classId subjectFrequency l s :
  getNeededSubjects st classId subjectFrequency = Normal l -> In s l ->
  In s (subjects st)
  /\ exists row,
       subjectFrequency !! classId = Some row
       /\ nlt (num_or (row !! Subject.id s) (Num 0))
            (of_Z (or_default (Subject.target_lessons_per_week s) 5)) = true.
Proof.
  unfold getNeededSubjects.
  destruct (cfold _ (subjects st) []) as [classSubjects|e] eqn:Hc; simpl; [|done].
  intros [= <-] Hin. apply in_map_iff in Hin as ([s' pr] & Hs & Hin).
  simpl in Hs. subst s'. apply stable_sort_In in Hin.
  revert pr Hin.
  refine (cfold_inv (fun acc => forall pr, In (s, pr) acc -> _) _ _ _ _ _ _ Hc).
  - intros acc subject acc' Hsub IH. unfold nested_row.
    destruct (subjectFrequency !! classId) as [row|] eqn:Hrow; simpl; [|done].
    destruct (nlt _ _) eqn:Hlt; intros [= <-]; [|exact IH].
    intros pr Hin. apply in_app_or in Hin as [Hin|[[= <- <-]|[]]]; [by eapply IH|].
    split; [done|]. exists row. by split.
  - intros pr [].
Qed.

Lemma findBestAssignment_eligible ls tt teacherLoad classLoad subjectFrequency a :
  findBestAssignment st ls tt teacherLoad classLoad subjectFrequency
    = Normal (Some a) ->
  eligible st ls tt subjectFrequency a.
Proof.
  unfold findBestAssignment.
  destruct (getNeededSubjects st _ subjectFrequency) as [needed|e] eqn:Hn;
    cbn [cbind]; [|done].
  destruct (length needed =? 0)%nat; [done|].
  destruct (teachers_of_level st _) as [avail|e] eqn:Ha; cbn [cbind]; [|done].
  destruct (cfold _ needed _) as [best|e] eqn:Hb; cbn [cbind]; [|done].
  intros [= Hbest]. revert a Hbest.
  refine (cfold_inv (fun best => forall a, snd best = Some a -> _) _ _ _ _ _ _ Hb).
  - intros best0 subject best1 Hsub IH Hin.
    refine (cfold_inv (fun best => forall a, snd best = Some a -> _) _ _ _ _ _ IH Hin).
    intros b teacher b' Ht IHb.
    apply list_elem_of_In, list_elem_of_filter in Ht as [Hinc Ht].
    apply list_elem_of_In in Ht.
    destruct (isTeacherAvailable _ _ _ tt) as [free|e] eqn:Hfree; cbn [cbind]; [|done].
    destruct free; cbn [negb]; [|by intros [= <-]].
    destruct (calculateAssignmentScore _ _ _ _ _ _ _) as [score|e]; cbn [cbind];
      [|done].
    destruct (ngt score (fst b)); intros [= <-]; [|exact IHb].
    intros a [= <-]. cbn.
    destruct (teachers_of_level_In _ _ _ Ha Ht) as (Hteacher & c & Hc & Hlev).
    destruct (getNeededSubjects_In _ _ _ _ Hn Hsub) as (Hsubject & row & Hrow & Hlt).
    repeat split; try done.
    exists teacher, subject, c, row. repeat split; done.
  - intros a [=].
Qed.

Lemma nested_incr_Normal k1 k2 (o o' : gmap string (gmap string num)) :
  nested_incr k1 k2 o = Normal o' ->
  exists row, o !! k1 = Some row /\ o' = <[k1 := incr k2 row]> o.
Proof.
  unfold nested_incr, nested_row.
  destruct (o !! k1) as [row|]; simpl; [|done]. intros [= <-]. eauto.
Qed.

Lemma assignLesson_Normal tt a tt' :
  assignLesson tt a = Normal tt' ->
  exists old,
    slot_at tt (mkRef (Assignment.day a) (Assignment.period_id a)
                  (Assignment.class_id a)) = Some old
    /\ tt' = store (Assignment.day a) (Assignment.period_id a)
               (Assignment.class_id a) (assigned_slot a old) tt.
Proof.
  unfold assignLesson.
  destruct (get_slot tt _ _ _) as [[old|]|e] eqn:Hg; cbn [cbind field]; [|done..].
  apply get_slot_Some in Hg. unfold store_slot.
  destruct (tt !! Assignment.day a) as [dm|]; [|done].
  destruct (dm !! Assignment.period_id a); [|done].
  intros [= <-]. eauto.
Qed.

Lemma assign_step_sound E un r E' un' :
  assign_step st (E, un) r = Normal (E', un') -> engine_step st E E'.
Proof.
  unfold assign_step. cbn [fst snd].
  destruct (e_heap E !! r) as [ls|] eqn:Hr; cbn [cbind]; [|done].
  destruct (LessonSlot.assigned ls).
  { intros [= <- <-]. by left. }
  destruct (findBestAssignment st ls _ _ _ _) as [[a|]|e] eqn:Hbest;
    cbn [cbind]; [| |done].
  - apply findBestAssignment_eligible in Hbest.
    pose proof Hbest as (Hd & Hp & Hc & _).
    destruct (assignLesson _ a) as [tt'|e] eqn:Hassign; cbn [cbind]; [|done].
    apply assignLesson_Normal in Hassign as (old & Hold & ->).
    destruct (nested_incr _ _ (e_classLoad E)) as [cl|e] eqn:Hcl; cbn [cbind];
      [|done].
    destruct (nested_incr _ _ (e_subjectFrequency E)) as [sf|e] eqn:Hsf;
      cbn [cbind]; [|done].
    apply nested_incr_Normal in Hcl as (crow & Hcrow & ->).
    apply nested_incr_Normal in Hsf as (srow & Hsrow & ->).
    intros [= <- <-]. right. rewrite Hd, Hp, Hc in *.
    exists ls, a, old, crow, srow.
    split; [exact Hbest|]. split; [exact Hold|]. cbn. repeat split; done.
  - intros [= <- <-]. by left.
Qed.

Lemma pass_sound l E un E' un' :
  cfold (assign_step st) l (E, un) = Normal (E', un') -> rtc (engine_step st) E E'.
Proof.
  revert E un. induction l as [|r l IH]; intros E un; simpl.
  - intros [= <- <-]. apply rtc_refl.
  - destruct (assign_step st (E, un) r) as [[E1 un1]|e] eqn:Hstep; simpl; [|done].
    intros H. eapply rtc_l; [by eapply assign_step_sound|by eapply IH].
Qed.

Lemma attempt_loop_sound cancelled n E slots E' slots' :
  attempt_loop st cancelled n E slots = Normal (E', slots') ->
  rtc (engine_step st) E E'.
Proof.
  revert E slots. induction n as [|n IH]; intros E slots; cbn [attempt_loop].
  - intros [= <- <-]. apply rtc_refl.
  - destruct cancelled.
    { intros [= <- <-]. apply rtc_refl. }
    destruct (sortSlotsByDifficulty st (e_heap E) slots) as [sorted|e];
      cbn [cbind]; [|done].
    destruct (cfold (assign_step st) sorted (E, [])) as [[E1 un]|e] eqn:Hpass;
      cbn [cbind]; [|done].
    apply pass_sound in Hpass.
    destruct (length un =? 0)%nat.
    { by intros [= <- <-]. }
    unfold resetSomeSlots. intros H. apply IH in H.
    etrans; [exact Hpass|].
    eapply rtc_l; [|exact H]. by left.
Qed.

Lemma assignLessons_sound cancelled tt lessonSlots tt' notes :
  assignLessons st cancelled tt lessonSlots = Normal (tt', notes) ->
  exists E', rtc (engine_step st) (initial_engine st tt lessonSlots) E'
             /\ e_timetable E' = tt'.
Proof.
  unfold assignLessons.
  destruct (attempt_loop st cancelled maxAttempts _ _) as [[E' slots']|e] eqn:Hloop;
    cbn [cbind]; [|done].
  intros [= <- _]. exists E'. split; [|done].
  by apply attempt_loop_sound in Hloop.
Qed.

End candidates.

(** *** What the engine never does *)

Section store_facts.
Implicit Types (tt : Timetable) (s : Slot).

Lemma slot_at_store tt d p c s b old :
  slot_at tt (mkRef d p c) = Some old ->
  slot_at (store d p c s tt) b
  = if decide (mkRef d p c = b) then Some s else slot_at tt b.
Proof.
  unfold slot_at, store. destruct b as [d' p' c']. cbn [ref_day ref_period ref_class].
  intros Hold. rewrite lookup_alter.
  destruct (tt !! d) as [dm|] eqn:Hd; [|done]. cbn [mbind option_bind] in Hold.
  destruct (dm !! p) as [row|] eqn:Hp; [|done]. cbn [mbind option_bind] in Hold.
  destruct (decide (d = d')) as [<-|Hne].
  - rewrite Hd. cbn [fmap option_fmap option_map mbind option_bind].
    rewrite lookup_alter.
    destruct (decide (p = p')) as [<-|Hnp].
    + rewrite Hp. cbn [fmap option_fmap option_map mbind option_bind].
      rewrite lookup_insert.
      destruct (decide (c = c')) as [<-|Hnc].
      * by rewrite decide_True.
      * rewrite decide_False; [done|congruence].
    + rewrite decide_False; [done|congruence].
  - rewrite decide_False; [done|congruence].
Qed.

Lemma store_row tt d p c s d' p' dm' row' :
  store d p c s tt !! d' = Some dm' -> dm' !! p' = Some row' ->
  exists dm row,
    tt !! d' = Some dm /\ dm !! p' = Some row
    /\ row' = if decide (d = d' /\ p = p') then <[c := s]> row else row.
Proof.
  unfold store. rewrite lookup_alter.
  destruct (decide (d = d')) as [<-|Hne].
  - destruct (tt !! d) as [dm|]; [|done].
    cbn [fmap option_fmap option_map]. intros [= <-].
    rewrite lookup_alter.
    destruct (decide (p = p')) as [<-|Hnp].
    + destruct (dm !! p) as [row|] eqn:Hrow; [|done].
      cbn [fmap option_fmap option_map]. intros [= <-].
      exists dm, row. rewrite decide_True by done. done.
    + intros Hrow. exists dm, row'. rewrite decide_False by tauto. done.
  - intros Hdm Hrow. exists dm', row'. rewrite decide_False by tauto. done.
Qed.

Lemma isTeacherAvailable_true tid d p tt dm row c s :
  isTeacherAvailable tid d p tt = Normal true ->
  tt !! d = Some dm -> dm !! p = Some row -> row !! c = Some s ->
  teacher_id s <> Some tid.
Proof.
  unfold isTeacherAvailable, period_row. intros H Hd Hp Hc Ht.
  rewrite Hd in H. cbn [cbind] in H. rewrite Hp in H. cbn [default] in H.
  injection H as H. apply negb_true_iff in H.
  assert (Hex : existsb (fun '(classId, slot) => strict_eq (teacher_id slot) (Some tid))
                  (map_to_list row) = true).
  { apply scan_false_iff. exists c, s. split; [done|].
    unfold strict_eq. by apply bool_decide_eq_true. }
  congruence.
Qed.

End store_facts.

Section engine_invariants.
Variable st : AppState.

Lemma engine_step_exclusive E E' :
  engine_step st E E' ->
  no_teacher_twice (e_timetable E) -> no_teacher_twice (e_timetable E').
Proof.
  intros [(-> & _)|(ls & a & old & crow & srow & Hel & Hold & _ & _ & -> & _)];
    [done|].
  intros Hex d p dm' row' c1 c2 s1 s2 t Hd Hp H1 H2 Hne Ht1 Ht2.
  destruct (store_row _ _ _ _ _ _ _ _ _ Hd Hp) as (dm & row & Hdm & Hrow & ->).
  destruct Hel as (_ & _ & _ & teacher & subject & cls & frow & _ & _ & _ & Hta & _
                   & _ & _ & Hfree & _).
  destruct (decide (LessonSlot.day ls = d /\ LessonSlot.period_id ls = p))
    as [[<- <-]|Hother].
  - assert (Hfresh : forall c s, row !! c = Some s ->
              teacher_id s <> Some (Teacher.id teacher))
      by (intros c s; by eapply isTeacherAvailable_true).
    rewrite lookup_insert in H1, H2.
    destruct (decide (LessonSlot.class_id ls = c1)) as [<-|Hc1];
      destruct (decide (LessonSlot.class_id ls = c2)) as [<-|Hc2]; try done.
    + injection H1 as <-. cbn in Ht1. rewrite Hta in Ht1.
      injection Ht1 as <-. by eapply Hfresh.
    + injection H2 as <-. cbn in Ht2. rewrite Hta in Ht2.
      injection Ht2 as <-. by eapply Hfresh.
    + by eapply (Hex _ _ dm row c1 c2 s1 s2 t).
  - by eapply (Hex d p dm row c1 c2 s1 s2 t).
Qed.

Lemma engine_step_qualified tt0 E E' :
  engine_step st E E' ->
  (forall a s, slot_at (e_timetable E) a = Some s ->
     slot_at tt0 a = Some s \/ qualified st a s) ->
  forall a s, slot_at (e_timetable E') a = Some s ->
    slot_at tt0 a = Some s \/ qualified st a s.
Proof.
  intros [(-> & _)|(ls & a & old & crow & srow & Hel & Hold & _ & _ & -> & _)];
    [done|].
  intros IH b s. rewrite (slot_at_store _ _ _ _ _ _ old) by exact Hold.
  destruct (decide _) as [<-|Hne]; [|apply IH].
  intros [= <-]. right.
  destruct Hel as (_ & _ & _ & teacher & subject & cls & frow & Hteacher & Hsubject
                   & Hcls & Hta & Hsa & Hlev & Hsub & _).
  exists teacher, subject, cls. cbn. rewrite Hta, Hsa. repeat split; done.
Qed.

End engine_invariants.

(** X7. The engine never double-books: if no teacher is held by two
    classes in a period row of the grid before [assignLessons], none is
    after it. *)
Theorem assignLessons_exclusive st cancelled tt lessonSlots tt' notes :
  no_teacher_twice tt ->
  assignLessons st cancelled tt lessonSlots = Normal (tt', notes) ->
  no_teacher_twice tt'.
Proof.
  intros Hex Hrun.
  apply assignLessons_sound in Hrun as (E' & Hsteps & <-).
  revert Hex. change tt with (e_timetable (initial_engine st tt lessonSlots)).
  induction Hsteps as [E|E E1 E2 Hstep _ IH]; [done|].
  intros Hex. apply IH. by eapply engine_step_exclusive.
Qed.

(** X8. Every slot of the grid after [assignLessons] is as it was before
    the call or holds a lesson of a teacher of the state who lists the
    subject and the level of the class, and is no break slot. *)
Theorem assignLessons_qualified st cancelled tt lessonSlots tt' notes a s :
  assignLessons st cancelled tt lessonSlots = Normal (tt', notes) ->
  slot_at tt' a = Some s ->
  slot_at tt a = Some s \/ qualified st a s.
Proof.
  intros Hrun.
  apply assignLessons_sound in Hrun as (E' & Hsteps & <-).
  revert a s.
  assert (H0 : forall a s,
    slot_at (e_timetable (initial_engine st tt lessonSlots)) a = Some s ->
    slot_at tt a = Some s \/ qualified st a s) by (intros; by left).
  revert H0.
  induction Hsteps as [E|E E1 E2 Hstep _ IH]; [done|].
  intros H0. apply IH. by eapply engine_step_qualified.
Qed.

(** *** The weekly targets *)

Section counters.

Lemma Qred_inject_Z (z : Z) : Qred (inject_Z z) = inject_Z z.
Proof.
  unfold Qred, inject_Z.
  pose proof (Z.ggcd_gcd z 1) as Hg.
  pose proof (Z.ggcd_correct_divisors z 1) as Hd.
  destruct (Z.ggcd z 1) as [g [r1 r2]]. simpl in *.
  rewrite Z.gcd_1_r in Hg. subst g. destruct Hd as [Hz H1].
  replace r1 with z by lia. replace r2 with 1%Z by lia. done.
Qed.

Lemma nadd_of_Z (a b : Z) : nadd (of_Z a) (of_Z b) = of_Z (a + b).
Proof.
  unfold nadd, of_Z. f_equal.
  rewrite <- (Qred_inject_Z (a + b)). apply Qred_complete.
  by rewrite inject_Z_plus.
Qed.

Lemma nlt_of_Z (a b : Z) : nlt (of_Z a) (of_Z b) = true <-> (a < b)%Z.
Proof.
  unfold nlt, of_Z. rewrite negb_true_iff. split.
  - intros H. destruct (Z.lt_ge_cases a b) as [|Hge]; [done|].
    assert (Hle : Qle_bool (inject_Z b) (inject_Z a) = true).
    { apply Qle_bool_iff. rewrite <- Zle_Qle. lia. }
    congruence.
  - intros Hlt. apply not_true_is_false. intros H.
    apply Qle_bool_iff in H. rewrite <- Zle_Qle in H. lia.
Qed.

Lemma num_or_of_Z (k : Z) : num_or (Some (of_Z k)) (Num 0) = of_Z k.
Proof.
  unfold num_or, of_Z.
  destruct (Qeq_bool (inject_Z k) 0) eqn:He; [|done].
  apply Qeq_bool_eq in He. f_equal.
  change 0%Q with (inject_Z 0) in *.
  assert (Hk : k = 0%Z) by (apply inject_Z_injective; exact He). by rewrite Hk.
Qed.

Lemma incr_lookup (k k' : string) (row : gmap string num) (n : Z) :
  row !! k' = Some (of_Z n) ->
  incr k row !! k' = Some (of_Z (if decide (k = k') then n + 1 else n)).
Proof.
  intros H. unfold incr, num_prop. rewrite lookup_insert.
  destruct (decide (k = k')) as [->|]; [|done].
  rewrite H. cbn [default]. f_equal. apply (nadd_of_Z n 1).
Qed.

End counters.

Section counting.
Context {A : Type} `{EqDecision A}.

Lemma count_le (f g : A -> bool) (l : list A) :
  (forall a, In a l -> g a = true -> f a = true) ->
  (length (List.filter g l) <= length (List.filter f l))%nat.
Proof.
  induction l as [|x l IH]; intros H; simpl; [lia|].
  assert (IH' := IH (fun a Ha => H a (or_intror Ha))).
  destruct (g x) eqn:Hg.
  - rewrite (H x (or_introl eq_refl) Hg). simpl. lia.
  - destruct (f x); simpl; lia.
Qed.

(** A change at one element of a list without repetition changes a count
    by at most one. *)
Lemma count_change (f g : A -> bool) (l : list A) (a0 : A) :
  NoDup l -> (forall a, In a l -> a <> a0 -> g a = true -> f a = true) ->
  (length (List.filter g l) <= length (List.filter f l) + 1)%nat.
Proof.
  induction l as [|x l IH]; intros Hnd H; simpl; [lia|].
  apply NoDup_cons in Hnd as [Hx Hnd].
  destruct (g x) eqn:Hg.
  - assert (Hrest : (length (List.filter g l) <= length (List.filter f l) + 1)%nat)
      by (apply IH; [done|]; intros a Ha; apply H; by right).
    destruct (f x) eqn:Hf; simpl; [lia|].
    (* [x] is the changed element: the rest is unchanged *)
    assert (Hx0 : x = a0).
    { destruct (decide (x = a0)) as [|Hne]; [done|].
      rewrite (H x (or_introl eq_refl) Hne Hg) in Hf. discriminate. }
    subst a0.
    assert (Hle : (length (List.filter g l) <= length (List.filter f l))%nat).
    { apply count_le. intros a Ha. apply H; [by right|].
      intros ->. by apply Hx, list_elem_of_In. }
    lia.
  - assert (Hrest : (length (List.filter g l) <= length (List.filter f l) + 1)%nat)
      by (apply IH; [done|]; intros a Ha; apply H; by right).
    destruct (f x); simpl; lia.
Qed.

Lemma NoDup_map_inj {B} (f : A -> B) (l : list A) (x y : A) :
  NoDup (map f l) -> In x l -> In y l -> f x = f y -> x = y.
Proof.
  induction l as [|z l IH]; simpl; [done|].
  intros Hnd%NoDup_cons Hx Hy Hf. destruct Hnd as [Hz Hnd].
  destruct Hx as [->|Hx], Hy as [->|Hy]; try done.
  - exfalso. apply Hz. rewrite Hf. apply list_elem_of_In, in_map, Hy.
  - exfalso. apply Hz. rewrite <- Hf. apply list_elem_of_In, in_map, Hx.
  - by apply IH.
Qed.

End counting.

Section targets.
Variable st : AppState.
Hypothesis subject_ids : NoDup (map Subject.id (subjects st)).

Lemma holds_subject_store tt d p c s old sid b :
  slot_at tt (mkRef d p c) = Some old ->
  holds_subject (store d p c s tt) sid b
  = if decide (mkRef d p c = b) then bool_decide (subject_id s = Some sid)
    else holds_subject tt sid b.
Proof.
  intros Hold. unfold holds_subject. rewrite (slot_at_store _ _ _ _ _ _ old Hold).
  by destruct (decide _).
Qed.

Lemma engine_step_targets E E' :
  engine_step st E E' -> within_targets st E -> within_targets st E'.
Proof.
  intros [(Htt & _ & _ & Hsf)
         |(ls & a & old & crow & srow & Hel & Hold & _ & Hsrow & Htt & _ & _ & Hsf)]
    Hinv cls subject Hcls Hsubject.
  { rewrite Htt, Hsf. by apply Hinv. }
  destruct (Hinv cls subject Hcls Hsubject) as (row & k & Hrow & Hk & Hbound & Hcount).
  destruct Hel as (_ & _ & _ & teacher & subject_a & cls_a & frow & _ & Hsub_a & _ & _
                   & Hsa & _ & _ & _ & Hfrow & Hlt).
  rewrite Hsf, Htt. unfold lessons_of.
  destruct (decide (LessonSlot.class_id ls = Cls.id cls)) as [Hc|Hc].
  - rewrite Hc in Hsrow, Hfrow. rewrite Hrow in Hsrow, Hfrow.
    injection Hsrow as <-. injection Hfrow as <-.
    exists (incr (Assignment.subject_id a) row),
           (if decide (Assignment.subject_id a = Subject.id subject)
            then k + 1 else k)%Z.
    split; [by rewrite Hc, lookup_insert_eq|].
    split; [by apply incr_lookup|].
    destruct (decide (Assignment.subject_id a = Subject.id subject)) as [He|Hne].
    + assert (subject_a = subject).
      { apply (NoDup_map_inj Subject.id (subjects st)); try done. congruence. }
      subst subject_a.
      rewrite Hk, num_or_of_Z in Hlt. apply nlt_of_Z in Hlt.
      split; [lia|]. intros addrs Hnd Hall.
      specialize (Hcount addrs Hnd Hall). unfold lessons_of in Hcount.
      pose proof (count_change
        (holds_subject (e_timetable E) (Subject.id subject))
        (holds_subject
           (store (LessonSlot.day ls) (LessonSlot.period_id ls)
              (LessonSlot.class_id ls) (assigned_slot a old) (e_timetable E))
           (Subject.id subject))
        addrs (address ls) Hnd) as Hch.
      assert (Hle := Hch ltac:(
        intros b _ Hb; rewrite (holds_subject_store _ _ _ _ _ old) by exact Hold;
        rewrite decide_False by (intros Heq; apply Hb; by rewrite <- Heq);
        done)).
      lia.
    + split; [lia|]. intros addrs Hnd Hall.
      specialize (Hcount addrs Hnd Hall). unfold lessons_of in Hcount.
      pose proof (count_le
        (holds_subject (e_timetable E) (Subject.id subject))
        (holds_subject
           (store (LessonSlot.day ls) (LessonSlot.period_id ls)
              (LessonSlot.class_id ls) (assigned_slot a old) (e_timetable E))
           (Subject.id subject))
        addrs) as Hch.
      assert (Hle := Hch ltac:(
        intros b _; rewrite (holds_subject_store _ _ _ _ _ old) by exact Hold;
        destruct (decide _); [|done];
        cbn; intros Hb%bool_decide_eq_true; congruence)).
      lia.
  - exists row, k. split; [by rewrite lookup_insert_ne|].
    split; [done|]. split; [done|]. intros addrs Hnd Hall.
    specialize (Hcount addrs Hnd Hall). unfold lessons_of in Hcount.
    pose proof (count_le
      (holds_subject (e_timetable E) (Subject.id subject))
      (holds_subject
         (store (LessonSlot.day ls) (LessonSlot.period_id ls)
            (LessonSlot.class_id ls) (assigned_slot a old) (e_timetable E))
         (Subject.id subject))
      addrs) as Hch.
    assert (Hle := Hch ltac:(
      intros b Hb; rewrite (holds_subject_store _ _ _ _ _ old) by exact Hold;
      rewrite decide_False; [done|];
      intros <-; apply Hc; exact (Hall _ Hb))).
    lia.
Qed.

Lemma initial_within_targets tt lessonSlots :
  (forall a s, slot_at tt a = Some s -> subject_id s = None) ->
  within_targets st (initial_engine st tt lessonSlots).
Proof.
  intros Hempty cls subject Hcls Hsubject.
  pose (row0 := fold_left (fun row subject => <[Subject.id subject := Num 0]> row)
                  (subjects st) (∅ : gmap string num)).
  exists row0, 0%Z. split; [|split; [|split]].
  - cbn. unfold initializeSubjectFrequency.
    rewrite (lookup_fold_insert Cls.id (fun _ => row0)).
    assert (Hs : is_Some (find (fun c => String.eqb (Cls.id c) (Cls.id cls))
                            (rev (classes st)))).
    { apply find_rev_existsb, existsb_exists. exists cls.
      split; [done|apply String.eqb_refl]. }
    by destruct Hs as [c ->].
  - unfold row0. rewrite (lookup_fold_insert Subject.id (fun _ => Num 0)).
    assert (Hs : is_Some (find (fun s => String.eqb (Subject.id s) (Subject.id subject))
                            (rev (subjects st)))).
    { apply find_rev_existsb, existsb_exists. exists subject.
      split; [done|apply String.eqb_refl]. }
    by destruct Hs as [s ->].
  - lia.
  - intros addrs _ _. unfold lessons_of. cbn.
    assert (Hnone : List.filter (holds_subject tt (Subject.id subject)) addrs = []).
    { induction addrs as [|b addrs IH]; [done|]. simpl.
      unfold holds_subject at 1.
      destruct (slot_at tt b) as [s|] eqn:Hs; [|exact IH].
      rewrite (Hempty b s Hs). by rewrite bool_decide_eq_false_2. }
    rewrite Hnone. simpl. lia.
Qed.

End targets.

(** X9. The engine keeps to the weekly targets: when the ids of the
    subjects are distinct and the grid holds no subject before
    [assignLessons], then after it the slots of a class of the state hold
    a subject of the state at most as often as its weekly target says (5
    when the target is 0). The slots are counted over any list of distinct
    addresses of the class. *)
Theorem assignLessons_within_targets st cancelled tt lessonSlots tt' notes
    cls subject addrs :
  NoDup (map Subject.id (subjects st)) ->
  (forall a s, slot_at tt a = Some s -> subject_id s = None) ->
  assignLessons st cancelled tt lessonSlots = Normal (tt', notes) ->
  In cls (classes st) -> In subject (subjects st) ->
  NoDup addrs -> (forall a, In a addrs -> ref_class a = Cls.id cls) ->
  (Z.of_nat (lessons_of tt' addrs (Subject.id subject))
   <= Z.max 0 (or_default (Subject.target_lessons_per_week subject) 5))%Z.
Proof.
  intros Hids Hempty Hrun Hcls Hsubject Hnd Hall.
  apply assignLessons_sound in Hrun as (E' & Hsteps & <-).
  assert (Hinv : within_targets st E').
  { pose proof (initial_within_targets st tt lessonSlots Hempty) as H0.
    revert H0. induction Hsteps as [E|E E1 E2 Hstep _ IH]; [done|].
    intros H0. apply IH. by eapply engine_step_targets. }
  destruct (Hinv cls subject Hcls Hsubject) as (row & k & _ & _ & Hbound & Hcount).
  specialize (Hcount addrs Hnd Hall). lia.
Qed.

(** *** The engine returns *)

Lemma cfold_total {A B} (P : B -> Prop) (f : B -> A -> completion B)
    (l : list A) (b : B) :
  (forall b x, In x l -> P b -> exists b', f b x = Normal b' /\ P b') ->
  P b -> exists b', cfold f l b = Normal b' /\ P b'.
Proof.
  revert b. induction l as [|x l IH]; intros b Hstep Hb; simpl; [eauto|].
  destruct (Hstep b x (or_introl eq_refl) Hb) as (b1 & -> & Hb1). simpl.
  apply IH; [|done]. intros b2 y Hy. apply Hstep. by right.
Qed.

Lemma cmap_keyed {A K} (g : A -> completion K) (l : list A) :
  (forall x, In x l -> exists k, g x = Normal k) ->
  exists ys, cmap (fun r => do k <- g r; Normal (k, r)) l = Normal ys
             /\ map snd ys = l.
Proof.
  induction l as [|x l IH]; intros H; simpl; [by exists []|].
  destruct (H x (or_introl eq_refl)) as [k ->]. simpl.
  destruct IH as (ys & -> & Hys); [intros y Hy; apply H; by right|].
  simpl. eexists. split; [done|]. simpl. by rewrite Hys.
Qed.

Lemma fmap_alter_same {A B} (f : A -> B) (g : A -> A) (r : nat) (l : list A) :
  (forall x, f (g x) = f x) -> f <$> alter g r l = f <$> l.
Proof.
  intros H. revert r. induction l as [|x l IH]; intros [|r]; simpl; try done.
  - by rewrite H.
  - f_equal. apply IH.
Qed.

Section totality.
Variable st : AppState.

Lemma find_class_In c cls :
  find_class st c = Some cls -> In cls (classes st) /\ Cls.id cls = c.
Proof.
  unfold find_class. intros H. apply find_some in H as [Hin He].
  by apply String.eqb_eq in He.
Qed.

Lemma find_class_Some cls : In cls (classes st) -> is_Some (find_class st (Cls.id cls)).
Proof.
  intros Hin. unfold find_class.
  destruct (find _ (classes st)) as [c|] eqn:Hf; [eauto|].
  apply (find_none _ _ Hf) in Hin. by rewrite String.eqb_refl in Hin.
Qed.

Lemma teachers_of_level_total c :
  exists l, teachers_of_level st (Some c) = Normal l.
Proof.
  unfold teachers_of_level.
  destruct (cfold_total (fun _ => True)
    (fun kept teacher =>
       match Teacher.class_levels teacher with
       | Some levels =>
           Normal (if existsb (String.eqb (Cls.level c)) levels
                   then kept ++ [teacher] else kept)%list
       | None => Normal kept
       end) (teachers st) []) as (l & Hl & _); [|done|eauto].
  intros kept teacher _ _. destruct (Teacher.class_levels teacher); eauto.
Qed.

Lemma getNeededSubjects_total classId (subjectFrequency : gmap string (gmap string num)) :
  is_Some (subjectFrequency !! classId) ->
  exists l, getNeededSubjects st classId subjectFrequency = Normal l.
Proof.
  intros [row Hrow]. unfold getNeededSubjects.
  match goal with |- context [cfold ?f ?l ?b] =>
    destruct (cfold_total (fun _ => True) f l b) as (cs & -> & _)
  end; [|done|simpl; eauto].
  intros acc subject _ _. unfold nested_row. rewrite Hrow. simpl.
  destruct (nlt _ _); eauto.
Qed.

Lemma findBestAssignment_total ls tt teacherLoad
    (classLoad subjectFrequency : gmap string (gmap string num)) :
  is_Some (find_class st (LessonSlot.class_id ls)) ->
  is_Some (subjectFrequency !! LessonSlot.class_id ls) ->
  is_Some (classLoad !! LessonSlot.class_id ls) ->
  is_Some (tt !! LessonSlot.day ls) ->
  exists r, findBestAssignment st ls tt teacherLoad classLoad subjectFrequency
            = Normal r.
Proof.
  intros [cls Hcls] Hsf [crow Hcrow] [dm Hdm]. unfold findBestAssignment.
  destruct (getNeededSubjects_total _ _ Hsf) as [needed ->]. cbn [cbind].
  destruct (length needed =? 0)%nat; [eauto|].
  rewrite Hcls. destruct (teachers_of_level_total cls) as [avail ->]. cbn [cbind].
  match goal with |- context [cfold ?f ?l ?b] =>
    destruct (cfold_total (fun _ => True) f l b) as (best & -> & _)
  end; [|done|simpl; eauto].
  intros best subject _ _.
  match goal with |- context [cfold ?f ?l ?b] =>
    destruct (cfold_total (fun _ => True) f l b) as (best' & -> & _)
  end; [|done|eauto].
  intros b teacher _ _.
  unfold isTeacherAvailable, period_row. rewrite Hdm. cbn [cbind].
  destruct (negb (negb _)); [eauto|].
  unfold calculateAssignmentScore, nested_row. rewrite Hcrow. cbn [cbind].
  destruct (ngt _ _); eauto.
Qed.

Lemma slot_at_day tt a : is_Some (slot_at tt a) -> is_Some (tt !! ref_day a).
Proof.
  unfold slot_at. destruct (tt !! ref_day a); [eauto|]. by intros [? [=]].
Qed.

Lemma assign_step_total addrs E un r :
  engine_ready st addrs E -> (r < length addrs)%nat ->
  exists E' un',
    assign_step st (E, un) r = Normal (E', un')
    /\ engine_ready st addrs E'
    /\ forall x, In x un' -> In x un \/ x = r.
Proof.
  intros Hready Hr. pose proof Hready as (Hheap & Haddr & Hrows).
  assert (Hls : exists ls, e_heap E !! r = Some ls /\ In (address ls) addrs).
  { rewrite <- Hheap, length_fmap in Hr.
    apply lookup_lt_is_Some in Hr as [ls Hls]. exists ls. split; [done|].
    rewrite <- Hheap. apply list_elem_of_In, list_elem_of_fmap.
    exists ls. split; [done|]. by eapply list_elem_of_lookup_2. }
  destruct Hls as (ls & Hls & Hin).
  destruct (Haddr _ Hin) as [Hcls Hslot]. cbn [address ref_class] in Hcls.
  destruct Hcls as [cls Hcls].
  destruct (find_class_In _ _ Hcls) as [Hclsin Hid].
  destruct (Hrows cls Hclsin) as [Hcl Hsf]. rewrite Hid in Hcl, Hsf.
  unfold assign_step. cbn [fst snd]. rewrite Hls. cbn [cbind].
  destruct (LessonSlot.assigned ls).
  { exists E, un. split; [done|]. split; [exact Hready|auto]. }
  assert (Hbest : exists r,
    findBestAssignment st ls (e_timetable E) (e_teacherLoad E) (e_classLoad E)
      (e_subjectFrequency E) = Normal r).
  { apply findBestAssignment_total;
      [eauto|done|done|by apply (slot_at_day _ (address ls))]. }
  destruct Hbest as [[a|] Hbest]; rewrite Hbest; cbn [cbind].
  - pose proof (findBestAssignment_eligible _ _ _ _ _ _ _ Hbest) as (Hd & Hp & Hc & _).
    destruct Hslot as [old Hold].
    unfold assignLesson. rewrite Hd, Hp, Hc.
    pose proof (get_slot_at _ _ _ Hold) as Hg. cbn [address ref_day ref_period ref_class] in Hg.
    rewrite Hg. cbn [cbind field]. unfold store_slot.
    destruct (slot_at_day _ _ (ex_intro _ old Hold)) as [dm Hdm].
    cbn [address ref_day] in Hdm. rewrite Hdm.
    assert (Hrow : is_Some (dm !! LessonSlot.period_id ls)).
    { unfold slot_at in Hold. cbn [address ref_day ref_period ref_class] in Hold.
      rewrite Hdm in Hold. cbn [mbind option_bind] in Hold.
      destruct (dm !! LessonSlot.period_id ls); [eauto|done]. }
    destruct Hrow as [row ->]. cbn [cbind].
    unfold nested_incr, nested_row.
    destruct Hcl as [crow ->]. destruct Hsf as [srow Hsrow]. rewrite Hsrow.
    cbn [cbind].
    eexists _, _. split; [reflexivity|]. split; [|auto].
    split; [|split].
    + cbn [e_heap]. rewrite fmap_alter_same; [done|]. by intros [].
    + intros b Hb. destruct (Haddr b Hb) as [H1 H2]. split; [done|].
      cbn [e_timetable]. rewrite (slot_at_store _ _ _ _ _ _ old) by exact Hold.
      destruct (decide _); [eauto|done].
    + intros c Hcin. destruct (Hrows c Hcin) as [H1 H2]. cbn.
      rewrite !lookup_insert.
      split; destruct (decide _); eauto.
  - exists E, (un ++ [r])%list. split; [done|]. split; [exact Hready|].
    intros x Hx. apply in_app_or in Hx as [|[<-|[]]]; auto.
Qed.

Lemma sortSlotsByDifficulty_total addrs E slots :
  engine_ready st addrs E -> (forall r, In r slots -> (r < length addrs)%nat) ->
  exists sorted,
    sortSlotsByDifficulty st (e_heap E) slots = Normal sorted
    /\ forall r, In r sorted -> In r slots.
Proof.
  intros (Hheap & Haddr & _) Hvalid. unfold sortSlotsByDifficulty.
  destruct slots as [|r0 [|r1 slots]]; [eauto..|].
  set (l := r0 :: r1 :: slots) in *.
  destruct (cmap_keyed (difficulty_key st (e_heap E)) l) as (keyed & -> & Hkeyed).
  - intros r Hr. specialize (Hvalid r Hr).
    rewrite <- Hheap, length_fmap in Hvalid.
    apply lookup_lt_is_Some in Hvalid as [ls Hls].
    unfold difficulty_key. rewrite Hls.
    assert (Hin : In (address ls) addrs).
    { rewrite <- Hheap. apply list_elem_of_In, list_elem_of_fmap.
      exists ls. split; [done|]. by eapply list_elem_of_lookup_2. }
    destruct (Haddr _ Hin) as [[cls Hcls] _]. cbn [address ref_class] in Hcls.
    rewrite Hcls. unfold getAvailableTeachersForClass.
    destruct (find_class_In _ _ Hcls) as [Hclsin _].
    destruct (find_class_Some _ Hclsin) as [c ->].
    destruct (teachers_of_level_total c) as [avail ->]. simpl. eauto.
  - cbn [cbind]. eexists. split; [reflexivity|].
    intros r Hr. apply in_map_iff in Hr as (y & <- & Hy).
    apply stable_sort_In in Hy. rewrite <- Hkeyed. by apply in_map.
Qed.

Lemma attempt_loop_total addrs cancelled n E slots :
  engine_ready st addrs E -> (forall r, In r slots -> (r < length addrs)%nat) ->
  exists E' slots', attempt_loop st cancelled n E slots = Normal (E', slots').
Proof.
  revert E slots. induction n as [|n IH]; intros E slots Hready Hvalid;
    cbn [attempt_loop]; [eauto|].
  destruct cancelled; [eauto|].
  destruct (sortSlotsByDifficulty_total addrs E slots Hready Hvalid)
    as (sorted & -> & Hsorted). cbn [cbind].
  destruct (cfold_total
    (fun acc : Engine * list nat =>
       engine_ready st addrs (fst acc) /\ forall x, In x (snd acc) -> In x sorted)
    (assign_step st) sorted (E, [])) as ([E1 un] & -> & Hready1 & Hun).
  - intros [E0 un0] r Hr [Hready0 Hun0]. cbn [fst snd] in *.
    destruct (assign_step_total addrs E0 un0 r Hready0) as (E' & un' & -> & H1 & H2);
      [by apply Hvalid, Hsorted|].
    eexists. split; [reflexivity|]. split; [done|]. cbn [snd].
    intros x Hx. destruct (H2 x Hx) as [Hx'|Hx']; [auto|by subst x].
  - split; [done|]. intros x [].
  - cbn [cbind fst snd] in *. destruct (length un =? 0)%nat; [eauto|].
    unfold resetSomeSlots. apply IH.
    + destruct Hready1 as (Hheap & Haddr & Hrows). split; [|by split].
      cbn [e_heap]. rewrite <- Hheap.
      generalize (take (resetCount (length un) (Z.of_nat (maxAttempts - S n))
                          (Z.of_nat maxAttempts)) un).
      intros l. generalize (e_heap E1). induction l as [|r l IHl]; intros h; [done|].
      cbn [fold_left]. rewrite IHl. apply fmap_alter_same. by intros [].
    + intros r Hr. by apply Hvalid, Hsorted, Hun.
Qed.

Lemma assignLessons_total cancelled tt lessonSlots :
  engine_ready st (address <$> lessonSlots) (initial_engine st tt lessonSlots) ->
  exists tt' notes, assignLessons st cancelled tt lessonSlots = Normal (tt', notes).
Proof.
  intros Hready. unfold assignLessons.
  destruct (attempt_loop_total _ cancelled maxAttempts _
              (seq 0 (length lessonSlots)) Hready) as (E' & slots' & Hloop).
  { intros r Hr. apply in_seq in Hr. rewrite length_fmap. lia. }
  unfold initial_engine in Hloop. rewrite Hloop. cbn [cbind]. eauto.
Qed.

Lemma initial_engine_ready tt :
  covers st tt ->
  engine_ready st (address <$> createLessonSlots st)
    (initial_engine st tt (createLessonSlots st)).
Proof.
  intros Hcov. split; [done|]. split.
  - intros a Ha. apply list_elem_of_In, list_elem_of_fmap in Ha as (ls & -> & Hls).
    apply list_elem_of_In, createLessonSlots_In in Hls
      as (d & p & c & Hd & Hp & _ & Hc & ->).
    split; [by apply find_class_Some|by apply Hcov].
  - intros cls Hcls. cbn. unfold initializeClassLoad, initializeSubjectFrequency.
    assert (Hs : is_Some (find (fun c => String.eqb (Cls.id c) (Cls.id cls))
                            (rev (classes st)))).
    { apply find_rev_existsb, existsb_exists. exists cls.
      split; [done|apply String.eqb_refl]. }
    destruct Hs as [c Hc].
    split.
    + rewrite (lookup_fold_insert Cls.id
        (fun _ => fold_left (fun row d => <[d := Num 0]> row) this_days ∅)).
      rewrite Hc. eauto.
    + rewrite (lookup_fold_insert Cls.id
        (fun _ => fold_left (fun row subject => <[Subject.id subject := Num 0]> row)
                    (subjects st) ∅)).
      rewrite Hc. eauto.
Qed.

End totality.

(** X10. The first stages of [generate] never throw: on the initialized
    grid [placeFixedElements] returns, and [assignLessons] on its result
    and the lesson slots of [createLessonSlots] returns a grid. *)
Theorem engine_returns st cancelled :
  exists tt0 tt notes,
    placeFixedElements st (initializeTimetable st) = Normal tt0
    /\ assignLessons st cancelled tt0 (createLessonSlots st) = Normal (tt, notes).
Proof.
  destruct (placeFixedElements_covered st _ (initializeTimetable_covers st))
    as (tt0 & Hfixed & Hmarks).
  assert (Hcov : covers st tt0).
  { intros d p c Hd Hp Hc. apply (marks_is_Some _ _ _ _ Hmarks).
    by apply initializeTimetable_covers. }
  destruct (assignLessons_total st cancelled tt0 (createLessonSlots st)
              (initial_engine_ready st tt0 Hcov)) as (tt & notes & Hrun).
  eauto.
Qed.

(** ** The conflict detection *)

Section detection_facts.
Variables (st : AppState) (tt : Timetable).

Lemma teacherAssignments_real d p ta k bs :
  teacherAssignments_of st tt d p = Normal ta ->
  obj_get ta k = Some bs ->
  k <> "" /\ forall b, In b bs -> real_booking st tt d p k b.
Proof.
  unfold teacherAssignments_of. intros H. revert k bs.
  refine (cfold_inv (fun ta => forall k bs, obj_get ta k = Some bs -> _)
            _ _ _ _ _ _ H).
  - intros acc cls acc' Hcls IH.
    destruct (get_slot tt d p (Cls.id cls)) as [[s|]|e] eqn:Hs; cbn [cbind field];
      [|done..].
    apply get_slot_Some in Hs. unfold id.
    destruct (teacher_id s) as [t|] eqn:Ht; cbn beta iota;
      [|intros [= <-]; exact IH].
    destruct (truthy (Some t) && negb (is_break s)) eqn:Hq;
      [|intros [= <-]; exact IH].
    apply andb_true_iff in Hq as [Htruthy Hbreak].
    apply negb_true_iff in Hbreak.
    intros [= <-] k bs. unfold obj_push. rewrite obj_get_set.
    destruct (String.eqb_spec t k) as [<-|Hne]; [|apply IH].
    intros [= <-]. split.
    + simpl in Htruthy. apply negb_true_iff in Htruthy.
      by apply String.eqb_neq in Htruthy.
    + intros b Hb. apply in_app_or in Hb as [Hb|[<-|[]]].
      * destruct (obj_get acc t) as [bs0|] eqn:Hget; [|done].
        by apply (IH t bs0 Hget).
      * unfold real_booking. cbn. repeat split; eauto.
  - intros k bs. done.
Qed.

Lemma conflicts_of_real d p ta c period :
  teacherAssignments_of st tt d p = Normal ta ->
  In d this_days -> In period (periods st) -> is_lesson period = true ->
  Period.id period = p ->
  In c (conflicts_of d p ta) -> real_conflict st tt c.
Proof.
  intros Hta Hd Hp Hl Hid Hc. unfold conflicts_of in Hc.
  apply in_flat_map in Hc as (k & _ & Hc).
  destruct (obj_get ta k) as [bs|] eqn:Hget; cbn [default] in Hc; [|done].
  unfold id in Hc.
  destruct (Nat.ltb_spec 1 (length bs)) as [Hlen|]; [|by destruct Hc].
  destruct Hc as [<-|[]].
  destruct (teacherAssignments_real d p ta k bs Hta Hget) as [Hk Hbs].
  unfold real_conflict. cbn.
  split; [done|]. split; [done|]. split; [eauto|]. split; [done|].
  split; [lia|exact Hbs].
Qed.

Lemma findAllConflicts_real cs c :
  findAllConflicts st tt = Normal cs -> In c cs -> real_conflict st tt c.
Proof.
  unfold findAllConflicts. intros H. revert c.
  refine (cfold_inv (fun cs => forall c, In c cs -> _) _ _ _ _ _ _ H).
  - intros acc d acc' Hd IH Hday.
    refine (cfold_inv (fun cs => forall c, In c cs -> _) _ _ _ _ _ IH Hday).
    intros acc1 period acc2 Hp IH1.
    destruct (is_lesson period) eqn:Hl; cbn [negb]; [|by intros [= <-]].
    destruct (teacherAssignments_of st tt d (Period.id period)) as [ta|e] eqn:Hta;
      cbn [cbind]; [|done].
    intros [= <-] c Hc. apply in_app_or in Hc as [Hc|Hc]; [by apply IH1|].
    by eapply conflicts_of_real.
  - intros c [].
Qed.

Lemma filter_at_most_one (f : Cls.t -> bool) (l : list Cls.t) :
  NoDup (map Cls.id l) ->
  (forall x y, In x l -> In y l -> f x = true -> f y = true -> Cls.id x = Cls.id y) ->
  (length (List.filter f l) <= 1)%nat.
Proof.
  induction l as [|x l IH]; intros Hnd Hsame; simpl; [lia|].
  apply NoDup_cons in Hnd as [Hx Hnd].
  assert (IH' : (length (List.filter f l) <= 1)%nat).
  { apply IH; [done|]. intros y z Hy Hz. apply Hsame; by right. }
  destruct (f x) eqn:Hfx; [|done].
  assert (Hnone : List.filter f l = []).
  { destruct (List.filter f l) as [|y l'] eqn:Hf; [done|]. exfalso.
    assert (Hy : In y (List.filter f l)) by (rewrite Hf; by left).
    apply filter_In in Hy as [Hy Hfy]. apply Hx.
    rewrite (Hsame x y); [|by left|by right|done|done].
    apply list_elem_of_In, in_map, Hy. }
  rewrite Hnone. simpl. lia.
Qed.

Lemma booked_by_true d p t cls :
  booked_by tt d p t cls = true ->
  exists s, slot_at tt (mkRef d p (Cls.id cls)) = Some s
            /\ teacher_id s = Some t /\ t <> "" /\ is_break s = false.
Proof.
  unfold booked_by. destruct (slot_at tt _) as [s|]; [|done].
  intros H. apply andb_true_iff in H as [H Hb].
  apply andb_true_iff in H as [Ht Htruthy].
  apply bool_decide_eq_true in Ht. rewrite Ht in Htruthy. simpl in Htruthy.
  apply negb_true_iff, String.eqb_neq in Htruthy. apply negb_true_iff in Hb.
  eauto.
Qed.

Lemma exclusive_no_conflicts cs :
  NoDup (map Cls.id (classes st)) -> teacher_exclusive st tt ->
  findAllConflicts st tt = Normal cs -> cs = [].
Proof.
  intros Hnd Hex. unfold findAllConflicts.
  refine (cfold_inv (fun cs => cs = []) _ _ _ _ _ _).
  - intros acc d acc' Hd -> Hday. revert Hday.
    refine (cfold_inv (fun cs => cs = []) _ _ _ _ _ eq_refl).
    intros acc1 period acc2 Hp ->.
    destruct (is_lesson period) eqn:Hl; cbn [negb]; [|by intros [= <-]].
    destruct (teacherAssignments_of st tt d (Period.id period)) as [ta|e] eqn:Hta;
      cbn [cbind]; [|done].
    intros [= <-]. cbn [app]. unfold conflicts_of.
    apply flat_map_eq_nil. intros k _.
    pose proof (teacherAssignments_count tt d (Period.id period) k _ _ _ Hta)
      as Hcount.
    unfold bookings_of in Hcount. cbn [obj_get find fmap option_fmap option_map
      default length] in Hcount.
    assert (Hle : (length (List.filter (booked_by tt d (Period.id period) k)
                             (classes st)) <= 1)%nat).
    { apply filter_at_most_one; [done|].
      intros x y Hx Hy Hbx Hby.
      apply booked_by_true in Hbx as (s1 & Hs1 & Ht1 & Hk & Hb1).
      apply booked_by_true in Hby as (s2 & Hs2 & Ht2 & _ & Hb2).
      destruct (decide (Cls.id x = Cls.id y)) as [|Hne]; [done|]. exfalso.
      apply Hk.
      by apply (Hex d period x y s1 s2 k). }
    destruct (Nat.ltb_spec 1 (length (default [] (obj_get ta k)))); [lia|done].
  - done.
Qed.

End detection_facts.

(** X11. Every conflict [findAllConflicts] reports is one: its teacher
    has a non-empty id and holds, in a lesson period of a day of the week,
    the slots of two or more bookings, each the slot of a class of the
    state as the grid holds it, with that teacher and no break flag. *)
Theorem findAllConflicts_sound st tt cs c :
  findAllConflicts st tt = Normal cs -> In c cs -> real_conflict st tt c.
Proof. apply findAllConflicts_real. Qed.

(** X12. When the ids of the classes are distinct, [findAllConflicts]
    reports nothing exactly when, over the days of the week, the lesson
    periods and the classes of the state, no teacher with a non-empty id
    holds the slots of two classes in one period (break slots apart). *)
Theorem findAllConflicts_complete st tt cs :
  NoDup (map Cls.id (classes st)) ->
  findAllConflicts st tt = Normal cs ->
  cs = [] <-> teacher_exclusive st tt.
Proof.
  intros Hnd Hrun. split.
  - intros ->. by apply findAllConflicts_nil.
  - intros Hex. by eapply exclusive_no_conflicts.
Qed.

(** ** The conflict resolver: relocation *)

Section alternative.
Variables (st : AppState) (tt : Timetable) (originalSlot : Slot) (teacherId : string).

Lemma findAlternativeSlot_day d ps found r :
  cfold (fun found period =>
    match found with
    | Some _ => Normal found
    | None =>
        if negb (is_lesson period) then Normal None
        else if String.eqb d (day originalSlot)
                && String.eqb (Period.id period) (period_id originalSlot)
        then Normal None
        else
          do slot <- get_slot tt d (Period.id period) (class_id originalSlot);
          do slot <- field slot id;
          if negb (truthy (subject_id slot)) && negb (is_break slot) then
            do free <- isTeacherAvailableById (Some teacherId) d (Period.id period)
                         tt (class_id originalSlot);
            Normal (if free then Some (d, Period.id period) else None)
          else Normal None
    end) ps found = Normal r ->
  match found with
  | Some x => r = Some x
  | None =>
      match r with
      | Some (d', p') =>
          d' = d /\ exists period, In period ps /\ Period.id period = p'
                                   /\ vacant_for tt originalSlot teacherId d period
      | None => forall period, In period ps ->
                  ~ vacant_for tt originalSlot teacherId d period
      end
  end.
Proof.
  match goal with |- context [cfold ?f _ _] => set (step := f) end.
  revert found. induction ps as [|period ps IH]; intros found; cbn [cfold].
  - intros [= <-]. destruct found; [done|]. intros ? [].
  - destruct found as [x|]; unfold step at 1; cbv beta iota; cbn [cbind].
    { intros H. apply IH in H. exact H. }
    assert (Hskip : ~ vacant_for tt originalSlot teacherId d period ->
      cfold step ps None = Normal r ->
      match r with
      | Some (d', p') =>
          d' = d /\ exists q, In q (period :: ps) /\ Period.id q = p'
                              /\ vacant_for tt originalSlot teacherId d q
      | None => forall q, In q (period :: ps) ->
                  ~ vacant_for tt originalSlot teacherId d q
      end).
    { intros Hnot H. apply IH in H. destruct r as [[d' p']|].
      - destruct H as (-> & q & Hq & Hid & Hv). split; [done|].
        exists q. split; [by right|done].
      - intros q [<-|Hq]; [done|]. by apply H. }
    destruct (is_lesson period) eqn:Hl; cbn [negb cbind].
    2:{ apply Hskip. intros (Hl' & _). congruence. }
    destruct (String.eqb d (day originalSlot)
              && String.eqb (Period.id period) (period_id originalSlot)) eqn:Hsame;
      cbn [cbind].
    { apply Hskip. intros (_ & Hne & _). apply Hne.
      apply andb_true_iff in Hsame as [H1 H2].
      by apply String.eqb_eq in H1, H2. }
    destruct (get_slot tt d (Period.id period) (class_id originalSlot))
      as [[s|]|e] eqn:Hs; cbn [cbind field]; [|done..].
    unfold id. pose proof (get_slot_Some _ _ _ _ _ Hs) as Hat.
    assert (Hday : is_Some (tt !! d)).
    { unfold get_slot in Hs. destruct (tt !! d); [eauto|done]. }
    destruct Hday as [dm Hdm].
    destruct (isTeacherAvailableById_defined tt d (Period.id period)
                (Some teacherId) (class_id originalSlot) dm Hdm)
      as (free & Hfree & Hheld).
    destruct (negb (truthy (subject_id s)) && negb (is_break s)) eqn:Hq;
      cbn [cbind].
    2:{ apply Hskip. intros (_ & _ & s' & Hs' & Hsub & Hbr & _).
        rewrite Hat in Hs'. injection Hs' as <-.
        rewrite Hsub, Hbr in Hq. done. }
    apply andb_true_iff in Hq as [Hsub Hbr].
    apply negb_true_iff in Hsub, Hbr.
    rewrite Hfree. cbn [cbind]. destruct free.
    + intros H. apply IH in H. subst r. split; [done|].
      exists period. split; [by left|]. split; [done|].
      split; [done|]. split.
      * intros [H1 H2]. apply andb_false_iff in Hsame as [H|H];
          apply String.eqb_neq in H; done.
      * exists s. repeat split; try done. intros Hh. apply Hheld in Hh. done.
    + apply Hskip. intros (_ & _ & s' & _ & _ & _ & Hfree'). apply Hfree'.
      by apply Hheld.
Qed.

Lemma findAlternativeSlot_found r :
  findAlternativeSlot st originalSlot teacherId tt = Normal r ->
  match r with
  | Some (d, p) =>
      In d this_days
      /\ exists period, In period (periods st) /\ Period.id period = p
                        /\ vacant_for tt originalSlot teacherId d period
  | None =>
      forall d period, In d this_days -> In period (periods st) ->
        ~ vacant_for tt originalSlot teacherId d period
  end.
Proof.
  unfold findAlternativeSlot.
  assert (Hgen : forall ds found r,
    cfold (fun found d =>
      cfold (fun found period =>
        match found with
        | Some _ => Normal found
        | None =>
            if negb (is_lesson period) then Normal None
            else if String.eqb d (day originalSlot)
                    && String.eqb (Period.id period) (period_id originalSlot)
            then Normal None
            else
              do slot <- get_slot tt d (Period.id period) (class_id originalSlot);
              do slot <- field slot id;
              if negb (truthy (subject_id slot)) && negb (is_break slot) then
                do free <- isTeacherAvailableById (Some teacherId) d
                             (Period.id period) tt (class_id originalSlot);
                Normal (if free then Some (d, Period.id period) else None)
              else Normal None
        end) (periods st) found) ds found = Normal r ->
    match found with
    | Some x => r = Some x
    | None =>
        match r with
        | Some (d, p) =>
            In d ds
            /\ exists period, In period (periods st) /\ Period.id period = p
                              /\ vacant_for tt originalSlot teacherId d period
        | None =>
            forall d period, In d ds -> In period (periods st) ->
              ~ vacant_for tt originalSlot teacherId d period
        end
    end).
  { induction ds as [|d ds IH]; intros found r0; cbn [cfold].
    - intros [= <-]. destruct found; [done|]. intros ? ? [].
    - destruct (cfold _ (periods st) found) as [found1|e] eqn:Hday; cbn [cbind];
        [|done].
      apply findAlternativeSlot_day in Hday. intros Hrest. apply IH in Hrest.
      destruct found as [x|].
      + subst found1. exact Hrest.
      + destruct found1 as [[d1 p1]|].
        * subst r0. destruct Hday as (-> & period & Hp & Hid & Hv).
          split; [by left|]. eauto.
        * destruct r0 as [[d2 p2]|].
          -- destruct Hrest as (Hd2 & Hrest). split; [by right|done].
          -- intros d' period [<-|Hd'] Hp; [by apply Hday|by apply Hrest]. }
  intros H. apply (Hgen this_days None r H).
Qed.

End alternative.

(** X13. [findAlternativeSlot] finds a place exactly when there is one:
    what it returns is a day of the week and a lesson period, other than
    the slot's own place, where the slot of the class holds no subject and
    is no break and where no other class holds the teacher; it returns
    [null] only when no day and period of the state is such a place. *)
Theorem findAlternativeSlot_spec st tt originalSlot teacherId r :
  findAlternativeSlot st originalSlot teacherId tt = Normal r ->
  match r with
  | Some (d, p) =>
      In d this_days
      /\ exists period, In period (periods st) /\ Period.id period = p
                        /\ vacant_for tt originalSlot teacherId d period
  | None =>
      forall d period, In d this_days -> In period (periods st) ->
        ~ vacant_for tt originalSlot teacherId d period
  end.
Proof. apply findAlternativeSlot_found. Qed.

Section relocation.
Variable st : AppState.

Lemma store_slot_at tt d p c s old :
  slot_at tt (mkRef d p c) = Some old ->
  store_slot tt d p c s = Normal (store d p c s tt).
Proof.
  unfold slot_at, store_slot. cbn [ref_day ref_period ref_class].
  destruct (tt !! d) as [dm|]; [|done]. cbn [mbind option_bind].
  by destruct (dm !! p).
Qed.

Lemma store_slot_Normal tt d p c s tt' :
  store_slot tt d p c s = Normal tt' -> tt' = store d p c s tt.
Proof.
  unfold store_slot. destruct (tt !! d) as [dm|]; [|done].
  destruct (dm !! p); [|done]. by intros [= <-].
Qed.

(** What a successful run of the loop over the bookings did. *)
Lemma relocate_first_true teacherId d p bookings tt tt' :
  relocate_first st teacherId d p bookings tt = Normal (true, tt') ->
  exists b d' p',
    In b bookings
    /\ findAlternativeSlot st (Booking.slot b) teacherId tt = Normal (Some (d', p'))
    /\ tt' = store d p (Booking.classId b) (vacated d p (Booking.classId b))
               (store d' p' (Booking.classId b)
                  (relocated d' p' (Booking.slot b)) tt).
Proof.
  induction bookings as [|b bookings IH]; cbn [relocate_first]; [done|].
  destruct (findAlternativeSlot st (Booking.slot b) teacherId tt)
    as [[[d' p']|]|e] eqn:Halt; cbn [cbind]; [| |done].
  - destruct (store_slot tt d' p' _ _) as [tt1|e] eqn:H1; cbn [cbind]; [|done].
    destruct (store_slot tt1 d p _ _) as [tt2|e] eqn:H2; cbn [cbind]; [|done].
    intros [= <-]. apply store_slot_Normal in H1, H2. subst tt1 tt2.
    exists b, d', p'. split; [by left|done].
  - intros H. apply IH in H as (b' & d' & p' & Hin & Halt' & ->).
    exists b', d', p'. split; [by right|done].
Qed.

End relocation.

(** X14. A successful relocation moves one lesson: on a grid whose slots
    carry their own addresses, and for a conflict as the detection reports
    it, [resolveTeacherDoubleBooking] returning [true] has taken a booking
    other than the first, stored its subject, teacher and room in a slot
    of the same class that held no subject, was no break and where no
    other class held the teacher, reset the slot of the conflict, and
    changed no other slot. *)
Theorem relocation_moves_one_lesson st tt c tt' :
  well_addressed tt -> real_conflict st tt c ->
  resolveTeacherDoubleBooking st c tt = Normal (true, tt') ->
  exists b d' period,
    let from := mkRef (Conflict.day c) (Conflict.periodId c) (Booking.classId b) in
    let to := mkRef d' (Period.id period) (Booking.classId b) in
    In b (tail (Conflict.assignments c))
    /\ In d' this_days /\ In period (periods st)
    /\ vacant_for tt (Booking.slot b) (Conflict.teacherId c) d' period
    /\ slot_at tt' from = Some (vacated (Conflict.day c) (Conflict.periodId c)
                                  (Booking.classId b))
    /\ slot_at tt' to = Some (relocated d' (Period.id period) (Booking.slot b))
    /\ forall a, a <> from -> a <> to -> slot_at tt' a = slot_at tt a.
Proof.
  intros Hwell (_ & _ & _ & _ & _ & Hreal) Hrun.
  unfold resolveTeacherDoubleBooking in Hrun.
  apply relocate_first_true in Hrun as (b & d' & p' & Hin & Halt & ->).
  apply findAlternativeSlot_found in Halt as (Hd' & period & Hp & <- & Hv).
  exists b, d', period. cbv zeta.
  split; [done|]. split; [done|]. split; [done|]. split; [done|].
  assert (Hb : In b (Conflict.assignments c)).
  { destruct (Conflict.assignments c); [done|by right]. }
  destruct (Hreal b Hb) as (_ & Hfrom & _).
  destruct (Hwell _ _ Hfrom) as (Hday & Hper & Hcls).
  cbn [ref_day ref_period ref_class] in Hday, Hper, Hcls.
  destruct Hv as (_ & Hne & ts & Hts & _). rewrite Hcls in Hts.
  assert (Hdiff : mkRef d' (Period.id period) (Booking.classId b)
                  <> mkRef (Conflict.day c) (Conflict.periodId c) (Booking.classId b)).
  { intros [= -> Hp']. apply Hne. by rewrite Hday, Hper. }
  assert (Hfrom1 : slot_at (store d' (Period.id period) (Booking.classId b)
                              (relocated d' (Period.id period) (Booking.slot b)) tt)
                     (mkRef (Conflict.day c) (Conflict.periodId c) (Booking.classId b))
                   = Some (Booking.slot b)).
  { rewrite (slot_at_store _ _ _ _ _ _ ts Hts). by rewrite decide_False. }
  split; [|split].
  - rewrite (slot_at_store _ _ _ _ _ _ _ Hfrom1). by rewrite decide_True.
  - rewrite (slot_at_store _ _ _ _ _ _ _ Hfrom1).
    rewrite decide_False by (intros H; by apply Hdiff).
    rewrite (slot_at_store _ _ _ _ _ _ ts Hts). by rewrite decide_True.
  - intros a Ha1 Ha2.
    rewrite (slot_at_store _ _ _ _ _ _ _ Hfrom1).
    rewrite decide_False by (intros H; by apply Ha1).
    rewrite (slot_at_store _ _ _ _ _ _ ts Hts).
    by rewrite decide_False by (intros H; by apply Ha2).
Qed.

(** ** The stages of [generate] on the grid *)

Section readiness.
Variable st : AppState.

Lemma raw_slot_at (tt : Timetable) d p c dm row s :
  tt !! d = Some dm -> dm !! p = Some row -> row !! c = Some s ->
  slot_at tt (mkRef d p c) = Some s.
Proof.
  intros Hd Hp Hc. unfold slot_at. cbn [ref_day ref_period ref_class].
  rewrite Hd. cbn [mbind option_bind]. rewrite Hp. done.
Qed.

Lemma well_addressed_init : well_addressed (initializeTimetable st).
Proof.
  intros a s. rewrite slot_at_initializeTimetable. unfold initial_slot.
  destruct (is_day _ && has_class _ _); [|done].
  destruct (last_period st (ref_period a)); [|done]. by intros [= <-].
Qed.

Lemma marks_well_addressed M tt tt' :
  marks M tt tt' -> well_addressed tt -> well_addressed tt'.
Proof.
  intros Hm Hw a s. rewrite (Hm a). destruct (M a); [|apply Hw].
  destruct (slot_at tt a) as [s0|] eqn:Hs; [|done].
  intros [= <-]. by apply (Hw a s0).
Qed.

Lemma marks_covers M tt tt' : marks M tt tt' -> covers st tt -> covers st tt'.
Proof.
  intros Hm Hc d p c Hd Hp Hcls. apply (marks_is_Some _ _ _ _ Hm). by apply Hc.
Qed.

Lemma store_ready tt d p c s old :
  slot_at tt (mkRef d p c) = Some old ->
  day s = d -> period_id s = p -> class_id s = c ->
  grid_ready st tt -> grid_ready st (store d p c s tt).
Proof.
  intros Hold Hd Hp Hc [Hcov Hwell]. split.
  - intros d' p' c' Hd' Hp' Hc'. rewrite (slot_at_store _ _ _ _ _ _ old Hold).
    destruct (decide _); [eauto|by apply Hcov].
  - intros a s'. rewrite (slot_at_store _ _ _ _ _ _ old Hold).
    destruct (decide _) as [<-|]; [|apply Hwell].
    by intros [= <-].
Qed.

Lemma engine_step_ready E E' :
  engine_step st E E' ->
  grid_ready st (e_timetable E) -> grid_ready st (e_timetable E').
Proof.
  intros [(-> & _)|(ls & a & old & crow & srow & _ & Hold & _ & _ & -> & _)];
    [done|].
  intros Hready. destruct (proj2 Hready _ _ Hold) as (Hd & Hp & Hc).
  by apply (store_ready _ _ _ _ _ old).
Qed.

Lemma steps_ready E E' :
  rtc (engine_step st) E E' ->
  grid_ready st (e_timetable E) -> grid_ready st (e_timetable E').
Proof.
  induction 1 as [E|E E1 E2 Hstep _ IH]; [done|].
  intros H. apply IH. by eapply engine_step_ready.
Qed.

Lemma steps_exclusive E E' :
  rtc (engine_step st) E E' ->
  no_teacher_twice (e_timetable E) -> no_teacher_twice (e_timetable E').
Proof.
  induction 1 as [E|E E1 E2 Hstep _ IH]; [done|].
  intros H. apply IH. by eapply engine_step_exclusive.
Qed.

(** The grid after the first stages of [generate]. *)
Lemma engine_grid cancelled tt0 tt notes lessonSlots :
  placeFixedElements st (initializeTimetable st) = Normal tt0 ->
  assignLessons st cancelled tt0 lessonSlots = Normal (tt, notes) ->
  grid_ready st tt /\ no_teacher_twice tt.
Proof.
  intros Hfixed Hrun.
  destruct (placeFixedElements_covered st _ (initializeTimetable_covers st))
    as (tt0' & Hfixed' & Hmarks).
  rewrite Hfixed in Hfixed'. injection Hfixed' as <-.
  apply assignLessons_sound in Hrun as (E' & Hsteps & <-).
  split.
  - apply (steps_ready _ _ Hsteps). split.
    + apply (marks_covers _ _ _ Hmarks), initializeTimetable_covers.
    + apply (marks_well_addressed _ _ _ Hmarks), well_addressed_init.
  - apply (steps_exclusive _ _ Hsteps). cbn.
    intros d p dm row c1 c2 s1 s2 t Hd Hp H1 _ _ Ht1 _.
    pose proof (raw_slot_at _ _ _ _ _ _ _ Hd Hp H1) as Hs.
    rewrite (Hmarks _) in Hs.
    assert (Hnone : exists s0, slot_at (initializeTimetable st) (mkRef d p c1) = Some s0
                               /\ teacher_id s1 = teacher_id s0).
    { destruct (fixed st _); [|eauto].
      destruct (slot_at (initializeTimetable st) _) as [s0|]; [|done].
      injection Hs as <-. eauto. }
    destruct Hnone as (s0 & Hs0 & Heq).
    apply initializeTimetable_empty in Hs0 as [_ Hs0]. congruence.
Qed.

Lemma exclusive_of_no_teacher_twice tt :
  no_teacher_twice tt -> teacher_exclusive st tt.
Proof.
  intros Hex d period cls1 cls2 s1 s2 t _ _ _ _ _ Hne Hs1 Hs2 _ _ Ht1 Ht2.
  exfalso. unfold slot_at in Hs1, Hs2. cbn [ref_day ref_period ref_class] in *.
  destruct (tt !! d) as [dm|] eqn:Hd; [|done]. cbn [mbind option_bind] in *.
  destruct (dm !! Period.id period) as [row|] eqn:Hp; [|done].
  cbn [mbind option_bind] in *.
  by apply (Hex d (Period.id period) dm row (Cls.id cls1) (Cls.id cls2) s1 s2 t).
Qed.

Lemma findAllConflicts_total tt :
  covers st tt -> exists cs, findAllConflicts st tt = Normal cs.
Proof.
  intros Hcov. unfold findAllConflicts.
  match goal with |- context [cfold ?f ?l ?b] =>
    destruct (cfold_total (fun _ => True) f l b) as (cs & -> & _)
  end; [|done|eauto].
  intros acc d Hd _.
  match goal with |- context [cfold ?f ?l ?b] =>
    destruct (cfold_total (fun _ => True) f l b) as (cs & -> & _)
  end; [|done|eauto].
  intros acc1 period Hp _. destruct (negb (is_lesson period)); [eauto|].
  unfold teacherAssignments_of.
  match goal with |- context [cfold ?f ?l ?b] =>
    destruct (cfold_total (fun _ => True) f l b) as (ta & -> & _)
  end; [|done|cbn [cbind]; eauto].
  intros ta cls Hcls _.
  destruct (Hcov d period cls Hd Hp Hcls) as [s Hs].
  pose proof (get_slot_at _ _ _ Hs) as Hg.
  cbn [ref_day ref_period ref_class] in Hg. rewrite Hg. cbn [cbind field].
  unfold id. destruct (teacher_id s); [|eauto].
  destruct (truthy _ && negb _); eauto.
Qed.

Lemma findAlternativeSlot_total tt originalSlot teacherId cls :
  covers st tt -> In cls (classes st) -> Cls.id cls = class_id originalSlot ->
  exists r, findAlternativeSlot st originalSlot teacherId tt = Normal r.
Proof.
  intros Hcov Hcls Hid. unfold findAlternativeSlot.
  match goal with |- context [cfold ?f ?l ?b] =>
    destruct (cfold_total (fun _ => True) f l b) as (r & -> & _)
  end; [|done|eauto].
  intros found d Hd _.
  match goal with |- context [cfold ?f ?l ?b] =>
    destruct (cfold_total (fun _ => True) f l b) as (r & -> & _)
  end; [|done|eauto].
  intros found1 period Hp _. destruct found1; [eauto|].
  destruct (negb (is_lesson period)); [eauto|].
  destruct (_ && _); [eauto|].
  destruct (Hcov d period cls Hd Hp Hcls) as [s Hs]. rewrite Hid in Hs.
  pose proof (get_slot_at _ _ _ Hs) as Hg.
  cbn [ref_day ref_period ref_class] in Hg. rewrite Hg. cbn [cbind field].
  unfold id. destruct (_ && _); [|eauto].
  destruct (slot_at_day _ _ (ex_intro _ s Hs)) as [dm Hdm].
  cbn [ref_day] in Hdm.
  destruct (isTeacherAvailableById_defined tt d (Period.id period)
              (Some teacherId) (class_id originalSlot) dm Hdm) as (free & -> & _).
  cbn [cbind]. eauto.
Qed.

Lemma relocate_first_total teacherId d p period bookings tt :
  grid_ready st tt -> In d this_days -> In period (periods st) ->
  Period.id period = p ->
  (forall b, In b bookings ->
     (exists cls, In cls (classes st) /\ Cls.id cls = Booking.classId b)
     /\ class_id (Booking.slot b) = Booking.classId b) ->
  exists ok tt',
    relocate_first st teacherId d p bookings tt = Normal (ok, tt')
    /\ grid_ready st tt'.
Proof.
  intros Hready Hd Hp Hid. induction bookings as [|b bookings IH]; intros Hstatic;
    cbn [relocate_first]; [eauto|].
  destruct (Hstatic b (or_introl eq_refl)) as [(cls & Hcls & Hcid) Hown].
  destruct (findAlternativeSlot_total tt (Booking.slot b) teacherId cls)
    as [r Halt]; [apply Hready|done|congruence|].
  rewrite Halt. cbn [cbind]. destruct r as [[d' p']|].
  - apply findAlternativeSlot_found in Halt
      as (Hd' & period' & Hp' & <- & _ & _ & ts & Hts & _).
    rewrite Hown in Hts.
    rewrite (store_slot_at _ _ _ _ _ ts Hts). cbn [cbind].
    assert (Hready1 : grid_ready st
      (store d' (Period.id period') (Booking.classId b)
         (mkSlot d' (Period.id period') (class_id (Booking.slot b))
            (subject_id (Booking.slot b)) (teacher_id (Booking.slot b))
            (room_id (Booking.slot b)) (is_break (Booking.slot b))) tt)).
    { by apply (store_ready _ _ _ _ _ ts). }
    destruct (proj1 Hready1 d period cls Hd Hp Hcls) as [old Hold].
    rewrite Hid, Hcid in Hold.
    rewrite (store_slot_at _ _ _ _ _ old Hold). cbn [cbind].
    eexists _, _. split; [reflexivity|].
    by apply (store_ready _ _ _ _ _ old).
  - apply IH. intros b' Hb'. apply Hstatic. by right.
Qed.

Lemma resolveSpecificConflict_total c tt :
  grid_ready st tt -> conflict_static st c ->
  exists ok tt',
    resolveSpecificConflict st c tt = Normal (ok, tt') /\ grid_ready st tt'.
Proof.
  intros Hready (Hd & (period & Hp & Hid) & Hstatic).
  unfold resolveSpecificConflict, resolveTeacherDoubleBooking.
  destruct (String.eqb _ _); [|eauto].
  apply (relocate_first_total _ _ _ period); try done.
  intros b Hb. apply Hstatic.
  destruct (Conflict.assignments c); [done|by right].
Qed.

Lemma real_conflict_static tt c :
  well_addressed tt -> real_conflict st tt c -> conflict_static st c.
Proof.
  intros Hwell (_ & Hd & (period & Hp & _ & Hid) & _ & _ & Hreal).
  split; [done|]. split; [eauto|].
  intros b Hb. destruct (Hreal b Hb) as (Hcls & Hs & _).
  split; [done|]. by destruct (Hwell _ _ Hs) as (_ & _ & ?).
Qed.

Lemma resolve_loop_total cancelled n acc tt :
  grid_ready st tt ->
  exists r tt', resolve_loop st cancelled n acc tt = Normal (r, tt')
                /\ grid_ready st tt'.
Proof.
  revert acc tt. induction n as [|n IH]; intros acc tt Hready;
    cbn [resolve_loop]; [eauto|].
  destruct cancelled; [eauto|].
  destruct (findAllConflicts_total tt (proj1 Hready)) as [cs Hcs].
  rewrite Hcs. cbn [cbind].
  destruct (length cs =? 0)%nat; [eauto|].
  destruct (cfold_total (fun acc : nat * Timetable => grid_ready st (snd acc))
              (resolve_step st false) cs (0%nat, tt)) as ([k tt1] & -> & Hready1).
  - intros [k0 tt0] c Hc Hready0. cbn [snd] in Hready0.
    unfold resolve_step. cbn [fst snd].
    destruct (resolveSpecificConflict_total c tt0 Hready0) as (ok & tt' & -> & Hr).
    { apply (real_conflict_static tt); [apply Hready|].
      by apply (findAllConflicts_real st tt cs). }
    cbn [cbind fst snd]. eauto.
  - done.
  - cbn [cbind fst snd] in *. destruct (k =? 0)%nat; [eauto|]. by apply IH.
Qed.

Lemma calculateTeacherLoads_total tt :
  (forall d, In d this_days -> is_Some (tt !! d)) ->
  exists loads, calculateTeacherLoads st tt = Normal loads.
Proof.
  intros Hdays. unfold calculateTeacherLoads.
  match goal with |- context [cfold ?f ?l ?b] =>
    destruct (cfold_total (fun _ => True) f l b) as (r & -> & _)
  end; [|done|eauto].
  intros loads d Hd _.
  match goal with |- context [cfold ?f ?l ?b] =>
    destruct (cfold_total (fun _ => True) f l b) as (r & -> & _)
  end; [|done|eauto].
  intros loads1 period _ _. destruct (is_lesson period); [|eauto].
  unfold period_row. destruct (Hdays d Hd) as [dm ->]. cbn [cbind]. eauto.
Qed.

End readiness.

(** X15. The resolver has nothing to do after the engine: when the ids of
    the classes are distinct, [resolveConflicts] on the grid the first
    stages of [generate] produce resolves 0 conflicts and leaves the grid
    as it is. *)
Theorem resolver_idle_after_engine st cancelled tt0 tt notes :
  NoDup (map Cls.id (classes st)) ->
  placeFixedElements st (initializeTimetable st) = Normal tt0 ->
  assignLessons st cancelled tt0 (createLessonSlots st) = Normal (tt, notes) ->
  resolveConflicts st cancelled tt = Normal (0%nat, tt).
Proof.
  intros Hnd Hfixed Hrun.
  destruct (engine_grid st _ _ _ _ _ Hfixed Hrun) as [[Hcov _] Hex].
  unfold resolveConflicts, maxIterations. cbn [resolve_loop].
  destruct cancelled; [done|].
  destruct (findAllConflicts_total st tt Hcov) as [cs Hcs].
  rewrite Hcs. cbn [cbind].
  rewrite (exclusive_no_conflicts st tt cs Hnd
             (exclusive_of_no_teacher_twice st tt Hex) Hcs).
  done.
Qed.

(** ** [generate] *)

Lemma validateData_true st notes :
  validateData st = (true, notes) -> periods st <> [] /\ classes st <> [].
Proof.
  unfold validateData.
  destruct (periods st) as [|p ps]; [done|].
  destruct (subjects st) as [|s ss]; [done|].
  destruct (classes st) as [|c cs]; [done|]. done.
Qed.

(** X16. A run of [generate] during which [cancelGeneration] is not
    called never returns a grid, and what it ends in is determined by the
    state: a run that is not refused because another is in progress
    throws the error of invalid data when [validateData] refuses the
    state, and otherwise gets through the engine and the resolver and
    throws the [TypeError] of the call of [reduce] in
    [balanceTeacherWorkload]. *)
Theorem generate_outcome st S :
  fst (generate st S)
  = if isGenerating S then Throw (Error "Generation already in progress")
    else if fst (validateData st)
    then Throw (TypeError "teacherLoads.reduce is not a function")
    else Throw (Error "Invalid data. Please check your setup.").
Proof.
  unfold generate. destruct (isGenerating S); [done|].
  destruct (validateData st) as [valid shown] eqn:Hvalid. cbn [fst].
  destruct valid; cbn [negb]; [|done].
  apply validateData_true in Hvalid as [Hperiods Hclasses].
  destruct (placeFixedElements_covered st _ (initializeTimetable_covers st))
    as (tt0 & -> & Hmarks).
  assert (Hcov : covers st tt0)
    by (apply (marks_covers _ _ _ _ Hmarks), initializeTimetable_covers).
  destruct (assignLessons_total st false tt0 (createLessonSlots st)
              (initial_engine_ready st tt0 Hcov)) as (tt & notes & Hrun).
  rewrite Hrun.
  assert (Hready : grid_ready st tt).
  { apply assignLessons_sound in Hrun as (E' & Hsteps & <-).
    apply (steps_ready _ _ _ Hsteps). split; [done|].
    apply (marks_well_addressed _ _ _ Hmarks), well_addressed_init. }
  unfold optimizeTimetable, resolveConflicts.
  destruct (resolve_loop_total st false maxIterations 0 tt Hready)
    as (r & tt1 & -> & [Hcov1 _]).
  cbn [cbind snd]. unfold balanceTeacherWorkload.
  destruct (calculateTeacherLoads_total st tt1) as [loads ->]; [|done].
  intros d Hd.
  destruct (periods st) as [|p ps] eqn:Hps; [done|].
  destruct (classes st) as [|c cs] eqn:Hcs; [done|].
  apply (slot_at_day _ (mkRef d (Period.id p) (Cls.id c))).
  apply Hcov1; [done|rewrite Hps; by left|rewrite Hcs; by left].
Qed.

(** ** Manual move: missing slots and teacher exclusivity *)

Section move_edges.
Implicit Types (tt : Timetable) (from to : SlotRef).

(** The ways [moveLesson] completes. *)
Lemma moveLesson_cases tt from to :
  match moveLesson tt from to with
  | Throw _ =>
      (tt !! ref_day from ≫= (.!! ref_period from)) = None
      \/ slot_at tt to = None
      \/ (slot_at tt from = None
          /\ exists ts, slot_at tt to = Some ts /\ is_break ts = false
                        /\ truthy (subject_id ts) = false)
  | Normal (r, tt') =>
      is_Some (tt !! ref_day from ≫= (.!! ref_period from))
      /\ exists ts,
           slot_at tt to = Some ts
           /\ ((success r = false /\ tt' = tt
                /\ (is_break ts = true \/ truthy (subject_id ts) = true
                    \/ exists fs, slot_at tt from = Some fs
                         /\ teacher_held_elsewhere tt (ref_day to) (ref_period to)
                              (teacher_id fs) (ref_class from)))
               \/ (r = moved_ok /\ is_break ts = false
                   /\ truthy (subject_id ts) = false
                   /\ exists fs, slot_at tt from = Some fs
                        /\ tt' = moved tt from to fs
                        /\ ~ teacher_held_elsewhere tt (ref_day to) (ref_period to)
                             (teacher_id fs) (ref_class from)))
  end.
Proof.
  destruct (tt !! ref_day from ≫= (.!! ref_period from)) as [cmf|] eqn:Hrow.
  2:{ unfold moveLesson, get_slot.
      destruct (tt !! ref_day from) as [dm|]; cbn [cbind]; [|by left].
      cbn [mbind option_bind] in Hrow. rewrite Hrow. cbn [cbind]. by left. }
  assert (Hfrom : get_slot tt (ref_day from) (ref_period from) (ref_class from)
                  = Normal (slot_at tt from)).
  { unfold get_slot, slot_at. destruct (tt !! ref_day from) as [dm|]; [|done].
    cbn [mbind option_bind] in *. by rewrite Hrow. }
  destruct (slot_at tt to) as [ts|] eqn:Hto.
  2:{ unfold moveLesson. rewrite Hfrom. cbn [cbind].
      unfold get_slot, slot_at in *.
      destruct (tt !! ref_day to) as [dm|]; cbn [cbind]; [|by right; left].
      cbn [mbind option_bind] in Hto.
      destruct (dm !! ref_period to) as [cm|]; cbn [cbind]; [|by right; left].
      cbn [mbind option_bind] in Hto. rewrite Hto. cbn [cbind field].
      by right; left. }
  destruct (slot_at tt from) as [fs|] eqn:Hfs.
  - destruct (moveLesson_eval tt from to fs ts Hfs Hto) as (free & _ & Hheld & ->).
    destruct (is_break ts) eqn:Hb.
    { split; [eauto|]. exists ts. split; [done|]. left. auto. }
    destruct (truthy (subject_id ts)) eqn:Hs.
    { split; [eauto|]. exists ts. split; [done|]. left. auto. }
    destruct free; cbn [negb].
    + split; [eauto|]. exists ts. split; [done|]. right.
      repeat split; try done. exists fs. repeat split; try done.
      intros H. by apply Hheld in H.
    + split; [eauto|]. exists ts. split; [done|]. left.
      repeat split; try done. right; right. exists fs. split; [done|].
      by apply Hheld.
  - unfold moveLesson. rewrite Hfrom, (get_slot_at _ _ _ Hto). cbn [cbind field].
    destruct (is_break ts) eqn:Hb.
    { split; [eauto|]. exists ts. split; [done|]. left. auto. }
    destruct (truthy (subject_id ts)) eqn:Hs.
    { split; [eauto|]. exists ts. split; [done|]. left. auto. }
    cbn [cbind]. right; right. split; [done|]. eauto.
Qed.

Lemma no_teacher_twice_slot_at tt :
  no_teacher_twice tt
  <-> forall d p c1 c2 s1 s2 t,
        slot_at tt (mkRef d p c1) = Some s1 -> slot_at tt (mkRef d p c2) = Some s2 ->
        c1 <> c2 -> teacher_id s1 = Some t -> teacher_id s2 = Some t -> False.
Proof.
  split.
  - intros Hex d p c1 c2 s1 s2 t Hs1 Hs2.
    unfold slot_at in Hs1, Hs2. cbn [ref_day ref_period ref_class] in *.
    destruct (tt !! d) as [dm|] eqn:Hd; [|done]. cbn [mbind option_bind] in *.
    destruct (dm !! p) as [row|] eqn:Hp; [|done]. cbn [mbind option_bind] in *.
    by apply (Hex d p dm row c1 c2 s1 s2 t).
  - intros Hex d p dm row c1 c2 s1 s2 t Hd Hp H1 H2.
    apply (Hex d p c1 c2 s1 s2 t); by eapply raw_slot_at.
Qed.

End move_edges.

(** X17. [moveLesson] throws exactly when the day or the period of the
    source is absent from the grid, or the target has no slot, or the
    source has no slot while the target is a slot that is neither a break
    nor occupied; a source without a slot is not noticed when the target
    is refused first. *)
Theorem moveLesson_throws_iff tt from to :
  (exists e, moveLesson tt from to = Throw e)
  <-> (tt !! ref_day from ≫= (.!! ref_period from)) = None
      \/ slot_at tt to = None
      \/ (slot_at tt from = None
          /\ exists ts, slot_at tt to = Some ts /\ is_break ts = false
                        /\ truthy (subject_id ts) = false).
Proof.
  pose proof (moveLesson_cases tt from to) as H.
  destruct (moveLesson tt from to) as [[r tt']|e].
  - split; [by intros [e [=]]|].
    destruct H as ([cm Hrow] & ts & Hto & Hcase).
    intros [Hnone|[Hnone|(Hnone & ts' & Hto' & Hb & Hs)]]; exfalso.
    + congruence.
    + congruence.
    + rewrite Hto in Hto'. injection Hto' as <-.
      destruct Hcase as [(_ & _ & [Hb'|[Hs'|(fs & Hfs & _)]])
                        |(_ & _ & _ & fs & Hfs & _)]; congruence.
  - split; [done|eauto].
Qed.

(** X18. A move within one class keeps teachers exclusive: if no teacher
    is held by two classes in a period row before [moveLesson] and the
    source and the target are slots of the same class, none is after it,
    whether the move is made or refused. *)
Theorem moveLesson_keeps_exclusive tt from to r tt' :
  no_teacher_twice tt -> ref_class from = ref_class to ->
  moveLesson tt from to = Normal (r, tt') -> no_teacher_twice tt'.
Proof.
  intros Hex Hclass Hrun.
  pose proof (moveLesson_cases tt from to) as H. rewrite Hrun in H.
  destruct H as (_ & ts & Hto & [(_ & -> & _)|(_ & _ & _ & fs & Hfs & -> & Hfree)]);
    [done|].
  apply (proj2 (no_teacher_twice_slot_at _)).
  pose proof (proj1 (no_teacher_twice_slot_at tt) Hex) as Hex'. clear Hex.
  assert (Hslot : forall a s t,
    slot_at (moved tt from to fs) a = Some s -> teacher_id s = Some t ->
    a <> from
    /\ (a = to /\ teacher_id fs = Some t \/ a <> to /\ slot_at tt a = Some s)).
  { intros a s t Hs Ht.
    destruct (decide (a = from)) as [->|Hnf].
    { rewrite (slot_at_moved_from _ _ _ _ ts Hfs Hto) in Hs.
      injection Hs as <-. done. }
    split; [done|].
    destruct (decide (a = to)) as [->|Hnt].
    - left. split; [done|].
      rewrite (slot_at_moved_to _ _ _ _ ts Hfs Hto) in Hs.
      rewrite decide_False in Hs by congruence. injection Hs as <-. done.
    - right. split; [done|]. by rewrite slot_at_moved_other in Hs. }
  intros d p c1 c2 s1 s2 t Hs1 Hs2 Hne Ht1 Ht2.
  destruct (Hslot _ _ _ Hs1 Ht1) as [Hf1 [[Hto1 Hfst1]|[Hnt1 Hold1]]];
    destruct (Hslot _ _ _ Hs2 Ht2) as [Hf2 [[Hto2 Hfst2]|[Hnt2 Hold2]]].
  - apply Hne. rewrite <- Hto2 in Hto1. by injection Hto1.
  - apply Hfree. destruct to as [td tp tc]. injection Hto1 as -> -> ->.
    cbn [ref_day ref_period ref_class] in *.
    unfold slot_at in Hold2. cbn [ref_day ref_period ref_class] in Hold2.
    destruct (tt !! td) as [dm|] eqn:Hd; [|done]. cbn [mbind option_bind] in Hold2.
    destruct (dm !! tp) as [row|] eqn:Hp; [|done]. cbn [mbind option_bind] in Hold2.
    exists dm, row, c2, s2. repeat split; try done; congruence.
  - apply Hfree. destruct to as [td tp tc]. injection Hto2 as -> -> ->.
    cbn [ref_day ref_period ref_class] in *.
    unfold slot_at in Hold1. cbn [ref_day ref_period ref_class] in Hold1.
    destruct (tt !! td) as [dm|] eqn:Hd; [|done]. cbn [mbind option_bind] in Hold1.
    destruct (dm !! tp) as [row|] eqn:Hp; [|done]. cbn [mbind option_bind] in Hold1.
    exists dm, row, c1, s1. repeat split; try done; congruence.
  - by apply (Hex' d p c1 c2 s1 s2 t).
Qed.

(** ** The soft score: its range *)

Section number_bounds.
Implicit Types (a b : num).

Lemma of_Z_nonneg (z : Z) : (0 <= z)%Z -> num_ge (of_Z z) 0.
Proof.
  intros H. unfold num_ge, of_Z. change 0%Q with (inject_Z 0).
  by rewrite <- Zle_Qle.
Qed.

Lemma nmul_nonneg a b : num_ge a 0 -> num_ge b 0 -> num_ge (nmul a b) 0.
Proof.
  destruct a as [|x], b as [|y]; simpl; try done.
  intros Hx Hy. rewrite Qred_correct. by apply Qmult_le_0_compat.
Qed.

Lemma nadd_nonneg a b : num_ge a 0 -> num_ge b 0 -> num_ge (nadd a b) 0.
Proof.
  destruct a as [|x], b as [|y]; simpl; try done.
  intros Hx Hy. rewrite Qred_correct.
  change 0%Q with (0 + 0)%Q. by apply Qplus_le_compat.
Qed.

Lemma nabs_nonneg a : num_ge (nabs a) 0.
Proof.
  destruct a as [|x]; simpl; [done|]. rewrite Qred_correct. apply Qabs_nonneg.
Qed.

Lemma nsub_upper a b (hi : Q) : num_le a hi -> num_ge b 0 -> num_le (nsub a b) hi.
Proof.
  destruct a as [|x], b as [|y]; simpl; try done.
  intros Hx Hy. rewrite Qred_correct.
  rewrite <- (Qplus_0_r hi). unfold Qminus.
  apply Qplus_le_compat; [done|]. by apply (Qopp_le_compat 0 y).
Qed.

Lemma imbalance_nonneg (avg : num) (l : list num) (acc : num) :
  num_ge acc 0 ->
  num_ge (fold_left (fun imbalance load => nadd imbalance (nabs (nsub load avg)))
            l acc) 0.
Proof.
  revert acc. induction l as [|x l IH]; intros acc Hacc; simpl; [done|].
  apply IH. apply nadd_nonneg; [done|apply nabs_nonneg].
Qed.

End number_bounds.

Section penalties.
Variables (st : AppState) (tt : Timetable).

Lemma frequency_penalty_nonneg p :
  ConstraintManager.calculateSubjectFrequencyPenalty st tt = Normal p -> (0 <= p)%Z.
Proof.
  unfold ConstraintManager.calculateSubjectFrequencyPenalty.
  refine (cfold_inv (fun p => (0 <= p)%Z) _ _ _ _ _ _); [|lia].
  intros p0 cls p1 _ Hp0.
  refine (cfold_inv (fun p => (0 <= p)%Z) _ _ _ _ _ Hp0).
  intros p2 subject p3 _ Hp2.
  destruct (ConstraintManager.countSubjectLessons st _ _ tt) as [n|e];
    cbn [cbind]; [|done].
  intros [= <-]. destruct (String.eqb _ _); lia.
Qed.

Lemma count_in_row_nonneg teacherId row :
  (0 <= ConstraintManager.count_in_row teacherId row)%Z.
Proof. unfold ConstraintManager.count_in_row. lia. Qed.

Lemma countAfternoonLessons_nonneg teacherId n :
  ConstraintManager.countAfternoonLessons st teacherId tt = Normal n -> (0 <= n)%Z.
Proof.
  unfold ConstraintManager.countAfternoonLessons.
  destruct (ConstraintManager.appState_days st) as [ds|e]; cbn [cbind]; [|done].
  refine (cfold_inv (fun p => (0 <= p)%Z) _ _ _ _ _ _); [|lia].
  intros p0 d p1 _ Hp0.
  refine (cfold_inv (fun p => (0 <= p)%Z) _ _ _ _ _ Hp0).
  intros p2 period p3 _ Hp2.
  destruct (ConstraintManager.isAfternoonPeriod period); [|by intros [= <-]].
  destruct (period_row tt d (Period.id period)) as [row|e]; cbn [cbind]; [|done].
  intros [= <-]. pose proof (count_in_row_nonneg teacherId row). lia.
Qed.

Lemma preference_penalty_nonneg p :
  ConstraintManager.calculateTeacherPreferencePenalty st tt = Normal p -> (0 <= p)%Z.
Proof.
  unfold ConstraintManager.calculateTeacherPreferencePenalty.
  refine (cfold_inv (fun p => (0 <= p)%Z) _ _ _ _ _ _); [|lia].
  intros p0 teacher p1 _ Hp0.
  destruct (Teacher.preferences teacher) as [prefs|]; [|by intros [= <-]].
  assert (Hfirst : forall q,
    (if Preferences.morning_preference prefs
     then do n <- ConstraintManager.countAfternoonLessons st (Teacher.id teacher) tt;
          Normal (p0 + n)%Z
     else Normal p0) = Normal q -> (0 <= q)%Z).
  { intros q. destruct (Preferences.morning_preference prefs); [|by intros [= <-]].
    destruct (ConstraintManager.countAfternoonLessons st _ tt) as [n|e] eqn:Hn;
      cbn [cbind]; [|done].
    apply countAfternoonLessons_nonneg in Hn. intros [= <-]. lia. }
  destruct (if Preferences.morning_preference prefs then _ else _) as [q|e];
    cbn [cbind]; [|done].
  specialize (Hfirst q eq_refl).
  destruct (ConstraintManager.appState_days st) as [ds|e]; cbn [cbind]; [|done].
  refine (cfold_inv (fun p => (0 <= p)%Z) _ _ _ _ _ Hfirst).
  intros p2 d p3 _ Hp2.
  destruct (ConstraintManager.countTeacherDailyLessons st _ d tt) as [n|e];
    cbn [cbind]; [|done].
  intros [= <-]. destruct (Z.gtb_spec n (Constraints.max_daily_lessons (constraints st)));
    lia.
Qed.

Lemma imbalance_penalty_nonneg i :
  ConstraintManager.calculateWorkloadImbalancePenalty st tt = Normal i -> num_ge i 0.
Proof.
  unfold ConstraintManager.calculateWorkloadImbalancePenalty.
  destruct (ConstraintManager.calculateTeacherLoads st tt) as [loads|e];
    cbn [cbind]; [|done].
  intros [= <-]. by apply imbalance_nonneg.
Qed.

End penalties.

(** X19. The soft score is never between 950 and 1000: when
    [calculateSoftConstraintScores] returns a number, it lies between 0
    and 950 or above 1000 and at most 1050, since the bonus of 50 is added
    to every total above 950. *)
Theorem soft_score_range st tt v :
  ConstraintManager.calculateSoftConstraintScores st tt = Normal v ->
  match v with
  | Num q => (0 <= q <= 950)%Q \/ (1000 < q <= 1050)%Q
  | NaN => True
  end.
Proof.
  unfold ConstraintManager.calculateSoftConstraintScores.
  destruct (ConstraintManager.calculateSubjectFrequencyPenalty st tt)
    as [f|e] eqn:Hf; cbn [cbind]; [|done].
  destruct (ConstraintManager.calculateTeacherPreferencePenalty st tt)
    as [p|e] eqn:Hp; cbn [cbind]; [|done].
  destruct (ConstraintManager.calculateWorkloadImbalancePenalty st tt)
    as [i|e] eqn:Hi; cbn [cbind]; [|done].
  apply frequency_penalty_nonneg in Hf. apply preference_penalty_nonneg in Hp.
  apply imbalance_penalty_nonneg in Hi.
  assert (Htotal : num_le
    (nsub (nsub (nsub (Num 1000) (nmul (of_Z f) (Num 10)))
             (nmul (of_Z p) (Num 5))) (nmul i (Num 3))) 1000).
  { repeat apply nsub_upper; try (apply nmul_nonneg; try done;
      try (by apply of_Z_nonneg)); simpl; try apply Qle_refl; done. }
  destruct (nsub _ (nmul i (Num 3))) as [|x]; [by intros [= <-]|].
  simpl in Htotal. unfold ngt, nlt.
  destruct (Qle_bool x 950) eqn:Hle; cbn [negb].
  - apply Qle_bool_iff in Hle. intros [= <-]. unfold max0.
    destruct (Qle_bool 0 x) eqn:H0; cbn [negb].
    + apply Qle_bool_iff in H0. left. by split.
    + left. split; [apply Qle_refl|done].
  - assert (Hgt : (950 < x)%Q).
    { apply Qnot_le_lt. intros H. apply Qle_bool_iff in H. congruence. }
    intros [= <-]. unfold nadd, max0.
    assert (Hpos : Qle_bool 0 (Qred (x + 50)) = true).
    { apply Qle_bool_iff. rewrite Qred_correct.
      apply Qle_trans with (950 + 50)%Q; [done|].
      apply Qplus_le_compat; [by apply Qlt_le_weak|apply Qle_refl]. }
    rewrite Hpos. cbn [negb]. right. rewrite Qred_correct. split.
    + apply Qle_lt_trans with (950 + 50)%Q; [done|].
      apply Qplus_lt_le_compat; [done|apply Qle_refl].
    + apply Qle_trans with (1000 + 50)%Q; [|done].
      apply Qplus_le_compat; [done|apply Qle_refl].
Qed.

(** ** The hard constraints of a manual edit *)

(** X20. [checkHardConstraints] throws only for a teacher id that is
    neither [null] nor empty and a day that is absent from the grid.
    Otherwise it reports the teacher exactly when the id is neither
    [null] nor empty and a class other than the one of the change holds
    the teacher in the period, the break exactly when the first period
    with the id of the change is no lesson (an unknown id is accepted),
    and never the room. *)
Theorem checkHardConstraints_spec st ch tt :
  match ConstraintManager.checkHardConstraints st ch tt with
  | Throw _ =>
      truthy (ConstraintManager.Change.teacher_id ch) = true
      /\ tt !! ConstraintManager.Change.day ch = None
  | Normal v =>
      (In "Teacher is already assigned in this period" v
       <-> truthy (ConstraintManager.Change.teacher_id ch) = true
           /\ teacher_held_elsewhere tt (ConstraintManager.Change.day ch)
                (ConstraintManager.Change.period_id ch)
                (ConstraintManager.Change.teacher_id ch)
                (ConstraintManager.Change.class_id ch))
      /\ (In "Cannot schedule lessons during break/lunch periods" v
          <-> exists period,
                find (fun p => String.eqb (Period.id p)
                                 (ConstraintManager.Change.period_id ch))
                  (periods st) = Some period
                /\ is_lesson period = false)
      /\ ~ In "Room is already occupied in this period" v
  end.
Proof.
  unfold ConstraintManager.checkHardConstraints, ConstraintManager.isRoomDoubleBooked.
  assert (Hbreak : ConstraintManager.isBreakPeriod st ch = true
    <-> exists period,
          find (fun p => String.eqb (Period.id p)
                           (ConstraintManager.Change.period_id ch))
            (periods st) = Some period
          /\ is_lesson period = false).
  { unfold ConstraintManager.isBreakPeriod.
    destruct (find _ (periods st)) as [period|].
    - rewrite negb_true_iff. split; [eauto|]. by intros (q & [= <-] & Hq).
    - split; [done|]. by intros (q & [=] & _). }
  assert (Hbooked : match ConstraintManager.isTeacherDoubleBooked ch tt with
    | Throw _ => truthy (ConstraintManager.Change.teacher_id ch) = true
                 /\ tt !! ConstraintManager.Change.day ch = None
    | Normal b =>
        b = true
        <-> truthy (ConstraintManager.Change.teacher_id ch) = true
            /\ teacher_held_elsewhere tt (ConstraintManager.Change.day ch)
                 (ConstraintManager.Change.period_id ch)
                 (ConstraintManager.Change.teacher_id ch)
                 (ConstraintManager.Change.class_id ch)
    end).
  { unfold ConstraintManager.isTeacherDoubleBooked.
    destruct (truthy (ConstraintManager.Change.teacher_id ch)); cbn [negb].
    2:{ split; [done|]. by intros [? _]. }
    destruct (tt !! ConstraintManager.Change.day ch) as [dm|] eqn:Hd.
    - destruct (isTeacherAvailableById_defined tt (ConstraintManager.Change.day ch)
                  (ConstraintManager.Change.period_id ch)
                  (ConstraintManager.Change.teacher_id ch)
                  (ConstraintManager.Change.class_id ch) dm Hd)
        as (free & Hfree & Hheld).
      unfold isTeacherAvailableById in Hfree.
      destruct (period_row tt _ _) as [row|e]; cbn [cbind] in *; [|done].
      injection Hfree as Hfree. rewrite <- Hheld, <- Hfree.
      rewrite negb_false_iff. tauto.
    - unfold period_row. rewrite Hd. cbn [cbind]. done. }
  destruct (ConstraintManager.isTeacherDoubleBooked ch tt) as [booked|e];
    cbn [cbind]; [|done].
  rewrite <- Hbooked, <- Hbreak.
  destruct booked, (ConstraintManager.isBreakPeriod st ch); cbn [app In];
    intuition (try discriminate; auto).
Qed.

(** ** The two variants of the manual move *)

(** X21. The basic variant of [moveLesson] and the one of the multi-attempt
    generator do the same to every grid: they throw the same error, or
    both return, with the same verdict and the same grid; only the
    message of a refusal differs. *)
Theorem moveLesson_variants_agree tt from to :
  match Basic.moveLesson tt from to, moveLesson tt from to with
  | Normal (r, g), Normal (r', g') => success r = success r' /\ g = g'
  | Throw e, Throw e' => e = e'
  | _, _ => False
  end.
Proof.
  unfold Basic.moveLesson, moveLesson.
  destruct (get_slot tt (ref_day from) (ref_period from) (ref_class from))
    as [fromSlot|e]; cbn [cbind]; [|done].
  destruct (get_slot tt (ref_day to) (ref_period to) (ref_class to))
    as [toSlot|e]; cbn [cbind]; [|done].
  destruct toSlot as [ts|]; cbn [cbind field]; [|done].
  destruct (is_break ts); cbn [cbind orb]; [done|].
  destruct (truthy (subject_id ts)); [done|].
  destruct fromSlot as [fs|]; cbn [cbind field]; [|done].
  rewrite Basic_scan_agrees.
  destruct (isTeacherAvailableById (teacher_id fs) (ref_day to) (ref_period to) tt
              (ref_class from)) as [free|e]; cbn [cbind]; [|done].
  destruct free; cbn [negb]; [|done].
  destruct (copy_field subject_id set_subject_id from to tt) as [tt1|e];
    cbn [cbind]; [|done].
  destruct (copy_field teacher_id set_teacher_id from to tt1) as [tt2|e];
    cbn [cbind]; [|done].
  destruct (copy_field room_id set_room_id from to tt2) as [tt3|e];
    cbn [cbind]; done.
Qed.

(** ** The soft score and the validator on malformed data *)

Section reaching.
Context {A B : Type}.
Variables (Pre Bad : B -> Prop).

(** A loop that turns bad at one element and stays bad. *)
Lemma cfold_reaches (f : B -> A -> completion B) (l : list A) (x : A) (b b' : B) :
  (forall y b b1, In y l -> f b y = Normal b1 ->
     (Pre b -> Pre b1) /\ (Bad b -> Bad b1)) ->
  (forall b b1, f b x = Normal b1 -> Pre b -> Bad b1) ->
  In x l -> Pre b -> cfold f l b = Normal b' -> Bad b'.
Proof.
  intros Hkeep Hturn. revert b. induction l as [|y l IH]; intros b Hin Hpre;
    [done|]. cbn [cfold].
  destruct (f b y) as [b1|e] eqn:Hf; cbn [cbind]; [|done].
  destruct Hin as [->|Hin].
  - intros Hrest. apply (cfold_inv Bad f l b1 b'); [|by eapply Hturn|done].
    intros b2 z b3 Hz Hb2 Hfz. by apply (Hkeep z b2 b3 (or_intror Hz) Hfz).
  - apply IH; [|done|].
    + intros z b2 b3 Hz. apply Hkeep. by right.
    + by apply (Hkeep y b b1 (or_introl eq_refl) Hf).
Qed.

Lemma fold_left_reaches (f : B -> A -> B) (l : list A) (x : A) (b : B) :
  (forall y b, (Pre b -> Pre (f b y)) /\ (Bad b -> Bad (f b y))) ->
  (forall b, Pre b -> Bad (f b x)) ->
  In x l -> Pre b -> Bad (fold_left f l b).
Proof.
  intros Hkeep Hturn. revert b. induction l as [|y l IH]; intros b Hin Hpre;
    [done|]. cbn [fold_left]. destruct Hin as [->|Hin].
  - assert (Hbad : Bad (f b x)) by by apply Hturn.
    revert Hbad. generalize (f b x). clear -Hkeep.
    induction l as [|z l IHl]; intros b0 Hb0; [done|].
    cbn [fold_left]. apply IHl. by apply Hkeep.
  - apply IH; [done|]. by apply Hkeep.
Qed.

End reaching.

Section unknown_teacher.
Variables (st : AppState) (tt : Timetable) (t : string).
Hypothesis stranger : forall teacher, In teacher (teachers st) -> Teacher.id teacher <> t.

Lemma count_step_keeps (loads : gmap string num) (cs : string * Slot) :
  (default NaN (loads !! t) = NaN ->
   default NaN (match teacher_id cs.2 with
                | Some teacherId =>
                    if truthy (teacher_id cs.2) then incr teacherId loads else loads
                | None => loads
                end !! t) = NaN)
  /\ (loads !! t = Some NaN ->
      match teacher_id cs.2 with
      | Some teacherId =>
          if truthy (teacher_id cs.2) then incr teacherId loads else loads
      | None => loads
      end !! t = Some NaN).
Proof.
  destruct (teacher_id cs.2) as [t'|]; [|done].
  destruct (truthy (Some t')); [|done].
  unfold incr, num_prop. rewrite lookup_insert.
  destruct (decide (t' = t)) as [->|]; [|done].
  split.
  - intros H. cbn [default]. by rewrite H.
  - intros H. rewrite H. done.
Qed.

Lemma loads_of_unknown_teacher ds d period c s loads :
  days st = Some ds -> In d ds -> In period (periods st) ->
  is_lesson period = true ->
  slot_at tt (mkRef d (Period.id period) c) = Some s ->
  teacher_id s = Some t -> t <> "" ->
  ConstraintManager.calculateTeacherLoads st tt = Normal loads ->
  In NaN loads.
Proof.
  intros Hdays Hd Hp Hl Hs Ht Hne.
  unfold ConstraintManager.calculateTeacherLoads, ConstraintManager.appState_days.
  rewrite Hdays. cbn [cbind].
  destruct (cfold _ ds _) as [final|e] eqn:Hrun; cbn [cbind]; [|done].
  intros [= <-].
  assert (Hbad : final !! t = Some NaN).
  { revert Hrun.
    apply (cfold_reaches (fun loads : gmap string num => default NaN (loads !! t) = NaN)
             (fun loads : gmap string num => loads !! t = Some NaN) _ ds d).
    - intros d' b b1 _.
      apply (cfold_inv (fun b1 : gmap string num =>
               (default NaN (b !! t) = NaN -> default NaN (b1 !! t) = NaN)
               /\ (b !! t = Some NaN -> b1 !! t = Some NaN))); [|done].
      intros b2 period' b3 _ [IH1 IH2].
      destruct (is_lesson period'); [|by intros [= <-]].
      destruct (period_row tt d' (Period.id period')) as [row|e]; cbn [cbind];
        [|done].
      intros [= <-]. revert IH1 IH2. generalize b2.
      induction (map_to_list (default ∅ row)) as [|cs l IHl]; intros b4 IH1 IH2;
        [done|].
      cbn [fold_left]. apply IHl.
      + intros H. by apply (count_step_keeps b4 cs), IH1.
      + intros H. by apply (count_step_keeps b4 cs), IH2.
    - intros b b1 Hrun1 Hpre1. revert Hrun1.
      apply (cfold_reaches (fun loads : gmap string num => default NaN (loads !! t) = NaN)
               (fun loads : gmap string num => loads !! t = Some NaN) _
               (periods st) period); [| |done|done].
      + intros period' b2 b3 _.
        destruct (is_lesson period'); [|by intros [= <-]].
        destruct (period_row tt d (Period.id period')) as [row|e]; cbn [cbind];
          [|done].
        intros [= <-]. generalize b2.
        induction (map_to_list (default ∅ row)) as [|cs l IHl]; intros b4; [done|].
        cbn [fold_left]. destruct (IHl (match teacher_id cs.2 with
          | Some teacherId =>
              if truthy (teacher_id cs.2) then incr teacherId b4 else b4
          | None => b4 end)) as [IH1 IH2].
        pose proof (count_step_keeps b4 cs) as [K1 K2].
        split; auto.
      + intros b2 b3. rewrite Hl.
        destruct (period_row_at tt _ s Hs) as (row & Hrow & Hc).
        cbn [ref_day ref_period ref_class] in Hrow, Hc.
        rewrite Hrow. cbn [cbind default]. intros [= <-] Hpre.
        apply (fold_left_reaches
                 (fun loads : gmap string num => default NaN (loads !! t) = NaN)
                 (fun loads : gmap string num => loads !! t = Some NaN) _
                 (map_to_list row) (c, s)).
        * intros cs b4. apply (count_step_keeps b4 cs).
        * intros b4 Hb4. cbn [snd]. rewrite Ht.
          assert (Htruthy : truthy (Some t) = true).
          { simpl. apply negb_true_iff. by apply String.eqb_neq. }
          rewrite Htruthy. unfold incr, num_prop.
          rewrite lookup_insert_eq. by rewrite Hb4.
        * by apply list_elem_of_In, elem_of_map_to_list.
        * done.
    - done.
    - rewrite (lookup_fold_insert Teacher.id (fun _ => Num 0)), lookup_empty.
      destruct (find _ (rev (teachers st))) as [teacher|] eqn:Hf; [|done].
      apply find_key in Hf as [Hid Hin]. apply in_rev in Hin.
      by destruct (stranger teacher Hin). }
  apply in_map_iff. exists (t, NaN). split; [done|].
  by apply list_elem_of_In, elem_of_map_to_list.
Qed.

End unknown_teacher.

Lemma imbalance_of_NaN (avg : num) (l : list num) :
  In NaN l ->
  fold_left (fun imbalance load => nadd imbalance (nabs (nsub load avg))) l (Num 0)
  = NaN.
Proof.
  intros Hin.
  apply (fold_left_reaches (fun _ : num => True) (fun a : num => a = NaN)
           _ l NaN); try done.
  - intros y b. split; [done|]. by intros ->.
  - intros b _. by destruct b.
Qed.

(** X22. A teacher the state does not know spoils the soft score: when a
    slot of a lesson period on a day of the state holds a teacher id that
    is not empty and is the id of no teacher, the score
    [calculateSoftConstraintScores] returns is [NaN]. *)
Theorem soft_score_unknown_teacher st tt ds d period c s t v :
  days st = Some ds -> In d ds -> In period (periods st) ->
  is_lesson period = true ->
  slot_at tt (mkRef d (Period.id period) c) = Some s ->
  teacher_id s = Some t -> t <> "" ->
  (forall teacher, In teacher (teachers st) -> Teacher.id teacher <> t) ->
  ConstraintManager.calculateSoftConstraintScores st tt = Normal v ->
  v = NaN.
Proof.
  intros Hdays Hd Hp Hl Hs Ht Hne Hstranger.
  unfold ConstraintManager.calculateSoftConstraintScores.
  destruct (ConstraintManager.calculateSubjectFrequencyPenalty st tt) as [f|e];
    cbn [cbind]; [|done].
  destruct (ConstraintManager.calculateTeacherPreferencePenalty st tt) as [p|e];
    cbn [cbind]; [|done].
  unfold ConstraintManager.calculateWorkloadImbalancePenalty.
  destruct (ConstraintManager.calculateTeacherLoads st tt) as [loads|e] eqn:Hloads;
    cbn [cbind]; [|done].
  assert (Hin : In NaN loads) by by eapply loads_of_unknown_teacher.
  match goal with |- context [fold_left ?g loads (Num 0)] =>
    match g with
    | (fun imbalance load => nadd imbalance (nabs (nsub load ?avg))) =>
        rewrite (imbalance_of_NaN avg loads Hin)
    end
  end.
  match goal with |- context [nsub ?x (nmul NaN (Num 3))] => destruct x end;
    by intros [= <-].
Qed.

Lemma split_without_colon (s : string) :
  contains ":" s = false -> split_on ":" s = [s].
Proof.
  induction s as [|c s IH]; [done|]. cbn [contains split_on].
  intros H. apply orb_false_iff in H as [Hc Hs]. rewrite Hc, (IH Hs). done.
Qed.

(** X23. A lesson period whose start time is written without a colon is
    never found to overlap another period, on either side of the
    comparison: its time converts to [NaN], and no comparison with [NaN]
    holds. *)
Theorem time_without_colon_never_overlaps Number p q :
  contains ":" (Period.start_time p) = false ->
  ConstraintManager.doPeriodsOverlap Number p q = false
  /\ ConstraintManager.doPeriodsOverlap Number q p = false.
Proof.
  intros H. unfold ConstraintManager.doPeriodsOverlap.
  assert (Hnan : ConstraintManager.timeToMinutes Number (Period.start_time p) = NaN).
  { unfold ConstraintManager.timeToMinutes. by rewrite (split_without_colon _ H). }
  rewrite Hnan. split.
  - by destruct (negb (is_lesson p) || negb (is_lesson q)).
  - destruct (negb (is_lesson q) || negb (is_lesson p)); [done|].
    apply andb_false_iff. right.
    by destruct (ConstraintManager.timeToMinutes Number (Period.end_time q)).
Qed.

(** ** The choice of an assignment *)

Section choice.
Variable st : AppState.

Local Ltac split_if :=
  match goal with |- context [if ?c then _ else _] => destruct c end.

Lemma teachers_of_level_complete c l t :
  teachers_of_level st (Some c) = Normal l -> In t (teachers st) ->
  includes (Teacher.class_levels t) (Cls.level c) = true -> In t l.
Proof.
  unfold teachers_of_level. intros Hrun Hin Hinc. revert Hrun.
  apply (cfold_reaches (fun _ : list Teacher.t => True) (fun l => In t l) _
           (teachers st) t); try done.
  - intros y b b1 _. destruct (Teacher.class_levels y) as [levels|].
    + destruct (existsb _ levels); intros [= <-]; split; try done.
      intros H. apply in_or_app. by left.
    + by intros [= <-].
  - intros b b1. destruct (Teacher.class_levels t) as [levels|]; [|done].
    cbn [includes] in Hinc. rewrite Hinc. intros [= <-] _.
    apply in_or_app. right. by left.
Qed.

Lemma getNeededSubjects_complete classId (subjectFrequency : gmap string (gmap string num))
    row l s :
  getNeededSubjects st classId subjectFrequency = Normal l ->
  In s (subjects st) -> subjectFrequency !! classId = Some row ->
  nlt (num_or (row !! Subject.id s) (Num 0))
    (of_Z (or_default (Subject.target_lessons_per_week s) 5)) = true ->
  In s l.
Proof.
  unfold getNeededSubjects. intros Hrun Hin Hrow Hlt.
  destruct (cfold _ (subjects st) []) as [classSubjects|e] eqn:Hc; cbn [cbind] in Hrun;
    [|done].
  injection Hrun as <-.
  assert (Hex : exists pr, In (s, pr) classSubjects).
  { revert Hc.
    apply (cfold_reaches (fun _ : list (Subject.t * num) => True)
             (fun acc => exists pr, In (s, pr) acc) _ (subjects st) s); try done.
    - intros y b b1 _. unfold nested_row. rewrite Hrow. cbn [cbind].
      split_if; intros [= <-]; split; try done.
      intros [pr Hpr]. exists pr. apply in_or_app. by left.
    - intros b b1. unfold nested_row. rewrite Hrow. cbn [cbind]. rewrite Hlt.
      intros [= <-] _. eexists. apply in_or_app. right. by left. }
  destruct Hex as [pr Hpr]. apply in_map_iff. exists (s, pr). split; [done|].
  by apply stable_sort_In.
Qed.

Lemma max0_number (a : num) : a <> NaN -> exists q, max0 a = Num q /\ (0 <= q)%Q.
Proof.
  destruct a as [|x]; [done|]. intros _. unfold max0.
  destruct (Qle_bool 0 x) eqn:H; cbn [negb].
  - exists x. split; [done|]. by apply Qle_bool_iff.
  - exists 0%Q. split; [done|]. apply Qle_refl.
Qed.

Lemma score_number teacher subject (teacherLoad : gmap string num)
    (classLoad : gmap string (gmap string num)) classId d row x y :
  teacherLoad !! Teacher.id teacher = Some (Num x) ->
  classLoad !! classId = Some row -> row !! d = Some (Num y) ->
  exists q, calculateAssignmentScore st teacher subject teacherLoad classLoad classId d
            = Normal (Num q) /\ (0 <= q)%Q.
Proof.
  intros Ht Hc Hd. unfold calculateAssignmentScore, nested_row, num_prop.
  rewrite Ht, Hc. cbn [cbind default]. rewrite Hd. cbn [default].
  match goal with |- context [max0 ?a] =>
    destruct (max0_number a) as (q & -> & Hq)
  end; [|eauto].
  unfold priorityWeight.
  destruct (Constraints.prefer_morning _ && _);
    destruct (String.eqb (Subject.priority subject) "high");
    try destruct (String.eqb (Subject.priority subject) "medium"); done.
Qed.

Lemma findBestAssignment_finds ls tt (teacherLoad : gmap string num)
    (classLoad subjectFrequency : gmap string (gmap string num)) a crow y :
  eligible st ls tt subjectFrequency a ->
  (forall teacher, In teacher (teachers st) ->
     exists x, teacherLoad !! Teacher.id teacher = Some (Num x)) ->
  classLoad !! LessonSlot.class_id ls = Some crow ->
  crow !! LessonSlot.day ls = Some (Num y) ->
  exists a', findBestAssignment st ls tt teacherLoad classLoad subjectFrequency
             = Normal (Some a').
Proof.
  intros (_ & _ & _ & teacher & subject & cls & row & Hteacher & Hsubject & Hcls
          & _ & _ & Hlev & Hsub & Hfree & Hrow & Hlt) Hloads Hcrow Hy.
  assert (Hday : is_Some (tt !! LessonSlot.day ls)).
  { unfold isTeacherAvailable, period_row in Hfree.
    destruct (tt !! LessonSlot.day ls); [eauto|done]. }
  destruct (findBestAssignment_total st ls tt teacherLoad classLoad subjectFrequency)
    as [r Hr]; [eauto..|].
  destruct r as [a'|]; [eauto|]. exfalso. revert Hr.
  unfold findBestAssignment.
  destruct (getNeededSubjects st _ subjectFrequency) as [needed|e] eqn:Hn;
    cbn [cbind]; [|done].
  pose proof (getNeededSubjects_complete _ _ _ _ _ Hn Hsubject Hrow Hlt) as Hneeded.
  destruct (length needed =? 0)%nat eqn:Hlen.
  { apply Nat.eqb_eq in Hlen. by destruct needed. }
  rewrite Hcls.
  destruct (teachers_of_level st (Some cls)) as [avail|e] eqn:Ha; cbn [cbind]; [|done].
  pose proof (teachers_of_level_complete _ _ _ Ha Hteacher Hlev) as Havail.
  destruct (cfold _ needed _) as [best|e] eqn:Hb; cbn [cbind]; [|done].
  intros [= Hnone].
  assert (Hsome : is_Some (snd best)); [|rewrite Hnone in Hsome; by destruct Hsome].
  revert Hb.
  apply (cfold_reaches
           (fun best : num * option Assignment.t =>
              best = (Num (-1), None) \/ is_Some (snd best))
           (fun best : num * option Assignment.t => is_Some (snd best))
           _ needed subject); [| |done|by left].
  - intros s' b b1 _.
    apply (cfold_inv (fun b1 : num * option Assignment.t =>
             (b = (Num (-1), None) \/ is_Some (snd b)
              -> b1 = (Num (-1), None) \/ is_Some (snd b1))
             /\ (is_Some (snd b) -> is_Some (snd b1)))); [|tauto].
    intros b2 t' b3 _ [IH1 IH2].
    match goal with |- context [cbind ?c _] => destruct c as [free|e] end;
      cbn [cbind]; [|done].
    destruct free; cbn [negb]; [|by intros [= <-]].
    match goal with |- context [cbind ?c _] => destruct c as [score|e] end;
      cbn [cbind]; [|done].
    split_if; intros [= <-]; [|done].
    cbn [snd]. split; eauto.
  - intros b b1 Hrun Hpre. revert Hrun.
    apply (cfold_reaches
             (fun best : num * option Assignment.t =>
                best = (Num (-1), None) \/ is_Some (snd best))
             (fun best : num * option Assignment.t => is_Some (snd best))
             _ _ teacher); [| | |done].
    + intros t' b2 b3 _.
      match goal with |- context [cbind ?c _] => destruct c as [free|e] end;
      cbn [cbind]; [|done].
      destruct free; cbn [negb]; [|by intros [= <-]].
      match goal with |- context [cbind ?c _] => destruct c as [score|e] end;
      cbn [cbind]; [|done].
      split_if; intros [= <-]; [|done].
      cbn [snd]. split; eauto.
    + intros b2 b3. rewrite Hfree. cbn [cbind negb].
      destruct (Hloads teacher Hteacher) as [x Hx].
      destruct (score_number teacher subject teacherLoad classLoad _ _ crow x y
                  Hx Hcrow Hy) as (q & -> & Hq).
      cbn [cbind]. intros Hstep [->|Hsome].
      * cbn [fst] in Hstep. unfold ngt, nlt in Hstep.
        assert (Hgt : negb (Qle_bool q (-1)) = true).
        { apply negb_true_iff, not_true_is_false. intros H.
          apply Qle_bool_iff in H.
          assert (H0 : (0 <= -1)%Q) by by apply Qle_trans with q. done. }
        rewrite Hgt in Hstep. injection Hstep as <-. cbn. eauto.
      * destruct (ngt (Num q) (fst b2)); injection Hstep as <-; cbn; eauto.
    + apply list_elem_of_In, list_elem_of_filter. split; [done|].
      by apply list_elem_of_In.
Qed.

End choice.

(** X24. What [findBestAssignment] returns is an eligible candidate for
    the slot: the assignment has the day, the period and the class of the
    slot, a teacher of the state who lists the level of the class and the
    subject and whom no class holds in that period, and a subject under its
    weekly target for the class. *)
Theorem findBestAssignment_sound st ls tt teacherLoad classLoad subjectFrequency a :
  findBestAssignment st ls tt teacherLoad classLoad subjectFrequency
    = Normal (Some a) ->
  eligible st ls tt subjectFrequency a.
Proof. apply findBestAssignment_eligible. Qed.

(** X25. [findBestAssignment] returns [null] only when there is no
    candidate: when the loads of the teachers and of the class on that
    day are numbers and some assignment is eligible for the slot, it
    returns an assignment. *)
Theorem findBestAssignment_complete st ls tt teacherLoad classLoad
    subjectFrequency a crow y :
  eligible st ls tt subjectFrequency a ->
  (forall teacher, In teacher (teachers st) ->
     exists x, teacherLoad !! Teacher.id teacher = Some (Num x)) ->
  classLoad !! LessonSlot.class_id ls = Some crow ->
  crow !! LessonSlot.day ls = Some (Num y) ->
  exists a', findBestAssignment st ls tt teacherLoad classLoad subjectFrequency
             = Normal (Some a').
Proof. apply findBestAssignment_finds. Qed.

(** ** The order of the slots *)

Section sorting.
Context {A : Type} (after : A -> A -> bool) (R : A -> A -> Prop).
Hypothesis after_true : forall y x, after y x = true -> R x y.
Hypothesis after_false : forall y x, after y x = false -> R y x.
Hypothesis R_trans : forall x y z, R x y -> R y z -> R x z.

Lemma insert_sorted_Permutation (x : A) (l : list A) :
  Permutation (insert_sorted after x l) (x :: l).
Proof.
  induction l as [|y l IH]; simpl; [done|].
  destruct (after y x); [done|]. rewrite IH. apply perm_swap.
Qed.

Lemma stable_sort_Permutation (l : list A) : Permutation (stable_sort after l) l.
Proof.
  unfold stable_sort.
  assert (H : forall acc,
    Permutation (fold_left (fun sorted x => insert_sorted after x sorted) l acc)
                (acc ++ l)).
  { induction l as [|x l IH]; intros acc; simpl; [by rewrite app_nil_r|].
    rewrite IH, insert_sorted_Permutation. apply Permutation_middle. }
  apply (H []).
Qed.

Lemma insert_sorted_sorted (x : A) (l : list A) :
  StronglySorted R l -> StronglySorted R (insert_sorted after x l).
Proof.
  induction 1 as [|y l Hl IH Hy]; simpl; [repeat constructor|].
  destruct (after y x) eqn:Hyx.
  - constructor; [by constructor|]. constructor; [by apply after_true|].
    eapply Forall_impl; [exact Hy|]. intros z Hz. cbv beta.
    apply R_trans with y; [by apply after_true|done].
  - constructor; [done|]. rewrite insert_sorted_Permutation.
    constructor; [by apply after_false|done].
Qed.

Lemma stable_sort_sorted (l : list A) : StronglySorted R (stable_sort after l).
Proof.
  unfold stable_sort.
  assert (H : forall acc, StronglySorted R acc ->
    StronglySorted R (fold_left (fun sorted x => insert_sorted after x sorted) l acc)).
  { induction l as [|x l IH]; intros acc Hacc; simpl; [done|].
    by apply IH, insert_sorted_sorted. }
  apply H. constructor.
Qed.

End sorting.

Lemma cmap_keyed_inv {A K} (g : A -> completion K) (l : list A) ys :
  cmap (fun r => do k <- g r; Normal (k, r)) l = Normal ys ->
  map snd ys = l /\ Forall (fun y => g (snd y) = Normal (fst y)) ys.
Proof.
  revert ys. induction l as [|x l IH]; intros ys; simpl.
  - intros [= <-]. by split.
  - destruct (g x) as [k|e] eqn:Hg; simpl; [|done].
    destruct (cmap _ l) as [ys'|e]; simpl; [|done].
    intros [= <-]. destruct (IH ys' eq_refl) as [<- Hall].
    split; [done|]. by constructor.
Qed.

Lemma StronglySorted_map {A B} (f : A -> B) (R : B -> B -> Prop) (l : list A) :
  StronglySorted (fun x y => R (f x) (f y)) l -> StronglySorted R (map f l).
Proof.
  induction 1 as [|x l Hl IH Hx]; simpl; constructor; [done|].
  apply List.Forall_forall. intros y Hy. apply in_map_iff in Hy as (z & <- & Hz).
  rewrite List.Forall_forall in Hx. by apply Hx.
Qed.

Lemma StronglySorted_impl {A} (R R' : A -> A -> Prop) (l : list A) :
  (forall x y, In x l -> In y l -> R x y -> R' x y) ->
  StronglySorted R l -> StronglySorted R' l.
Proof.
  intros Himpl Hs. induction Hs as [|x l Hl IH Hx]; constructor.
  - apply IH. intros y z Hy Hz. apply Himpl; by right.
  - rewrite List.Forall_forall in *. intros y Hy.
    apply Himpl; [by left|by right|by apply Hx].
Qed.

(** X26. [sortSlotsByDifficulty] returns the slots it was given, each as
    often as it was given, in the order of difficulty: a slot of a class
    of a harder level comes before one of an easier level, and among
    classes of one level the one with more teachers of that level comes
    first. *)
Theorem sortSlotsByDifficulty_sorts st h slots sorted :
  sortSlotsByDifficulty st h slots = Normal sorted ->
  Permutation sorted slots /\ StronglySorted (by_difficulty st h) sorted.
Proof.
  unfold sortSlotsByDifficulty.
  destruct slots as [|r0 [|r1 slots]].
  - intros [= <-]. split; [done|constructor].
  - intros [= <-]. split; [done|repeat constructor].
  - set (l := r0 :: r1 :: slots).
    destruct (cmap _ l) as [keyed|e] eqn:Hkeyed; cbn [cbind]; [|done].
    intros [= <-]. apply cmap_keyed_inv in Hkeyed as [Hl Hkeys]. split.
    + rewrite <- Hl. apply Permutation_map, stable_sort_Permutation.
    + apply StronglySorted_map.
      apply (StronglySorted_impl (fun x y => precedes (fst x) (fst y))).
      * rewrite List.Forall_forall in Hkeys.
        intros x y Hx Hy Hxy. apply stable_sort_In in Hx, Hy.
        exists (fst x), (fst y). split; [by apply Hkeys|].
        split; [by apply Hkeys|done].
      * apply stable_sort_sorted.
        -- intros [ky ry] [kx rx]. unfold difficulty_after, precedes. cbn [fst snd].
           destruct (Z.eqb_spec (kx.1 - ky.1) 0); cbn [negb]; lia.
        -- intros [ky ry] [kx rx]. unfold difficulty_after, precedes. cbn [fst snd].
           destruct (Z.eqb_spec (kx.1 - ky.1) 0); cbn [negb]; lia.
        -- unfold precedes. intros x y z. lia.
Qed.

(** ** The pass over the distribution of the subjects *)

Section filling.
Variable st : AppState.

Lemma find_teacher_Some classId subjectId d p tt l t :
  find_teacher st classId subjectId d p tt l = Normal (Some t) ->
  In t l /\ includes (Teacher.subjects t) subjectId = true
  /\ exists cls,
       find_class st classId = Some cls
       /\ includes (Teacher.class_levels t) (Cls.level cls) = true
       /\ isTeacherAvailableById (Some (Teacher.id t)) d p tt classId = Normal true.
Proof.
  induction l as [|x l IH]; cbn [find_teacher]; [done|].
  unfold includes_strict.
  destruct (Teacher.subjects x) as [subs|] eqn:Hsubs; cbn [cbind]; [|done].
  destruct (existsb (String.eqb subjectId) subs) eqn:Hteaches.
  2:{ cbn [cbind]. intros H. destruct (IH H) as (Hin & Hrest). split; [by right|done]. }
  destruct (Teacher.class_levels x) as [levels|] eqn:Hlevels; cbn [cbind]; [|done].
  destruct (find_class st classId) as [cls|] eqn:Hcls; cbn [cbind]; [|done].
  destruct (existsb (String.eqb (Cls.level cls)) levels) eqn:Hlevel.
  2:{ cbn [cbind]. intros H. destruct (IH H) as (Hin & Hrest). split; [by right|done]. }
  destruct (isTeacherAvailableById (Some (Teacher.id x)) d p tt classId)
    as [free|e] eqn:Hfree; cbn [cbind]; [|done].
  destruct free.
  - intros [= <-]. split; [by left|]. rewrite Hsubs, Hlevels. cbn [includes].
    split; [done|]. exists cls. by rewrite Hfree.
  - intros H. destruct (IH H) as (Hin & Hrest). split; [by right|done].
Qed.

Lemma slot_at_rows tt d p c s :
  slot_at tt (mkRef d p c) = Some s ->
  exists dm row, tt !! d = Some dm /\ dm !! p = Some row /\ row !! c = Some s.
Proof.
  unfold slot_at. cbn [ref_day ref_period ref_class].
  destruct (tt !! d) as [dm|] eqn:Hd; [|done]. cbn [mbind option_bind].
  destruct (dm !! p) as [row|] eqn:Hp; [|done]. cbn [mbind option_bind].
  intros H. by exists dm, row.
Qed.

Lemma fill_step_exclusive tt tt' :
  fill_step st tt tt' -> no_teacher_twice tt -> no_teacher_twice tt'.
Proof.
  intros (a & s & s' & Hs & _ & Hfree & Hslots) Hex.
  apply (proj2 (no_teacher_twice_slot_at _)).
  pose proof (proj1 (no_teacher_twice_slot_at tt) Hex) as Hex'. clear Hex.
  assert (Hheld : forall c s2,
    slot_at tt (mkRef (ref_day a) (ref_period a) c) = Some s2 ->
    c <> ref_class a -> teacher_id s2 = teacher_id s' -> False).
  { intros c s2 Hs2 Hc Ht. apply Hfree.
    apply slot_at_rows in Hs2 as (dm & row & Hd & Hp & Hrow).
    by exists dm, row, c, s2. }
  intros d p c1 c2 s1 s2 t H1 H2 Hne Ht1 Ht2.
  rewrite Hslots in H1, H2.
  destruct (decide (mkRef d p c1 = a)) as [He1|Hn1];
    destruct (decide (mkRef d p c2 = a)) as [He2|Hn2].
  - rewrite <- He2 in He1. injection He1 as ->. done.
  - subst a. injection H1 as <-. cbn [ref_day ref_period ref_class] in Hheld.
    apply (Hheld c2 s2); [done|congruence|congruence].
  - subst a. injection H2 as <-. cbn [ref_day ref_period ref_class] in Hheld.
    apply (Hheld c1 s1); [done|congruence|congruence].
  - by apply (Hex' d p c1 c2 s1 s2 t).
Qed.

Lemma fills_exclusive tt tt' :
  rtc (fill_step st) tt tt' -> no_teacher_twice tt -> no_teacher_twice tt'.
Proof.
  induction 1 as [tt|tt tt1 tt2 Hstep _ IH]; [done|].
  intros H. apply IH. by eapply fill_step_exclusive.
Qed.

Lemma filled_again a s s1 s2 :
  filled st a s s1 -> filled st a s1 s2 -> filled st a s s2.
Proof.
  intros (Hv & Hb & Hd & Hp & subject1 & t1 & cls1 & _ & _ & _ & _ & _ & ->)
         (_ & _ & _ & _ & subject & t & cls & Hsub & Ht & Hl & Hc & Hlev & ->).
  split; [done|]. split; [done|]. split; [done|]. split; [done|].
  exists subject, t, cls. by destruct s.
Qed.

Lemma fills_slots tt tt' :
  rtc (fill_step st) tt tt' ->
  forall a, slot_at tt' a = slot_at tt a
            \/ exists s s', slot_at tt a = Some s /\ slot_at tt' a = Some s'
                            /\ filled st a s s'.
Proof.
  intros Hsteps.
  apply (rtc_ind_r (R := fill_step st) (fun g => forall a,
           slot_at g a = slot_at tt a
           \/ exists s s', slot_at tt a = Some s /\ slot_at g a = Some s'
                           /\ filled st a s s') tt); [by left| |done].
  intros tt1 tt2 _ (b & s & s' & Hs & Hfilled & _ & Hslots) IH a.
  rewrite Hslots. destruct (decide (a = b)) as [->|Hne]; [|apply IH].
  right. destruct (IH b) as [Heq|(s0 & s1 & Hs0 & Hs1 & Hf)].
  - exists s, s'. by rewrite <- Heq.
  - rewrite Hs in Hs1. injection Hs1 as <-.
    exists s0, s'. split; [done|]. split; [done|]. by eapply filled_again.
Qed.

Lemma addMissingLessons_sound classId subject missingCount tt tt' :
  In subject (subjects st) ->
  addMissingLessons st classId (Subject.id subject) missingCount tt = Normal tt' ->
  rtc (fill_step st) tt tt'.
Proof.
  intros Hsubject. unfold addMissingLessons.
  destruct (cfold _ this_days (0%Z, tt)) as [r|e] eqn:Hrun; cbn [cbind]; [|done].
  intros [= <-]. revert Hrun.
  apply (cfold_inv (fun acc : Z * Timetable => rtc (fill_step st) tt (snd acc)));
    [|done].
  intros acc d acc' Hd Hacc.
  match goal with |- context [cfold ?f (periods st) ?b] =>
    destruct (cfold f (periods st) b) as [r'|e] eqn:Hinner
  end; cbn [cbind]; [|done].
  intros [= <-]. revert Hinner.
  apply (cfold_inv (fun acc : bool * (Z * Timetable) =>
           rtc (fill_step st) tt (snd (snd acc)))); [|done].
  intros [broken [added g]] period acc2 Hperiod Hg. cbn [fst snd] in *.
  destruct broken; [by intros [= <-]|].
  destruct (is_lesson period) eqn:Hlesson; cbn [negb]; [|by intros [= <-]].
  destruct (reached added missingCount); [by intros [= <-]|].
  destruct (get_slot g d (Period.id period) classId) as [o|e] eqn:Hget;
    cbn [cbind]; [|done].
  destruct o as [s|]; cbn [field cbind]; [|done]. unfold id.
  apply get_slot_Some in Hget.
  destruct (truthy (subject_id s)) eqn:Hvacant; cbn [negb andb];
    [by intros [= <-]|].
  destruct (is_break s) eqn:Hbreak; cbn [negb]; [by intros [= <-]|].
  destruct (find_teacher _ _ _ _ _ g (teachers st)) as [[t|]|e] eqn:Hfind;
    cbn [cbind]; [|by intros [= <-]|done].
  intros [= <-]. cbn [snd].
  apply find_teacher_Some in Hfind as (Ht & Hsub & cls & Hcls & Hlev & Hfree).
  eapply rtc_r; [exact Hg|].
  set (a := mkRef d (Period.id period) classId).
  exists a, s, (set_teacher_id (Some (Teacher.id t))
                  (set_subject_id (Some (Subject.id subject)) s)).
  split; [done|]. split.
  { split; [done|]. split; [done|]. split; [done|]. split; [by exists period|].
    by exists subject, t, cls. }
  split.
  { cbn [teacher_id set_teacher_id ref_day ref_period ref_class a].
    destruct (slot_at_rows _ _ _ _ _ Hget) as (dm & _ & Hdm & _).
    destruct (isTeacherAvailableById_defined g d (Period.id period)
                (Some (Teacher.id t)) classId dm Hdm) as (free & Hfree' & Hiff).
    rewrite Hfree in Hfree'. injection Hfree' as <-.
    intros Hheld. by apply Hiff in Hheld. }
  intros b. rewrite !slot_at_write.
  destruct (decide (a = b)) as [<-|Hne].
  - rewrite decide_True by done. fold a in Hget. by rewrite Hget.
  - by rewrite decide_False by congruence.
Qed.

Lemma optimizeSubjectDistribution_sound cancelled tt tt' :
  optimizeSubjectDistribution st cancelled tt = Normal tt' ->
  rtc (fill_step st) tt tt'.
Proof.
  unfold optimizeSubjectDistribution. destruct cancelled; [by intros [= <-]|].
  apply (cfold_inv (fun g : Timetable => rtc (fill_step st) tt g)); [|done].
  intros g cls g' _ Hg.
  destruct (calculateSubjectDistribution st (Cls.id cls) g) as [dist|e];
    cbn [cbind]; [|done].
  apply (cfold_inv (fun g : Timetable => rtc (fill_step st) tt g)); [|done].
  intros g1 subjectId g2 _ Hg1.
  destruct (find _ (subjects st)) as [subject|] eqn:Hfind; [|done].
  apply find_some in Hfind as [Hin Hid]. apply String.eqb_eq in Hid. subst subjectId.
  destruct (nlt _ _); [|by intros [= <-]].
  intros Hadd. etrans; [exact Hg1|]. by eapply addMissingLessons_sound.
Qed.

End filling.

(** X27. The pass over the distribution of the subjects never double-books:
    if no teacher is held by two classes in a period row of the grid
    before [optimizeSubjectDistribution], none is after it. *)
Theorem optimizeSubjectDistribution_exclusive st cancelled tt tt' :
  no_teacher_twice tt ->
  optimizeSubjectDistribution st cancelled tt = Normal tt' ->
  no_teacher_twice tt'.
Proof.
  intros Hex Hrun. apply (fills_exclusive st tt tt'); [|done].
  by eapply optimizeSubjectDistribution_sound.
Qed.

(** X28. The pass over the distribution of the subjects only fills vacant
    slots: every slot of the grid after [optimizeSubjectDistribution] is
    as it was before, or it had no subject and was no break, lies in a
    lesson period of a day of the week, and has got a subject of the
    state and a teacher of the state who lists that subject and the level
    of the class; its other fields are as they were. *)
Theorem optimizeSubjectDistribution_fills st cancelled tt tt' a :
  optimizeSubjectDistribution st cancelled tt = Normal tt' ->
  slot_at tt' a = slot_at tt a
  \/ exists s s', slot_at tt a = Some s /\ slot_at tt' a = Some s'
                  /\ filled st a s s'.
Proof.
  intros Hrun. apply (fills_slots st tt tt').
  by eapply optimizeSubjectDistribution_sound.
Qed.

(** ** What the resolver leaves behind *)

Section unresolved.
Variable st : AppState.

(** A loop over the bookings that moves nothing has found no alternative
    slot for any of them. *)
Lemma relocate_first_none teacherId d p bookings tt g :
  relocate_first st teacherId d p bookings tt = Normal (false, g) ->
  forall b, In b bookings ->
    findAlternativeSlot st (Booking.slot b) teacherId tt = Normal None.
Proof.
  induction bookings as [|b0 bookings IH]; cbn [relocate_first]; [by intros _ b []|].
  destruct (findAlternativeSlot st (Booking.slot b0) teacherId tt)
    as [[[d' p']|]|e] eqn:Halt; cbn [cbind]; [| |done].
  - destruct (store_slot tt d' p' _ _) as [tt1|e]; cbn [cbind]; [|done].
    destruct (store_slot tt1 d p _ _) as [tt2|e]; cbn [cbind]; done.
  - intros H b [<-|Hin]; [done|]. by apply IH.
Qed.

Lemma unresolved_has_no_place c tt g :
  Conflict.type c = "teacher_double_booking" ->
  resolveSpecificConflict st c tt = Normal (false, g) ->
  forall b, In b (tail (Conflict.assignments c)) ->
  forall d period, In d this_days -> In period (periods st) ->
    ~ vacant_for tt (Booking.slot b) (Conflict.teacherId c) d period.
Proof.
  unfold resolveSpecificConflict, resolveTeacherDoubleBooking.
  intros -> Hrun b Hb. cbn [String.eqb Ascii.eqb Bool.eqb] in Hrun.
  pose proof (relocate_first_none _ _ _ _ _ _ Hrun b Hb) as Hnone.
  exact (findAlternativeSlot_found st _ _ _ None Hnone).
Qed.

End unresolved.

(** A result of the resolver, checked by evaluation. *)
Lemma resolveConflicts_is st tt (n : nat) (g : Timetable) :
  match resolveConflicts st false tt with
  | Normal (n', g') => (n' =? n)%nat && bool_decide (g' = g)
  | Throw _ => false
  end = true ->
  resolveConflicts st false tt = Normal (n, g).
Proof.
  destruct (resolveConflicts st false tt) as [[n' g']|e]; [|done].
  intros H. apply andb_true_iff in H as [Hn Hg].
  apply Nat.eqb_eq in Hn. apply bool_decide_eq_true in Hg. by subst.
Qed.

(** C1 (amended). When the conflict resolver completes without being
    cancelled, one of three things holds of the grid it returns. Either no
    conflict is detected on it, and then no teacher is booked for two
    classes in any day of the week and lesson period of the state (among
    the classes of the state, the slots that are no break and the teacher
    ids that are not empty). Or conflicts are detected and in each of
    them no lesson other than the first has an alternative slot: there is
    no lesson period on a day of the week, other than the lesson's own
    place, where the slot of its class holds no subject and is no break
    and where no other class holds the teacher; resolving any of these
    conflicts leaves the grid as it is. The first lesson of a conflict is
    never tried. Or the resolver used its 100 iterations and resolved at
    least 100 conflicts. *)
Theorem resolveConflicts_outcome st tt n tt' :
  resolveConflicts st false tt = Normal (n, tt') ->
  (findAllConflicts st tt' = Normal [] /\ teacher_exclusive st tt')
  \/ (exists conflicts,
        conflicts <> [] /\ findAllConflicts st tt' = Normal conflicts
        /\ forall c, In c conflicts ->
             resolveSpecificConflict st c tt' = Normal (false, tt')
             /\ forall b, In b (tail (Conflict.assignments c)) ->
                forall d period, In d this_days -> In period (periods st) ->
                  ~ vacant_for tt' (Booking.slot b) (Conflict.teacherId c) d period)
  \/ (maxIterations <= n)%nat.
Proof.
  intros H. apply resolve_loop_outcome in H as [H|[(cs & Hne & Hfind & Hall)|H]];
    [by left| |by right; right].
  right; left. exists cs. split; [done|]. split; [done|].
  intros c Hc. split; [by apply Hall|].
  apply (unresolved_has_no_place st c tt' tt'); [|by apply Hall].
  by destruct (findAllConflicts_real st tt' cs c Hfind Hc) as [Htype _].
Qed.

Lemma resolveConflicts_outcome_witness :
  (findAllConflicts state_two_classes grid_monday_resolved = Normal []
   /\ teacher_exclusive state_two_classes grid_monday_resolved)
  \/ (exists conflicts,
        conflicts <> []
        /\ findAllConflicts state_two_classes grid_monday_resolved = Normal conflicts
        /\ forall c, In c conflicts ->
             resolveSpecificConflict state_two_classes c grid_monday_resolved
             = Normal (false, grid_monday_resolved)
             /\ forall b, In b (tail (Conflict.assignments c)) ->
                forall d period, In d this_days ->
                  In period (periods state_two_classes) ->
                  ~ vacant_for grid_monday_resolved (Booking.slot b)
                      (Conflict.teacherId c) d period)
  \/ (maxIterations <= 1)%nat.
Proof.
  apply (resolveConflicts_outcome state_two_classes grid_monday_conflict 1
           grid_monday_resolved).
  apply resolveConflicts_is. vm_compute. reflexivity.
Defined.

(** Only the lessons after the first are tried: when class A, first in
    the conflict, could move to Tuesday and class B has no free slot, the
    resolver leaves the double booking where it is. *)
Example first_lesson_is_not_tried :
  resolveConflicts state_two_classes false grid_first_could_move
    = Normal (0%nat, grid_first_could_move)
  /\ findAlternativeSlot state_two_classes
       (lesson "Monday" "p1" "A" (Some "S1") (Some "T1")) "T1"
       grid_first_could_move
     = Normal (Some ("Tuesday", "p1")).
Proof.
  split; [apply resolveConflicts_is|]; vm_compute; reflexivity.
Qed.

(** ** The loss to the preferences *)

Section counting_slots.

Lemma size_filter_map {K A} `{Countable K} (P : K * A -> Prop)
    `{!forall x, Decision (P x)} (m : gmap K A) :
  size (filter P m) = length (filter P (map_to_list m)).
Proof.
  induction m as [|i x m Hi IH] using map_ind.
  - by rewrite map_filter_empty, map_size_empty, map_to_list_empty.
  - rewrite (Permutation_length
              (filter_Permutation P _ _ (map_to_list_insert m i x Hi))).
    rewrite filter_cons. destruct (decide (P (i, x))) as [HP|HP].
    + rewrite map_filter_insert_True by done.
      rewrite map_size_insert_None by (by rewrite map_lookup_filter_None; left).
      cbn [length]. by rewrite IH.
    + rewrite map_filter_insert_not' by (done || by rewrite Hi).
      done.
Qed.

(** The count the calculator takes of a period row is the number of
    slots held. *)
Lemma count_in_row_held (tt : Timetable) teacherId d p row :
  period_row tt d p = Normal row ->
  ConstraintManager.count_in_row teacherId row = slots_held tt teacherId d p.
Proof.
  unfold period_row, slots_held, ConstraintManager.count_in_row.
  destruct (tt !! d) as [dm|]; [|done]. intros [= <-]. cbn [mbind option_bind].
  f_equal. rewrite size_filter_map.
  generalize (map_to_list (default ∅ (dm !! p))). intros l.
  unfold strict_eq. induction l as [|cs l IH]; [done|].
  rewrite !filter_cons.
  destruct (decide (teacher_id cs.2 = Some teacherId)) as [He|Hne].
  - rewrite decide_True by (by rewrite bool_decide_eq_true_2).
    cbn [length]. by rewrite IH.
  - rewrite decide_False; [done|]. by rewrite bool_decide_eq_false_2.
Qed.

End counting_slots.

Section totals.
Context {A : Type}.
Implicit Types (g : A -> completion Z) (h : A -> Z) (l : list A).

Lemma cfold_sum_total (f : Z -> A -> completion Z) h l (a r : Z) :
  (forall x b b', In x l -> f b x = Normal b' -> b' = (b + h x)%Z) ->
  cfold f l a = Normal r -> r = (a + total h l)%Z.
Proof.
  revert a. induction l as [|x l IH]; intros a Hstep; cbn [cfold total fold_right].
  - intros [= <-]. lia.
  - destruct (f a x) as [b|e] eqn:Hf; cbn [cbind]; [|done].
    intros Hrest. apply IH in Hrest; [|intros y b1 b2 Hy; apply Hstep; by right].
    rewrite (Hstep x a b (or_introl eq_refl) Hf) in Hrest.
    fold (total h l). lia.
Qed.

Lemma csum_total g h l (r : Z) :
  (forall x v, In x l -> g x = Normal v -> v = h x) ->
  csum g l = Normal r -> r = total h l.
Proof.
  intros Hg Hrun. apply (cfold_sum_total _ h) in Hrun; [lia|].
  intros x b b' Hx. destruct (g x) as [v|e] eqn:Hv; cbn [cbind]; [|done].
  intros [= <-]. by rewrite (Hg x v Hx Hv).
Qed.

Lemma total_ext h h' l : (forall x, In x l -> h x = h' x) -> total h l = total h' l.
Proof.
  induction l as [|x l IH]; intros H; cbn [total fold_right]; [done|].
  fold (total h l) (total h' l). rewrite IH, H; [done|by left|].
  intros y Hy. apply H. by right.
Qed.

Lemma total_scale h l (k : Z) : (total h l * k)%Z = total (fun x => h x * k)%Z l.
Proof.
  induction l as [|x l IH]; cbn [total fold_right]; [done|].
  fold (total h l) (total (fun x => h x * k)%Z l). lia.
Qed.

End totals.

Section preference_loss.
Variables (st : AppState) (tt : Timetable) (ds : list string).
Hypothesis Hdays : days st = Some ds.

(** The loop over the periods of one day. *)
Lemma period_loop_total (test : Period.t -> bool) teacherId d (a r : Z) :
  cfold (fun count period =>
    if test period then
      do row <- period_row tt d (Period.id period);
      Normal (count + ConstraintManager.count_in_row teacherId row)%Z
    else Normal count)
    (periods st) a = Normal r ->
  r = (a + total (fun period =>
                    if test period then slots_held tt teacherId d (Period.id period)
                    else 0%Z) (periods st))%Z.
Proof.
  apply cfold_sum_total. intros period b b' _.
  destruct (test period); [|intros [= <-]; lia].
  destruct (period_row tt d (Period.id period)) as [row|e] eqn:Hrow;
    cbn [cbind]; [|done].
  intros [= <-]. by rewrite (count_in_row_held _ _ _ _ _ Hrow).
Qed.

Lemma countTeacherDailyLessons_total teacherId d n :
  ConstraintManager.countTeacherDailyLessons st teacherId d tt = Normal n ->
  n = daily_lessons st tt teacherId d.
Proof.
  unfold ConstraintManager.countTeacherDailyLessons. intros H.
  apply period_loop_total in H. rewrite H, Z.add_0_l.
  apply total_ext. intros period _. unfold is_lesson.
  destruct (String.eqb_spec (Period.type period) "lesson");
    [by rewrite decide_True|by rewrite decide_False].
Qed.

Lemma countAfternoonLessons_total teacherId n :
  ConstraintManager.countAfternoonLessons st teacherId tt = Normal n ->
  n = afternoon_slots st ds tt teacherId.
Proof.
  unfold ConstraintManager.countAfternoonLessons, ConstraintManager.appState_days.
  rewrite Hdays. cbn [cbind]. intros H.
  apply (cfold_sum_total _ (fun d =>
           total (fun period =>
                    if String.leb "12:00" (Period.start_time period)
                    then slots_held tt teacherId d (Period.id period) else 0%Z)
             (periods st))) in H; [by rewrite H|].
  intros d b b' _ Hd.
  by apply (period_loop_total ConstraintManager.isAfternoonPeriod) in Hd.
Qed.

Lemma daily_excess_total teacherId x :
  daily_excess st tt teacherId = Normal x -> x = excess_units st ds tt teacherId.
Proof.
  unfold daily_excess, ConstraintManager.appState_days. rewrite Hdays. cbn [cbind].
  apply csum_total. intros d v _.
  destruct (ConstraintManager.countTeacherDailyLessons st teacherId d tt)
    as [n|e] eqn:Hn; cbn [cbind]; [|done].
  intros [= <-]. by rewrite (countTeacherDailyLessons_total _ _ _ Hn).
Qed.

(** The penalty times its weight is the loss: 5 for an afternoon slot,
    25 for a unit of excess. *)
Lemma penalty_times_five penalty :
  ConstraintManager.calculateTeacherPreferencePenalty st tt = Normal penalty ->
  (penalty * 5)%Z = preference_loss 25 has_preferences st ds tt.
Proof.
  rewrite penalty_is_sum. intros H.
  apply (csum_total _ (fun teacher =>
           (if wants_morning teacher
            then afternoon_slots st ds tt (Teacher.id teacher) else 0)
           + (if has_preferences teacher
              then excess_units st ds tt (Teacher.id teacher) else 0) * 5)%Z) in H.
  - rewrite H, total_scale. apply total_ext. intros teacher _.
    destruct (wants_morning teacher), (has_preferences teacher); lia.
  - intros teacher v _. unfold teacher_penalty.
    destruct (wants_morning teacher).
    + destruct (ConstraintManager.countAfternoonLessons st (Teacher.id teacher) tt)
        as [a|e] eqn:Ha; cbn [cbind]; [|done].
      apply countAfternoonLessons_total in Ha. subst a.
      destruct (has_preferences teacher); cbn [cbind].
      * destruct (daily_excess st tt (Teacher.id teacher)) as [x|e] eqn:Hx;
          cbn [cbind]; [|done].
        apply daily_excess_total in Hx. subst x. by intros [= <-].
      * by intros [= <-].
    + cbn [cbind]. destruct (has_preferences teacher); cbn [cbind].
      * destruct (daily_excess st tt (Teacher.id teacher)) as [x|e] eqn:Hx;
          cbn [cbind]; [|done].
        apply daily_excess_total in Hx. subst x. by intros [= <-].
      * by intros [= <-].
Qed.

End preference_loss.

Lemma nmul_of_Z (a b : Z) : nmul (of_Z a) (of_Z b) = of_Z (a * b).
Proof.
  unfold nmul, of_Z. f_equal.
  rewrite <- (Qred_inject_Z (a * b)). apply Qred_complete.
  by rewrite inject_Z_mult.
Qed.

(** The calculator returns only on a state that has the field [days]. *)
Lemma imbalance_has_days st tt imbalance :
  ConstraintManager.calculateWorkloadImbalancePenalty st tt = Normal imbalance ->
  exists ds, days st = Some ds.
Proof.
  unfold ConstraintManager.calculateWorkloadImbalancePenalty,
    ConstraintManager.calculateTeacherLoads, ConstraintManager.appState_days.
  destruct (days st) as [ds|]; [eauto|done].
Qed.




(** A teacher without a preferences object is not held to the daily
    limit: two lessons over a limit of one cost nothing. *)
Lemma no_preferences_no_penalty :
  ConstraintManager.calculateTeacherPreferencePenalty
    (state_no_preferences 1) grid_two_lessons = Normal 0%Z
  /\ excess_units (state_no_preferences 1) ["Monday"] grid_two_lessons "T1" = 1%Z
  /\ ConstraintManager.calculateSoftConstraintScores
       (state_no_preferences 1) grid_two_lessons = Normal (Num 1050).
Proof. repeat split; vm_compute; reflexivity. Qed.

(** ** Checks on small grids *)

Lemma exclusiveb_sound tt : exclusiveb tt = true -> no_teacher_twice tt.
Proof.
  unfold exclusiveb. intros H d p dm row c1 c2 s1 s2 t Hd Hp H1 H2 Hne Ht1 Ht2.
  rewrite forallb_forall in H.
  specialize (H (d, dm)). cbn in H.
  rewrite forallb_forall in H.
  specialize (H ltac:(by apply list_elem_of_In, elem_of_map_to_list) (p, row)).
  cbn in H. unfold exclusive_row in H. rewrite forallb_forall in H.
  specialize (H ltac:(by apply list_elem_of_In, elem_of_map_to_list) (c1, s1)).
  cbn in H. rewrite forallb_forall in H.
  specialize (H ltac:(by apply list_elem_of_In, elem_of_map_to_list) (c2, s2)).
  cbn in H.
  specialize (H ltac:(by apply list_elem_of_In, elem_of_map_to_list)).
  rewrite Ht1, Ht2 in H. apply orb_true_iff in H as [H|H].
  - by apply String.eqb_eq in H.
  - unfold strict_eq in H. by rewrite bool_decide_eq_true_2 in H.
Qed.

Lemma well_addressedb_sound tt : well_addressedb tt = true -> well_addressed tt.
Proof.
  unfold well_addressedb. intros H [d p c] s Hs.
  unfold slot_at in Hs. cbn [ref_day ref_period ref_class] in *.
  destruct (tt !! d) as [dm|] eqn:Hd; [|done]. cbn [mbind option_bind] in Hs.
  destruct (dm !! p) as [row|] eqn:Hp; [|done]. cbn [mbind option_bind] in Hs.
  rewrite forallb_forall in H.
  specialize (H (d, dm) ltac:(by apply list_elem_of_In, elem_of_map_to_list)).
  cbn in H. rewrite forallb_forall in H.
  specialize (H (p, row) ltac:(by apply list_elem_of_In, elem_of_map_to_list)).
  cbn in H. rewrite forallb_forall in H.
  specialize (H (c, s) ltac:(by apply list_elem_of_In, elem_of_map_to_list)).
  cbn in H. apply andb_true_iff in H as [H H3]. apply andb_true_iff in H as [H1 H2].
  by apply String.eqb_eq in H1, H2, H3.
Qed.

Lemma coversb_sound st tt : coversb st tt = true -> covers st tt.
Proof.
  unfold coversb. intros H d p c Hd Hp Hc.
  rewrite forallb_forall in H. specialize (H d Hd).
  rewrite forallb_forall in H. specialize (H p Hp).
  rewrite forallb_forall in H. specialize (H c Hc).
  by apply bool_decide_eq_true in H.
Qed.

Lemma no_subjectb_sound tt :
  no_subjectb tt = true -> forall a s, slot_at tt a = Some s -> subject_id s = None.
Proof.
  unfold no_subjectb. intros H [d p c] s Hs.
  unfold slot_at in Hs. cbn [ref_day ref_period ref_class] in *.
  destruct (tt !! d) as [dm|] eqn:Hd; [|done]. cbn [mbind option_bind] in Hs.
  destruct (dm !! p) as [row|] eqn:Hp; [|done]. cbn [mbind option_bind] in Hs.
  rewrite forallb_forall in H.
  specialize (H (d, dm) ltac:(by apply list_elem_of_In, elem_of_map_to_list)).
  cbn in H. rewrite forallb_forall in H.
  specialize (H (p, row) ltac:(by apply list_elem_of_In, elem_of_map_to_list)).
  cbn in H. rewrite forallb_forall in H.
  specialize (H (c, s) ltac:(by apply list_elem_of_In, elem_of_map_to_list)).
  cbn in H. by apply bool_decide_eq_true in H.
Qed.

(** A call that returns, returns its value. *)
Lemma value_of_Normal {A} (c : completion A) (d a : A) :
  c = Normal a -> c = Normal (value_of c d).
Proof. by intros ->. Qed.

Lemma value_of_pair {A B} (c : completion (A * B)) (d : A * B) (a : A * B) :
  c = Normal a -> c = Normal (fst (value_of c d), snd (value_of c d)).
Proof. intros ->. by destruct a. Qed.

Lemma two_classes_fixed_eq :
  placeFixedElements state_two_classes (initializeTimetable state_two_classes)
  = Normal two_classes_fixed.
Proof.
  destruct (placeFixedElements_covered state_two_classes _
              (initializeTimetable_covers state_two_classes)) as (tt0 & H & _).
  exact (value_of_Normal _ _ _ H).
Qed.

Lemma two_classes_run_eq :
  assignLessons state_two_classes false two_classes_fixed
    (createLessonSlots state_two_classes)
  = Normal (fst two_classes_run, snd two_classes_run).
Proof.
  destruct (placeFixedElements_covered state_two_classes _
              (initializeTimetable_covers state_two_classes)) as (tt0 & H & Hmarks).
  assert (Hcov : covers state_two_classes two_classes_fixed).
  { unfold two_classes_fixed. rewrite H. cbn [value_of].
    apply (marks_covers _ _ _ _ Hmarks), initializeTimetable_covers. }
  destruct (assignLessons_total state_two_classes false two_classes_fixed
              (createLessonSlots state_two_classes)
              (initial_engine_ready _ _ Hcov)) as (tt & notes & Hrun).
  exact (value_of_pair _ _ _ Hrun).
Qed.

Lemma monday_relocated_eq :
  resolveTeacherDoubleBooking state_two_classes monday_conflict grid_monday_conflict
  = Normal (true, snd monday_relocated).
Proof.
  assert (H : fst monday_relocated = true) by (vm_compute; reflexivity).
  unfold monday_relocated in *.
  destruct (resolveTeacherDoubleBooking state_two_classes monday_conflict
              grid_monday_conflict) as [[ok tt']|e]; cbn in *; [|done].
  by subst ok.
Qed.

Lemma returns_value_of {A} (c : completion A) (d : A) :
  returns c = true -> c = Normal (value_of c d).
Proof. by destruct c. Qed.

Lemma two_classes_spread_eq :
  optimizeSubjectDistribution state_two_classes false two_classes_fixed
  = Normal two_classes_spread.
Proof. apply returns_value_of. vm_compute. reflexivity. Qed.

(** ** The properties above on the examples *)

Lemma placeFixedElements_marks_witness :
  exists tt',
    placeFixedElements state_school (initializeTimetable state_school) = Normal tt'
    /\ forall a,
         slot_at tt' a
         = if fixed state_school a
           then set_is_break true <$> slot_at (initializeTimetable state_school) a
           else slot_at (initializeTimetable state_school) a.
Proof.
  apply (placeFixedElements_marks state_school (initializeTimetable state_school)).
  apply coversb_sound. vm_compute. reflexivity.
Defined.

Lemma assignLessons_exclusive_witness : no_teacher_twice (fst two_classes_run).
Proof.
  apply (assignLessons_exclusive state_two_classes false two_classes_fixed
           (createLessonSlots state_two_classes)
           (fst two_classes_run) (snd two_classes_run)).
  - apply exclusiveb_sound. vm_compute. reflexivity.
  - exact two_classes_run_eq.
Defined.

Lemma assignLessons_qualified_witness :
  slot_at two_classes_fixed at_Mon_p1_A
    = Some (lesson "Monday" "p1" "A" (Some "S1") (Some "T1"))
  \/ qualified state_two_classes at_Mon_p1_A
       (lesson "Monday" "p1" "A" (Some "S1") (Some "T1")).
Proof.
  apply (assignLessons_qualified state_two_classes false two_classes_fixed
           (createLessonSlots state_two_classes)
           (fst two_classes_run) (snd two_classes_run)).
  - exact two_classes_run_eq.
  - vm_compute. reflexivity.
Defined.

Lemma assignLessons_within_targets_witness :
  (Z.of_nat (lessons_of (fst two_classes_run) week_of_A (Subject.id mathematics))
   <= Z.max 0 (or_default (Subject.target_lessons_per_week mathematics) 5))%Z.
Proof.
  apply (assignLessons_within_targets state_two_classes false two_classes_fixed
           (createLessonSlots state_two_classes)
           (fst two_classes_run) (snd two_classes_run)
           (Cls.mk "A" "S.1" "East") mathematics week_of_A).
  - apply (bool_decide_unpack _). vm_compute. exact I.
  - apply no_subjectb_sound. vm_compute. reflexivity.
  - exact two_classes_run_eq.
  - by left.
  - by left.
  - apply (bool_decide_unpack _). vm_compute. exact I.
  - intros a Ha. apply in_map_iff in Ha as (d & <- & _). reflexivity.
Defined.

Lemma findAllConflicts_sound_witness :
  real_conflict state_two_classes grid_monday_conflict monday_conflict.
Proof.
  apply (findAllConflicts_sound state_two_classes grid_monday_conflict
           [monday_conflict] monday_conflict).
  - vm_compute. reflexivity.
  - by left.
Defined.

Lemma findAllConflicts_complete_witness :
  [monday_conflict] = [] <-> teacher_exclusive state_two_classes grid_monday_conflict.
Proof.
  apply (findAllConflicts_complete state_two_classes grid_monday_conflict
           [monday_conflict]).
  - apply (bool_decide_unpack _). vm_compute. exact I.
  - vm_compute. reflexivity.
Defined.

Lemma findAlternativeSlot_spec_witness :
  In "Tuesday" this_days
  /\ exists period,
       In period (periods state_two_classes) /\ Period.id period = "p1"
       /\ vacant_for grid_monday_conflict
            (lesson "Monday" "p1" "B" (Some "S1") (Some "T1")) "T1" "Tuesday" period.
Proof.
  apply (findAlternativeSlot_spec state_two_classes grid_monday_conflict
           (lesson "Monday" "p1" "B" (Some "S1") (Some "T1")) "T1"
           (Some ("Tuesday", "p1"))).
  vm_compute. reflexivity.
Defined.

Lemma relocation_moves_one_lesson_witness :
  exists b d' period,
    let from := mkRef "Monday" "p1" (Booking.classId b) in
    let to := mkRef d' (Period.id period) (Booking.classId b) in
    In b (tail (Conflict.assignments monday_conflict))
    /\ In d' this_days /\ In period (periods state_two_classes)
    /\ vacant_for grid_monday_conflict (Booking.slot b) "T1" d' period
    /\ slot_at (snd monday_relocated) from
       = Some (vacated "Monday" "p1" (Booking.classId b))
    /\ slot_at (snd monday_relocated) to
       = Some (relocated d' (Period.id period) (Booking.slot b))
    /\ forall a, a <> from -> a <> to ->
         slot_at (snd monday_relocated) a = slot_at grid_monday_conflict a.
Proof.
  apply (relocation_moves_one_lesson state_two_classes grid_monday_conflict
           monday_conflict (snd monday_relocated)).
  - apply well_addressedb_sound. vm_compute. reflexivity.
  - apply (findAllConflicts_real state_two_classes grid_monday_conflict
             [monday_conflict]); [|by left].
    vm_compute. reflexivity.
  - exact monday_relocated_eq.
Defined.

Lemma resolver_idle_after_engine_witness :
  resolveConflicts state_two_classes false (fst two_classes_run)
  = Normal (0%nat, fst two_classes_run).
Proof.
  apply (resolver_idle_after_engine state_two_classes false two_classes_fixed
           (fst two_classes_run) (snd two_classes_run)).
  - apply (bool_decide_unpack _). vm_compute. exact I.
  - exact two_classes_fixed_eq.
  - exact two_classes_run_eq.
Defined.

Lemma moveLesson_keeps_exclusive_witness :
  no_teacher_twice
    (moved grid_one_lesson at_Mon_p1_A at_Mon_p2_A
       (lesson "Monday" "p1" "A" (Some "S1") (Some "T1"))).
Proof.
  apply (moveLesson_keeps_exclusive grid_one_lesson at_Mon_p1_A at_Mon_p2_A
           moved_ok).
  - apply exclusiveb_sound. vm_compute. reflexivity.
  - reflexivity.
  - vm_compute. reflexivity.
Defined.

Lemma soft_score_range_witness :
  (0 <= 1050 <= 950)%Q \/ (1000 < 1050 <= 1050)%Q.
Proof.
  apply (soft_score_range (state_no_preferences 1) grid_two_lessons (Num 1050)).
  vm_compute. reflexivity.
Defined.

Lemma soft_score_unknown_teacher_witness :
  ConstraintManager.calculateSoftConstraintScores state_substitute grid_two_lessons
    = Normal NaN
  /\ NaN = NaN.
Proof.
  split; [vm_compute; reflexivity|].
  apply (soft_score_unknown_teacher state_substitute grid_two_lessons ["Monday"]
           "Monday" first_period "A"
           (lesson "Monday" "p1" "A" (Some "S1") (Some "T1")) "T1" NaN).
  - reflexivity.
  - by left.
  - by left.
  - reflexivity.
  - reflexivity.
  - reflexivity.
  - discriminate.
  - intros teacher [<-|[]]. discriminate.
  - vm_compute. reflexivity.
Defined.

Lemma time_without_colon_never_overlaps_witness :
  ConstraintManager.doPeriodsOverlap decimal_Number period_without_colon first_period
    = false
  /\ ConstraintManager.doPeriodsOverlap decimal_Number first_period
       period_without_colon = false.
Proof.
  apply (time_without_colon_never_overlaps decimal_Number period_without_colon
           first_period).
  reflexivity.
Defined.

Lemma findBestAssignment_sound_witness :
  eligible state_two_classes slot_Monday_A two_classes_fixed
    (initializeSubjectFrequency state_two_classes) first_choice.
Proof.
  apply (findBestAssignment_sound state_two_classes slot_Monday_A two_classes_fixed
           (initializeTeacherLoad state_two_classes)
           (initializeClassLoad state_two_classes)
           (initializeSubjectFrequency state_two_classes) first_choice).
  vm_compute. reflexivity.
Defined.

Lemma findBestAssignment_complete_witness :
  exists a',
    findBestAssignment state_two_classes slot_Monday_A two_classes_fixed
      (initializeTeacherLoad state_two_classes)
      (initializeClassLoad state_two_classes)
      (initializeSubjectFrequency state_two_classes)
    = Normal (Some a').
Proof.
  eapply (findBestAssignment_complete state_two_classes slot_Monday_A
            two_classes_fixed
            (initializeTeacherLoad state_two_classes)
            (initializeClassLoad state_two_classes)
            (initializeSubjectFrequency state_two_classes) first_choice).
  - apply (findBestAssignment_eligible state_two_classes slot_Monday_A
             two_classes_fixed
             (initializeTeacherLoad state_two_classes)
             (initializeClassLoad state_two_classes)).
    vm_compute. reflexivity.
  - intros teacher [<-|[]]. exists 0%Q. vm_compute. reflexivity.
  - vm_compute. reflexivity.
  - vm_compute. reflexivity.
Defined.

Lemma sortSlotsByDifficulty_sorts_witness :
  Permutation [1; 3; 0; 2]%nat [0; 1; 2; 3]%nat
  /\ StronglySorted
       (by_difficulty state_school (createLessonSlots state_school))
       [1; 3; 0; 2]%nat.
Proof.
  apply (sortSlotsByDifficulty_sorts state_school (createLessonSlots state_school)
           [0; 1; 2; 3]%nat [1; 3; 0; 2]%nat).
  vm_compute. reflexivity.
Defined.

Lemma optimizeSubjectDistribution_exclusive_witness :
  no_teacher_twice two_classes_spread.
Proof.
  apply (optimizeSubjectDistribution_exclusive state_two_classes false
           two_classes_fixed two_classes_spread).
  - apply exclusiveb_sound. vm_compute. reflexivity.
  - exact two_classes_spread_eq.
Defined.

Lemma optimizeSubjectDistribution_fills_witness :
  slot_at two_classes_spread at_Mon_p1_A = slot_at two_classes_fixed at_Mon_p1_A
  \/ exists s s',
       slot_at two_classes_fixed at_Mon_p1_A = Some s
       /\ slot_at two_classes_spread at_Mon_p1_A = Some s'
       /\ filled state_two_classes at_Mon_p1_A s s'.
Proof.
  apply (optimizeSubjectDistribution_fills state_two_classes false
           two_classes_fixed two_classes_spread at_Mon_p1_A).
  exact two_classes_spread_eq.
Defined.

(** ** Overlapping periods, in minutes since midnight *)

Section written_times.
Variable Number : string -> num.
Hypothesis Hreads : reads_two_digits Number.

Lemma digit_no_colon n : (n < 10)%nat -> Ascii.eqb (digit n) ":" = false.
Proof. intros H. do 10 (destruct n as [|n]; [done|]). lia. Qed.

Lemma split_written t :
  time_of_day t ->
  split_on ":" (written t) = [two_digits (hour t); two_digits (minute t)].
Proof.
  intros [Hh Hm]. unfold written, two_digits.
  assert (E1 : Ascii.eqb (digit (hour t / 10)) ":" = false)
    by (apply digit_no_colon, Nat.Div0.div_lt_upper_bound; lia).
  assert (E2 : Ascii.eqb (digit (hour t mod 10)) ":" = false)
    by (apply digit_no_colon, Nat.mod_upper_bound; lia).
  assert (E3 : Ascii.eqb (digit (minute t / 10)) ":" = false)
    by (apply digit_no_colon, Nat.Div0.div_lt_upper_bound; lia).
  assert (E4 : Ascii.eqb (digit (minute t mod 10)) ":" = false)
    by (apply digit_no_colon, Nat.mod_upper_bound; lia).
  revert E1 E2 E3 E4.
  generalize (digit (hour t / 10)) (digit (hour t mod 10))
    (digit (minute t / 10)) (digit (minute t mod 10)).
  intros a1 a2 a3 a4 E1 E2 E3 E4.
  change (split_on ":" (String a1 (String a2 (String ":" (String a3 (String a4 "")))))
          = [String a1 (String a2 ""); String a3 (String a4 "")]).
  cbn -[Ascii.eqb]. rewrite E1, E2, E3, E4, Ascii.eqb_refl. done.
Qed.

(** The conversion of a written time gives its minutes since midnight. *)
Lemma timeToMinutes_written t :
  time_of_day t ->
  ConstraintManager.timeToMinutes Number (written t)
  = of_Z (minutes_since_midnight t).
Proof.
  intros Ht. unfold ConstraintManager.timeToMinutes.
  rewrite (split_written t Ht). cbn [map].
  destruct Ht as [Hh Hm].
  rewrite !Hreads by lia.
  change (Num 60) with (of_Z 60). rewrite nmul_of_Z, nadd_of_Z.
  unfold minutes_since_midnight. f_equal. lia.
Qed.

Lemma nlt_ltb (a b : Z) : nlt (of_Z a) (of_Z b) = (a <? b)%Z.
Proof.
  destruct (Z.ltb_spec a b) as [H|H].
  - by apply nlt_of_Z.
  - apply not_true_is_false. intros Hlt. apply nlt_of_Z in Hlt. lia.
Qed.

Lemma doPeriodsOverlap_written p q :
  well_timed p -> well_timed q ->
  ConstraintManager.doPeriodsOverlap Number (as_period p) (as_period q)
  = spec_overlap p q.
Proof.
  intros [Hp1 Hp2] [Hq1 Hq2].
  unfold ConstraintManager.doPeriodsOverlap, spec_overlap, is_lesson, as_period.
  cbn [Period.type Period.start_time Period.end_time].
  rewrite !timeToMinutes_written, !nlt_ltb by done.
  destruct (String.eqb_spec (Timed.type p) "lesson") as [Hp|Hp];
    [rewrite (bool_decide_eq_true_2 _ Hp)|rewrite (bool_decide_eq_false_2 _ Hp)];
    cbn [negb orb andb]; [|done].
  destruct (String.eqb_spec (Timed.type q) "lesson") as [Hq|Hq];
    [rewrite (bool_decide_eq_true_2 _ Hq)|rewrite (bool_decide_eq_false_2 _ Hq)];
    cbn [negb orb andb]; done.
Qed.

End written_times.

Lemma ordered_pairs_map {A B} (f : A -> B) (l : list A) :
  ordered_pairs (map f l)
  = map (fun xy => (f (fst xy), f (snd xy))) (ordered_pairs l).
Proof.
  induction l as [|x l IH]; cbn [map ordered_pairs]; [done|].
  rewrite map_app, IH, !map_map. done.
Qed.

Lemma ordered_pairs_In {A} (l : list A) x y :
  In (x, y) (ordered_pairs l) -> In x l /\ In y l.
Proof.
  induction l as [|z l IH]; cbn [ordered_pairs]; [done|].
  intros H. apply in_app_or in H as [H|H].
  - apply in_map_iff in H as (y' & [= <- <-] & Hy). split; [by left|by right].
  - destruct (IH H). split; by right.
Qed.

Lemma flat_map_filter_map_In {B C} (test test' : C -> bool) (msg : C -> B)
    (l : list C) :
  (forall c, In c l -> test c = test' c) ->
  flat_map (fun c => if test c then [msg c] else []) l
  = map msg (List.filter test' l).
Proof.
  induction l as [|c l IH]; intros H; cbn [flat_map List.filter map]; [done|].
  rewrite IH by (intros c' Hc'; apply H; by right).
  rewrite <- (H c (or_introl eq_refl)). by destruct (test c).
Qed.

Lemma decimal_Number_reads : reads_two_digits decimal_Number.
Proof.
  assert (H : forallb (fun n => bool_decide (decimal_Number (two_digits n)
                                             = of_Z (Z.of_nat n)))
                (seq 0 100) = true) by (vm_compute; reflexivity).
  intros n Hn. rewrite forallb_forall in H.
  apply (bool_decide_unpack _), Is_true_true, H, in_seq. lia.
Qed.


